(** * Project dashboard (app.py): path sandbox, directory scanner,
      browse listing and file reader

    A shallow embedding of the request handlers of [app.py] and of the
    helpers they call.  Python [str] values are represented by their UTF-8
    encoding as Rocq strings: the tests the program performs on them
    ([startswith], [in], [os.path.join], comparison while sorting) give the
    same answers on code points and on UTF-8 bytes.  Every call into the
    operating system is an explicit node of a program tree, so that the
    calls a handler performs, and their order, can be read off its model. *)

From Stdlib Require Import String Ascii Strings.Byte List Bool ZArith QArith Lia.
From Stdlib Require Import Sorting.Mergesort Sorting.Sorted Sorting.Permutation.
From Stdlib Require Import Orders DecimalString DecimalN.
Import ListNotations.

#[local] Set Warnings "-register-all".

Local Open Scope string_scope.
Local Open Scope Z_scope.

(** ** Python values *)

(** Exceptions the handlers distinguish: the two [OSError] subclasses named
    in [except] clauses, [UnicodeDecodeError] for the reader, and every
    other exception, each with the text [str(e)] yields. *)
Inductive exn : Type :=
| PermissionError (msg : string)
| FileNotFoundError (msg : string)
| UnicodeDecodeError (msg : string)
| OtherException (msg : string).

Definition str_of_exn (e : exn) : string :=
  match e with
  | PermissionError m | FileNotFoundError m
  | UnicodeDecodeError m | OtherException m => m
  end.

(** The outcome of a call that may raise. *)
Inductive outcome (A : Type) : Type :=
| Returns (a : A)
| Raises (e : exn).
Arguments Returns {A} a.
Arguments Raises {A} e.

(** The values handed to [jsonify]: dictionaries keep insertion order. *)
Inductive json : Type :=
| JNull
| JInt (n : Z)
| JStr (s : string)
| JArr (items : list json)
| JObj (fields : list (string * json)).

(** A Flask response: the JSON body and the HTTP status. *)
Definition response : Type := (json * Z)%type.

Fixpoint jlookup (key : string) (fields : list (string * json)) : option json :=
  match fields with
  | [] => None
  | (k, v) :: rest => if String.eqb k key then Some v else jlookup key rest
  end.

Definition jget (key : string) (j : json) : option json :=
  match j with
  | JObj fields => jlookup key fields
  | _ => None
  end.

Definition jkeys (j : json) : list string :=
  match j with
  | JObj fields => map fst fields
  | _ => []
  end.

(** ** String operations of the Python runtime *)

Definition sep : ascii := "/"%char.

(** [s.startswith(p)] *)
Definition startswith (s p : string) : bool := String.prefix p s.

(** [needle in s] for strings: some suffix of [s] starts with [needle]. *)
Fixpoint contains (needle s : string) : bool :=
  String.prefix needle s ||
  match s with
  | EmptyString => false
  | String _ rest => contains needle rest
  end.

(** [s.endswith('/')] *)
Fixpoint endswith_sep (s : string) : bool :=
  match s with
  | EmptyString => false
  | String c EmptyString => Ascii.eqb c sep
  | String _ rest => endswith_sep rest
  end.

Definition nonempty (s : string) : bool :=
  match s with EmptyString => false | _ => true end.

(** [os.path.join(a, b)] of posixpath, for two arguments. *)
Definition join (a b : string) : string :=
  if startswith b "/" then b
  else if negb (nonempty a) || endswith_sep a then a ++ b
  else a ++ "/" ++ b.

(** [os.path.basename(p)]: what follows the last separator.  [cur] is the
    part of the input after the last separator seen so far. *)
Fixpoint basename_from (cur s : string) : string :=
  match s with
  | EmptyString => cur
  | String c rest =>
      if Ascii.eqb c sep then basename_from rest rest else basename_from cur rest
  end.

Definition basename (p : string) : string := basename_from p p.

Fixpoint all_sep (s : string) : bool :=
  match s with
  | EmptyString => true
  | String c rest => Ascii.eqb c sep && all_sep rest
  end.

(** [s.rstrip('/')] *)
Fixpoint rstrip_sep (s : string) : string :=
  match s with
  | EmptyString => EmptyString
  | String c rest =>
      match rstrip_sep rest with
      | EmptyString => if Ascii.eqb c sep then EmptyString else String c EmptyString
      | r => String c r
      end
  end.

(** [os.path.dirname(p)]: the head up to and including the last separator,
    with trailing separators removed unless it consists of separators only. *)
Definition dirname (p : string) : string :=
  let head := String.substring 0 (String.length p - String.length (basename p)) p in
  if nonempty head && negb (all_sep head) then rstrip_sep head else head.

(** The pieces of a path between separators, as [p.split('/')] gives them. *)
Fixpoint split_sep (cur s : string) : list string :=
  match s with
  | EmptyString => [cur]
  | String c rest =>
      if Ascii.eqb c sep then cur :: split_sep EmptyString rest
      else split_sep (cur ++ String c EmptyString) rest
  end.

Definition segments (p : string) : list string := split_sep EmptyString p.

(** Decimal rendering of a non-negative integer. *)
Definition str_of_Z (n : Z) : string :=
  NilZero.string_of_uint (N.to_uint (Z.to_N n)).

(** ** Sorting strings: [sorted(os.listdir(...))] *)

Module StrOrder <: TotalLeBool.
Definition t := string.
Definition leb := String.leb.
Lemma leb_total : forall a b, leb a b = true \/ leb b a = true.
Proof. exact String.leb_total. Qed.
End StrOrder.

Module StrSort := Sort StrOrder.

Definition sorted (l : list string) : list string := StrSort.sort l.

(** ** Text decoding *)

Definition is_cont (b : N) : bool := ((128 <=? b) && (b <=? 191))%N.
Definition between (lo hi b : N) : bool := ((lo <=? b) && (b <=? hi))%N.

(** Strict UTF-8 well-formedness, as the [utf-8] codec checks it: shortest
    forms only, no surrogates, nothing above U+10FFFF. *)
Fixpoint utf8_wf (bs : list N) : bool :=
  match bs with
  | [] => true
  | b0 :: r0 =>
      if (b0 <=? 127)%N then utf8_wf r0
      else
        match r0 with
        | [] => false
        | b1 :: r1 =>
            if between 194 223 b0 then is_cont b1 && utf8_wf r1
            else
              match r1 with
              | [] => false
              | b2 :: r2 =>
                  if between 224 239 b0 then
                    (if (b0 =? 224)%N then between 160 191 b1
                     else if (b0 =? 237)%N then between 128 159 b1
                     else is_cont b1)
                    && is_cont b2 && utf8_wf r2
                  else
                    match r2 with
                    | [] => false
                    | b3 :: r3 =>
                        between 240 244 b0
                        && (if (b0 =? 240)%N then between 144 191 b1
                            else if (b0 =? 244)%N then between 128 143 b1
                            else is_cont b1)
                        && is_cont b2 && is_cont b3 && utf8_wf r3
                    end
              end
        end
  end.

(** Universal newlines of text mode ([newline=None]): CR LF and a lone CR
    are read as LF. *)
Fixpoint universal_newlines (s : string) : string :=
  match s with
  | EmptyString => EmptyString
  | String c rest =>
      if Ascii.eqb c "013"%char then
        match rest with
        | String c' rest' =>
            if Ascii.eqb c' "010"%char then String "010"%char (universal_newlines rest')
            else String "010"%char (universal_newlines rest)
        | EmptyString => String "010"%char EmptyString
        end
      else String c (universal_newlines rest)
  end.

(** [f.read()] on a file opened with [encoding='utf-8']: the text, or
    [UnicodeDecodeError]. *)
Definition decode_utf8 (bs : list byte) : outcome string :=
  if utf8_wf (map Byte.to_N bs)
  then Returns (universal_newlines (string_of_list_byte bs))
  else Raises (UnicodeDecodeError "'utf-8' codec can't decode bytes").

(** ** The operating system as the handlers see it *)

(** The fields of [os.stat_result] the program reads.  [st_mtime] is a
    float; it is represented by the rational it denotes, and the
    comparisons made on it are exact. *)
Record stat_result : Type := { st_size : Z; st_mtime : Q }.

(** What [os.walk(top)] observes below [top], without following links:
    an entry is a directory when [is_dir()] holds for it (a symbolic link
    to a directory included, flagged [islink]), anything else is a file;
    [scan] is [None] when [scandir] raises on the directory. *)
Inductive tree : Type :=
| File
| Dir (islink : bool) (scan : option (list (string * tree))).

(** The calls the program makes, each indexed by the type of its answer. *)
Inductive oscall : Type -> Type :=
| Realpath (p : string) : oscall string
| Exists (p : string) : oscall bool
| Isdir (p : string) : oscall bool
| Isfile (p : string) : oscall bool
| Listdir (p : string) : oscall (outcome (list string))
| Stat (p : string) : oscall (outcome stat_result)
| Getsize (p : string) : oscall (outcome Z)
| Getmtime (p : string) : oscall (outcome Q)
| ReadBytes (p : string) : oscall (outcome (list byte))
| Walk (top : string) : oscall tree
| Strftime (t : Q) (fmt : string) : oscall (outcome string).

(** A state of the host: the answer it gives to each call.  [strftime t fmt]
    stands for [datetime.fromtimestamp(t).strftime(fmt)], which depends on
    the local time zone. *)
Record OS : Type := {
  realpath : string -> string;
  path_exists : string -> bool;
  isdir : string -> bool;
  isfile : string -> bool;
  listdir : string -> outcome (list string);
  stat : string -> outcome stat_result;
  getsize : string -> outcome Z;
  getmtime : string -> outcome Q;
  read_bytes : string -> outcome (list byte);
  walk_view : string -> tree;
  strftime : Q -> string -> outcome string
}.

Definition answer (os : OS) {X : Type} (c : oscall X) : X :=
  match c in oscall T return T with
  | Realpath p => realpath os p
  | Exists p => path_exists os p
  | Isdir p => isdir os p
  | Isfile p => isfile os p
  | Listdir p => listdir os p
  | Stat p => stat os p
  | Getsize p => getsize os p
  | Getmtime p => getmtime os p
  | ReadBytes p => read_bytes os p
  | Walk top => walk_view os top
  | Strftime t fmt => strftime os t fmt
  end.

(** Programs: a result, or a call and the rest of the program given its
    answer. *)
Inductive prog (A : Type) : Type :=
| Ret (a : A)
| Call (X : Type) (c : oscall X) (k : X -> prog A).
Arguments Ret {A} a.
Arguments Call {A X} c k.

Fixpoint bind {A B : Type} (m : prog A) (f : A -> prog B) : prog B :=
  match m with
  | Ret a => f a
  | Call c k => Call c (fun x => bind (k x) f)
  end.

Definition call {X : Type} (c : oscall X) : prog X := Call c Ret.

Declare Scope prog_scope.
Delimit Scope prog_scope with prog.
Notation "x <- m ;; k" := (bind m (fun x => k))
  (at level 61, m at next level, right associativity) : prog_scope.
Local Open Scope prog_scope.

(** Running a program against one state of the host.  No call changes that
    state: every call of [oscall] is a query. *)
Fixpoint run {A : Type} (os : OS) (m : prog A) : A :=
  match m with
  | Ret a => a
  | Call c k => run os (k (answer os c))
  end.

(** The calls a run performs, in order. *)
Inductive event : Type := Ev (X : Type) (c : oscall X).
Arguments Ev {X} c.

Fixpoint trace {A : Type} (os : OS) (m : prog A) : list event :=
  match m with
  | Ret _ => []
  | Call c k => Ev c :: trace os (k (answer os c))
  end.

(** ** Configuration *)

Definition PROJECT_ROOT : string := "/home/dragon".

(** The names pruned by both walkers and hidden by the listing. *)
Definition noise_walk : list string := ["node_modules"; "__pycache__"; "venv"; ".git"].
Definition noise_browse : list string := ["node_modules"; "__pycache__"; "venv"].

Definition mem (s : string) (l : list string) : bool := existsb (String.eqb s) l.

(** The filter of [dirs[:] = [d for d in dirs if ...]]. *)
Definition keep_dir (d : string) : bool :=
  negb (startswith d ".") && negb (mem d noise_walk).

(** ** os.walk *)

Definition is_dir_entry (e : string * tree) : bool :=
  match snd e with Dir _ _ => true | File => false end.

(** [for root, dirs, files in os.walk(top): body], top-down: [body] sees the
    directory path, the names of its sub-directories and of its other
    entries, and returns the list it leaves in [dirs] with the new loop
    state; the walk then descends into the names left in [dirs], skipping
    symbolic links.  A directory that cannot be scanned yields nothing, and
    an exception raised by [body] ends the loop. *)
Fixpoint os_walk {S : Type}
    (body : string -> list string -> list string -> S -> prog (outcome (list string * S)))
    (top : string) (t : tree) (s : S) {struct t} : prog (outcome S) :=
  match t with
  | File => Ret (Returns s)
  | Dir _ None => Ret (Returns s)
  | Dir _ (Some entries) =>
      let dirs := map fst (filter is_dir_entry entries) in
      let nondirs := map fst (filter (fun e => negb (is_dir_entry e)) entries) in
      r <- body top dirs nondirs s ;;
      match r with
      | Raises e => Ret (Raises e)
      | Returns (dirs', s1) =>
          fold_left
            (fun (acc : prog (outcome S)) (d : string) =>
               a <- acc ;;
               match a with
               | Raises e => Ret (Raises e)
               | Returns s' =>
                   (fix descend (es : list (string * tree)) : prog (outcome S) :=
                      match es with
                      | [] => Ret (Returns s')
                      | (n, c) :: es' =>
                          if String.eqb n d then
                            match c with
                            | Dir true _ => Ret (Returns s')
                            | _ => os_walk body (join top d) c s'
                            end
                          else descend es'
                      end) entries
               end)
            dirs' (Ret (Returns s1))
      end
  end.

(** ** DirectoryScanner *)

Definition count_body (root : string) (dirs files : list string) (count : Z)
  : prog (outcome (list string * Z)) :=
  Ret (Returns (filter keep_dir dirs, count + Z.of_nat (List.length files))).

(** [count_files(directory)].  [os.walk] swallows the errors of [scandir]
    and [count_body] raises nothing, so the [except] clause never fires (the
    [Raises] branch below is unreachable) and the count is always returned. *)
Definition count_files (directory : string) : prog Z :=
  t <- call (Walk directory) ;;
  r <- os_walk count_body directory t 0 ;;
  Ret (match r with Returns count => count | Raises _ => 0 end).

(** The inner loop of [get_last_modified]: [for fname in files]. *)
Fixpoint mtime_files (root : string) (files : list string) (latest : Q)
  : prog (outcome Q) :=
  match files with
  | [] => Ret (Returns latest)
  | fname :: rest =>
      let fpath := join root fname in
      r <- call (Getmtime fpath) ;;
      match r with
      | Returns mtime =>
          mtime_files root rest (if Qle_bool mtime latest then latest else mtime)
      | Raises (PermissionError _) | Raises (FileNotFoundError _) =>
          mtime_files root rest latest
      | Raises e => Ret (Raises e)
      end
  end.

Definition mtime_body (root : string) (dirs files : list string) (latest : Q)
  : prog (outcome (list string * Q)) :=
  r <- mtime_files root files latest ;;
  Ret (match r with
       | Returns latest' => Returns (filter keep_dir dirs, latest')
       | Raises e => Raises e
       end).

(** [get_last_modified(directory)] *)
Definition get_last_modified (directory : string) : prog string :=
  t <- call (Walk directory) ;;
  r <- os_walk mtime_body directory t 0%Q ;;
  match r with
  | Returns latest =>
      if Qle_bool latest 0 then Ret "Unknown"
      else
        f <- call (Strftime latest "%Y-%m-%d %H:%M") ;;
        Ret (match f with Returns text => text | Raises _ => "Unknown" end)
  | Raises _ => Ret "Unknown"
  end.

(** ** ProjectRegistry *)

(** [get_project_status(directory)]: both branches answer the same. *)
Definition get_project_status (directory : string) : prog string :=
  let git_dir := join directory ".git" in
  b <- call (Exists git_dir) ;;
  Ret (if b then "active" else "active").

Definition main_projects : list (string * string) :=
  [ ("threat-intel-aggregator", "Threat Intelligence Aggregator with Discord integration");
    ("trading", "Freqtrade Trading Bot and Strategies");
    ("fishtracker", "Fish Tracking Application");
    ("sectop", "Security Operations Tools") ].

Definition tooling_areas : list (string * string) :=
  [ ("claude-git-control", "Claude Git Workflows and Templates");
    ("claude-backups", "Claude Session Backups");
    ("project-dashboard", "Project Dashboard (This App)") ].

(** The two [for dirname, description in ....items()] loops of
    [get_projects]; they differ in the [type] they write and in how they
    obtain [status]. *)
Fixpoint project_loop (type : string) (status_of : string -> prog string)
    (items : list (string * string)) (projects : list json) : prog (list json) :=
  match items with
  | [] => Ret projects
  | (dirname, description) :: rest =>
      let dir_path := join PROJECT_ROOT dirname in
      e <- call (Exists dir_path) ;;
      if (e : bool) then
        files_count <- count_files dir_path ;;
        last_modified <- get_last_modified dir_path ;;
        status <- status_of dir_path ;;
        project_loop type status_of rest
          (projects ++ [JObj [ ("name", JStr dirname);
                               ("description", JStr description);
                               ("type", JStr type);
                               ("path", JStr dirname);
                               ("files_count", JInt files_count);
                               ("last_modified", JStr last_modified);
                               ("status", JStr status) ]])
      else project_loop type status_of rest projects
  end.

(** [get_projects()] *)
Definition get_projects : prog (list json) :=
  projects <- project_loop "project" get_project_status main_projects [] ;;
  project_loop "tooling" (fun _ => Ret "active") tooling_areas projects.

(** ** BrowseService *)

Definition error_body (text : string) : json := JObj [("error", JStr text)].

(** The pre-filter shared by both handlers:
    ['..' in path or path.startswith('/')]. *)
Definition invalid_path (p : string) : bool :=
  contains ".." p || startswith p "/".

(** The two [except] clauses that close both handlers. *)
Definition handler_except (e : exn) : response :=
  match e with
  | PermissionError _ => (error_body "Permission denied", 403)
  | _ => (error_body (str_of_exn e), 500)
  end.

Definition hidden_entry (entry : string) : bool :=
  startswith entry "." || mem entry noise_browse.

(** The [for entry in entries] loop of [api_browse]; [items] is the list
    built so far.  [PermissionError] and [FileNotFoundError] skip the entry,
    any other exception leaves the loop. *)
Fixpoint browse_loop (target_path subpath : string) (entries : list string)
    (items : list json) : prog (outcome (list json)) :=
  match entries with
  | [] => Ret (Returns items)
  | entry :: rest =>
      if hidden_entry entry then browse_loop target_path subpath rest items
      else
        let full_path := join target_path entry in
        let rel_path := if nonempty subpath then join subpath entry else entry in
        s <- call (Stat full_path) ;;
        match s with
        | Raises (PermissionError _) | Raises (FileNotFoundError _) =>
            browse_loop target_path subpath rest items
        | Raises e => Ret (Raises e)
        | Returns st =>
            is_dir <- call (Isdir full_path) ;;
            m <- call (Strftime (st_mtime st) "%Y-%m-%d %H:%M:%S") ;;
            match m with
            | Raises (PermissionError _) | Raises (FileNotFoundError _) =>
                browse_loop target_path subpath rest items
            | Raises e => Ret (Raises e)
            | Returns modified =>
                browse_loop target_path subpath rest
                  (items ++ [JObj [ ("name", JStr entry);
                                    ("path", JStr rel_path);
                                    ("type", JStr (if (is_dir : bool) then "directory" else "file"));
                                    ("size", if (is_dir : bool) then JNull else JInt (st_size st));
                                    ("modified", JStr modified) ]])
            end
        end
  end.

Definition has_type (kind : string) (item : json) : bool :=
  match jget "type" item with
  | Some (JStr k) => String.eqb k kind
  | _ => false
  end.

(** [api_browse(subpath)] *)
Definition api_browse (subpath : string) : prog response :=
  if invalid_path subpath then Ret (error_body "Invalid path", 400)
  else
    let target_path := if nonempty subpath then join PROJECT_ROOT subpath else PROJECT_ROOT in
    real_target <- call (Realpath target_path) ;;
    real_root <- call (Realpath PROJECT_ROOT) ;;
    if negb (startswith real_target real_root) then Ret (error_body "Access denied", 403)
    else
      e <- call (Exists target_path) ;;
      if negb e then Ret (error_body "Path not found", 404)
      else
        d <- call (Isdir target_path) ;;
        if negb d then Ret (error_body "Not a directory", 400)
        else
          l <- call (Listdir target_path) ;;
          match l with
          | Raises e => Ret (handler_except e)
          | Returns names =>
              r <- browse_loop target_path subpath (sorted names) [] ;;
              match r with
              | Raises e => Ret (handler_except e)
              | Returns items =>
                  let directories := filter (has_type "directory") items in
                  let files := filter (has_type "file") items in
                  Ret (JObj [ ("current_path", JStr subpath);
                              ("items", JArr (directories ++ files));
                              ("parent_path",
                               if nonempty subpath then JStr (dirname subpath) else JNull) ],
                       200)
              end
          end.

(** ** FileReader *)

(** The float [n / 1024 / 1024], scaled by 2^20: true division of integers
    rounds the exact quotient to the nearest double (53 significant bits,
    ties to even) and dividing by a power of two is exact, so the float is
    [round_to_double n / 2^20].  Used for positive [n] only. *)
Definition round_to_double (n : Z) : Z :=
  let bits := Z.log2 n + 1 in
  if bits <=? 53 then n
  else
    let e := bits - 53 in
    let q := Z.shiftr n e in
    let r := n - Z.shiftl q e in
    let half := Z.shiftl 1 (e - 1) in
    Z.shiftl (if (half <? r) || ((r =? half) && Z.odd q) then q + 1 else q) e.

(** The number of hundredths printed by [{x:.2f}] for that float: the exact
    value rounded to two decimals, ties to even. *)
Definition hundredths (n : Z) : Z :=
  let num := round_to_double n * 100 in
  let den := 2 ^ 20 in
  let q := num / den in
  let r := num mod den in
  if (den <? 2 * r) || ((2 * r =? den) && Z.odd q) then q + 1 else q.

Definition two_digits (d : Z) : string :=
  if d <? 10 then "0" ++ str_of_Z d else str_of_Z d.

(** [f'{file_size / 1024 / 1024:.2f}'] *)
Definition format_mb (file_size : Z) : string :=
  let h := hundredths file_size in
  str_of_Z (h / 100) ++ "." ++ two_digits (h mod 100).

(** [api_read_file(filepath)] *)
Definition api_read_file (filepath : string) : prog response :=
  if invalid_path filepath then Ret (error_body "Invalid path", 400)
  else
    let target_path := join PROJECT_ROOT filepath in
    real_target <- call (Realpath target_path) ;;
    real_root <- call (Realpath PROJECT_ROOT) ;;
    if negb (startswith real_target real_root) then Ret (error_body "Access denied", 403)
    else
      e <- call (Exists target_path) ;;
      if negb e then Ret (error_body "File not found", 404)
      else
        f <- call (Isfile target_path) ;;
        if negb f then Ret (error_body "Not a file", 400)
        else
          sz <- call (Getsize target_path) ;;
          match sz with
          | Raises e => Ret (handler_except e)
          | Returns file_size =>
              if 1024 * 1024 <? file_size then
                Ret (JObj [ ("error", JStr "File too large");
                            ("message",
                             JStr ("File size: " ++ format_mb file_size
                                   ++ "MB. Maximum: 1MB")) ],
                     413)
              else
                b <- call (ReadBytes target_path) ;;
                match (match b with
                       | Returns bs => decode_utf8 bs
                       | Raises e => Raises e
                       end) with
                | Returns content =>
                    Ret (JObj [ ("name", JStr (basename filepath));
                                ("path", JStr filepath);
                                ("content", JStr content);
                                ("size", JInt file_size);
                                ("type", JStr "text") ],
                         200)
                | Raises (UnicodeDecodeError _) =>
                    Ret (JObj [ ("error", JStr "Binary file");
                                ("message", JStr "Cannot display binary files");
                                ("name", JStr (basename filepath));
                                ("path", JStr filepath);
                                ("size", JInt file_size);
                                ("type", JStr "binary") ],
                         415)
                | Raises e => Ret (handler_except e)
                end
          end.

(** ** Concrete hosts

    A host given by its directory tree from [/], used to build the states
    on which the handlers are evaluated.  Symbolic links carry the absolute
    path they point to.  Everything is readable. *)
Module Host.

Inductive node : Type :=
| NFile (st : stat_result) (data : list byte)
| NDir (st : stat_result) (entries : list (string * node))
| NLink (target : string).

Fixpoint child (name : string) (entries : list (string * node)) : option node :=
  match entries with
  | [] => None
  | (n, c) :: rest => if String.eqb n name then Some c else child name rest
  end.

(** Descent from [cur] along the names [segs] without following links. *)
Fixpoint find (cur : node) (segs : list string) : option node :=
  match segs with
  | [] => Some cur
  | s :: rest =>
      match cur with
      | NDir _ entries =>
          match child s entries with
          | Some c => find c rest
          | None => None
          end
      | _ => None
      end
  end.

(** Where the resolution of a path stands: at a node, or failed because a
    component does not exist (ENOENT), because the path goes on past
    something that is not a directory (ENOTDIR), or because too many links
    were followed (ELOOP). *)
Inductive place : Type :=
| At (n : node)
| Missing
| NotADirectory
| Loop.

(** A component that names no entry ([.], or the empty piece around a
    separator) asks for a directory and stays there. *)
Definition stay (cur : place) : place :=
  match cur with
  | At (NDir _ _) => cur
  | At _ => NotADirectory
  | other => other
  end.

(** Resolution of the pieces [segs] of a path from the place [cur] whose
    canonical path is [canon], following at most [links] links: the place
    reached and the canonical path, to which the components that could not
    be resolved are appended as they are.  A link restarts the resolution
    at the root with the pieces of its target. *)
Fixpoint resolve (links : nat) (root : node) {struct links}
  : list string -> place -> list string -> place * list string :=
  fix go (segs : list string) (cur : place) (canon : list string) {struct segs}
    : place * list string :=
    match segs with
    | [] => (cur, canon)
    | s :: rest =>
        if negb (nonempty s) || String.eqb s "." then go rest (stay cur) canon
        else if String.eqb s ".." then
          let up := removelast canon in
          go rest
             (match stay cur with
              | At _ => match find root up with Some n => At n | None => Missing end
              | other => other
              end) up
        else
          match cur with
          | At (NDir _ entries) =>
              match child s entries with
              | Some (NLink target) =>
                  match links with
                  | O => (Loop, (canon ++ s :: rest)%list)
                  | S k => resolve k root (segments target ++ rest)%list (At root) []
                  end
              | Some c => go rest (At c) (canon ++ [s])%list
              | None => go rest Missing (canon ++ [s])%list
              end
          | At _ => go rest NotADirectory (canon ++ [s])%list
          | other => go rest other (canon ++ [s])%list
          end
    end.

(** The kernel gives up after forty links; [os.path.realpath] is given the
    same limit, which it reaches only on a loop or on a chain of more than
    forty links, and then leaves the link where it stopped in the path. *)
Definition lookup (root : node) (p : string) : place * list string :=
  resolve 40 root (segments p) (At root) [].

Definition abspath (canon : list string) : string := "/" ++ String.concat "/" canon.

(** What [os.walk] sees of a node: a link to a directory is a directory
    entry that is not descended into. *)
Fixpoint view (root : node) (n : node) : tree :=
  match n with
  | NFile _ _ => File
  | NDir _ entries => Dir false (Some (map (fun e => (fst e, view root (snd e))) entries))
  | NLink target =>
      match fst (lookup root target) with
      | At (NDir _ _) => Dir true None
      | _ => File
      end
  end.

(** The text of an [OSError] raised for the path [p], as [str] gives it for
    a path of plain characters: the error number, its description and the
    path in quotes. *)
Definition os_error (errno : Z) (what p : string) : string :=
  "[Errno " ++ str_of_Z errno ++ "] " ++ what ++ ": '" ++ p ++ "'".

Definition missing {A : Type} (p : string) : outcome A :=
  Raises (FileNotFoundError (os_error 2 "No such file or directory" p)).

Definition too_many_links {A : Type} (p : string) : outcome A :=
  Raises (OtherException (os_error 40 "Too many levels of symbolic links" p)).

Definition not_a_directory {A : Type} (p : string) : outcome A :=
  Raises (OtherException (os_error 20 "Not a directory" p)).

Definition node_stat (p : string) (n : node) : outcome stat_result :=
  match n with
  | NFile st _ | NDir st _ => Returns st
  | NLink _ => too_many_links p
  end.

(** A call that follows links, made on the path [p]. *)
Definition on_node {A : Type} (root : node) (p : string)
    (f : node -> outcome A) : outcome A :=
  match fst (lookup root p) with
  | At n => f n
  | Missing => missing p
  | NotADirectory => not_a_directory p
  | Loop => too_many_links p
  end.

Definition map_outcome {A B : Type} (f : A -> B) (r : outcome A) : outcome B :=
  match r with Returns a => Returns (f a) | Raises e => Raises e end.

(** Local time of a host whose zone is UTC, for the two formats the program
    uses: the timestamp is rounded to the nearest microsecond, ties to
    even, as [datetime.fromtimestamp] does, and the days since the epoch
    are turned into a civil date of the proleptic Gregorian calendar. *)
Definition nearest_microsecond (t : Q) : Z :=
  let n := Qnum t * 1000000 in
  let d := Zpos (Qden t) in
  let q := n / d in
  let r := n mod d in
  if (d <? 2 * r) || ((2 * r =? d) && Z.odd q) then q + 1 else q.

Definition civil_from_days (days : Z) : Z * Z * Z :=
  let z := days + 719468 in
  let era := z / 146097 in
  let doe := z - era * 146097 in
  let yoe := (doe - doe / 1460 + doe / 36524 - doe / 146096) / 365 in
  let doy := doe - (365 * yoe + yoe / 4 - yoe / 100) in
  let mp := (5 * doy + 2) / 153 in
  let d := doy - (153 * mp + 2) / 5 + 1 in
  let m := if mp <? 10 then mp + 3 else mp - 9 in
  let y := yoe + era * 400 + (if m <=? 2 then 1 else 0) in
  (y, m, d).

Definition utc_clock (t : Q) (fmt : string) : outcome string :=
  let secs := nearest_microsecond t / 1000000 in
  let '(y, m, d) := civil_from_days (secs / 86400) in
  let tod := secs mod 86400 in
  let minutes :=
    str_of_Z y ++ "-" ++ two_digits m ++ "-" ++ two_digits d ++ " "
    ++ two_digits (tod / 3600) ++ ":" ++ two_digits (tod mod 3600 / 60) in
  if String.eqb fmt "%Y-%m-%d %H:%M" then Returns minutes
  else if String.eqb fmt "%Y-%m-%d %H:%M:%S" then
    Returns (minutes ++ ":" ++ two_digits (tod mod 60))
  else Raises (OtherException "unsupported format").

(** The state of a host with tree [root] and local-time rendering [clock]. *)
Definition host (root : node) (clock : Q -> string -> outcome string) : OS :=
  {| realpath := fun p => abspath (snd (lookup root p));
     path_exists := fun p =>
       match fst (lookup root p) with At _ => true | _ => false end;
     isdir := fun p =>
       match fst (lookup root p) with At (NDir _ _) => true | _ => false end;
     isfile := fun p =>
       match fst (lookup root p) with At (NFile _ _) => true | _ => false end;
     listdir := fun p =>
       on_node root p (fun n =>
         match n with
         | NDir _ entries => Returns (map fst entries)
         | _ => not_a_directory p
         end);
     stat := fun p => on_node root p (node_stat p);
     getsize := fun p => map_outcome st_size (on_node root p (node_stat p));
     getmtime := fun p => map_outcome st_mtime (on_node root p (node_stat p));
     read_bytes := fun p =>
       on_node root p (fun n =>
         match n with
         | NFile _ data => Returns data
         | _ => Raises (OtherException (os_error 21 "Is a directory" p))
         end);
     walk_view := fun p =>
       match fst (lookup root p) with
       | At n => view root n
       | _ => Dir false None
       end;
     strftime := clock |}.

End Host.

(** * Vocabulary of the statements *)

(** ** The walk *)

(** The two inner stages of [os_walk], named: the descent into the entry
    called [d], and the loop over the names left in [dirs]. *)
Definition descend {S : Type}
    (body : string -> list string -> list string -> S -> prog (outcome (list string * S)))
    (top d : string) (s' : S) : list (string * tree) -> prog (outcome S) :=
  fix descend (es : list (string * tree)) : prog (outcome S) :=
    match es with
    | [] => Ret (Returns s')
    | (n, c) :: es' =>
        if String.eqb n d then
          match c with
          | Dir true _ => Ret (Returns s')
          | _ => os_walk body (join top d) c s'
          end
        else descend es'
    end.

Definition walk_children {S : Type}
    (body : string -> list string -> list string -> S -> prog (outcome (list string * S)))
    (top : string) (entries : list (string * tree)) (dirs' : list string) (s1 : S)
  : prog (outcome S) :=
  fold_left
    (fun (acc : prog (outcome S)) (d : string) =>
       a <- acc ;;
       match a with
       | Raises e => Ret (Raises e)
       | Returns s' => descend body top d s' entries
       end)
    dirs' (Ret (Returns s1)).

(** Induction on trees that reaches the entries of a directory. *)
Fixpoint tree_nested_ind (P : tree -> Prop)
    (HF : P File)
    (HN : forall l, P (Dir l None))
    (HD : forall l es, Forall (fun e => P (snd e)) es -> P (Dir l (Some es)))
    (t : tree) {struct t} : P t :=
  match t with
  | File => HF
  | Dir l None => HN l
  | Dir l (Some es) =>
      HD l es
        ((fix all (es : list (string * tree)) : Forall (fun e => P (snd e)) es :=
            match es with
            | [] => Forall_nil _
            | (n, c) :: es' =>
                Forall_cons (n, c) (tree_nested_ind P HF HN HD c) (all es')
            end) es)
  end.

(** The directory names the scanner is specified to prune: those that
    start with a dot and the four listed ones.  This follows the wording of
    the specification, not [keep_dir]. *)
Definition pruned_name (d : string) : Prop :=
  startswith d "." = true \/
  d = "node_modules" \/ d = "__pycache__" \/ d = "venv" \/ d = ".git".

(** Two trees that agree outside pruned directories: the same entries in
    the same order, of the same kind, and the same contents below every
    entry whose name is not a pruned one; what lies below a pruned name is
    unconstrained. *)
Fixpoint agree (t1 t2 : tree) {struct t1} : Prop :=
  match t1, t2 with
  | File, File => True
  | Dir l1 None, Dir l2 None => l1 = l2
  | Dir l1 (Some es1), Dir l2 (Some es2) =>
      l1 = l2 /\
      (fix all (es1 es2 : list (string * tree)) {struct es1} : Prop :=
         match es1, es2 with
         | [], [] => True
         | (n1, c1) :: r1, (n2, c2) :: r2 =>
             n1 = n2 /\ is_dir_entry (n1, c1) = is_dir_entry (n2, c2) /\
             (~ pruned_name n1 -> agree c1 c2) /\ all r1 r2
         | _, _ => False
         end) es1 es2
  | _, _ => False
  end.

Definition agree_entries : list (string * tree) -> list (string * tree) -> Prop :=
  fix all (es1 es2 : list (string * tree)) {struct es1} : Prop :=
    match es1, es2 with
    | [], [] => True
    | (n1, c1) :: r1, (n2, c2) :: r2 =>
        n1 = n2 /\ is_dir_entry (n1, c1) = is_dir_entry (n2, c2) /\
        (~ pruned_name n1 -> agree c1 c2) /\ all r1 r2
    | _, _ => False
    end.

(** Both programs return, in loop states that [R] relates. *)
Definition related {S1 S2 : Type} (os1 os2 : OS) (R : S1 -> S2 -> Prop)
    (m1 : prog (outcome S1)) (m2 : prog (outcome S2)) : Prop :=
  exists s1' s2', run os1 m1 = Returns s1' /\ run os2 m2 = Returns s2' /\ R s1' s2'.

(** The walks of [t1] and of any tree that agrees with it, started in
    related states at a path with property [P], end in related states. *)
Definition walk_related {S1 S2 : Type} (os1 os2 : OS)
    (b1 : string -> list string -> list string -> S1 -> prog (outcome (list string * S1)))
    (b2 : string -> list string -> list string -> S2 -> prog (outcome (list string * S2)))
    (P : string -> Prop) (R : S1 -> S2 -> Prop) (t1 : tree) : Prop :=
  forall t2 top s1 s2, agree t1 t2 -> P top -> R s1 s2 ->
    related os1 os2 R (os_walk b1 top t1 s1) (os_walk b2 top t2 s2).

(** ** DirectoryScanner: what is counted *)

(** The loop of [count_files] with a log in place of the counter: the same
    pruning of [dirs], and one record per directory the walk yields, with
    the file names found there. *)
Definition log_body (root : string) (dirs files : list string)
    (log : list (string * list string))
  : prog (outcome (list string * list (string * list string))) :=
  Ret (Returns (filter keep_dir dirs, (log ++ [(root, files)])%list)).

Definition total_files (log : list (string * list string)) : Z :=
  fold_right (fun e acc => Z.of_nat (List.length (snd e)) + acc) 0 log.

(** What the walk yields when every [dirs] is pruned with [keep_dir]: the
    directory, its sub-directory names and its file names, in the order of
    the walk. *)
Fixpoint visited (top : string) (t : tree) {struct t}
  : list (string * list string * list string) :=
  match t with
  | Dir _ (Some entries) =>
      let dirs := map fst (filter is_dir_entry entries) in
      let nondirs := map fst (filter (fun e => negb (is_dir_entry e)) entries) in
      (top, dirs, nondirs) ::
      flat_map
        (fun d =>
           (fix below (es : list (string * tree))
              : list (string * list string * list string) :=
              match es with
              | [] => []
              | (n, c) :: es' =>
                  if String.eqb n d then
                    match c with
                    | Dir true _ => []
                    | _ => visited (join top d) c
                    end
                  else below es'
              end) entries)
        (filter keep_dir dirs)
  | _ => []
  end.

Definition visited_below (top d : string)
  : list (string * tree) -> list (string * list string * list string) :=
  fix below (es : list (string * tree)) : list (string * list string * list string) :=
    match es with
    | [] => []
    | (n, c) :: es' =>
        if String.eqb n d then
          match c with
          | Dir true _ => []
          | _ => visited (join top d) c
          end
        else below es'
    end.

(** A loop over yielded directories whose body updates its state with
    [step] and stops at the first exception. *)
Definition iterate {S : Type}
    (step : string -> list string -> list string -> S -> outcome S)
  : list (string * list string * list string) -> S -> outcome S :=
  fix go (records : list (string * list string * list string)) (s : S) : outcome S :=
    match records with
    | [] => Returns s
    | (root, dirs, files) :: rest =>
        match step root dirs files s with
        | Returns s' => go rest s'
        | Raises e => Raises e
        end
    end.

Definition record_of (r : string * list string * list string) : string * list string :=
  (fst (fst r), snd r).

(** The first entry called [d]. *)
Fixpoint first_child (d : string) (es : list (string * tree)) : option tree :=
  match es with
  | [] => None
  | (n, c) :: es' => if String.eqb n d then Some c else first_child d es'
  end.

(** The entries of the directory found in [t] by going down through the
    names [ds], each of them a readable directory that is not a link. *)
Fixpoint subdir_at (ds : list string) (t : tree) {struct ds}
  : option (list (string * tree)) :=
  match t with
  | Dir _ (Some es) =>
      match ds with
      | [] => Some es
      | d :: ds' =>
          match first_child d es with
          | Some (Dir false sc) => subdir_at ds' (Dir false sc)
          | _ => None
          end
      end
  | _ => None
  end.

Definition file_names (es : list (string * tree)) : list string :=
  map fst (filter (fun e => negb (is_dir_entry e)) es).

(** A record of the log stands for a directory of the tree [t] walked from
    [top]: the one found by going down through the names [ds], none of them
    pruned, with the names of the files it holds. *)
Definition record_reached (top : string) (t : tree) (e : string * list string) : Prop :=
  exists ds es,
    Forall (fun d => ~ pruned_name d) ds /\
    subdir_at ds t = Some es /\
    e = (fold_left join ds top, file_names es).

Module Scenario.
Import Host.

Definition st (size mtime : Z) : stat_result :=
  {| st_size := size; st_mtime := inject_Z mtime |}.
Definition file (text : string) (mtime : Z) : node :=
  NFile (st (Z.of_nat (String.length text)) mtime) (list_byte_of_string text).
Definition dir (mtime : Z) (entries : list (string * node)) : node :=
  NDir (st 4096 mtime) entries.
Definition home (entries : list (string * node)) : node :=
  dir 1700000000 [("home", dir 1700000000 entries)].

(** [/home/dragon/proj] holds [.git/] (with two files), [a.txt] and
    [sub/b.txt]. *)
Definition proj_tree : node :=
  home [("dragon", dir 1700000000
          [("proj", dir 1700000000
             [ (".git", dir 1700000000
                  [ ("HEAD", file "ref: refs/heads/main" 1700000000);
                    ("config", file "[core]" 1700000000) ]);
               ("a.txt", file "a" 1700000100);
               ("sub", dir 1700000000 [("b.txt", file "b" 1700000200)]) ])])].
Definition proj_host : OS := host proj_tree utc_clock.

(** The same directory with an empty [.git/]. *)
Definition proj_bare_tree : node :=
  home [("dragon", dir 1700000000
          [("proj", dir 1700000000
             [ (".git", dir 1700000000 []);
               ("a.txt", file "a" 1700000100);
               ("sub", dir 1700000000 [("b.txt", file "b" 1700000200)]) ])])].
Definition proj_bare_host : OS := host proj_bare_tree utc_clock.
End Scenario.

Module NoiseScenario.
Import Host Scenario.

(** [/home/dragon/app] holds one directory of every pruned kind ([.git],
    [.cache], [node_modules], [__pycache__], [venv]), each with files
    inside, the files [main.py] and [.env], the directory [src] with
    [lib.py] and three pruned directories of its own, and two directories
    whose names extend pruned ones, [venv2] and [node_modules.bak].  The
    newest file of all lies below [.git]. *)
Definition noisy_tree : node :=
  home [("dragon", dir 1700000000
          [("app", dir 1700000000
             [ (".git", dir 1700000000
                  [ ("HEAD", file "ref: refs/heads/main" 1700000000);
                    ("objects", dir 1700000000 [("pack", file "P" 1700050000)]) ]);
               (".cache", dir 1700000000 [("c.bin", file "c" 1700000000)]);
               ("node_modules", dir 1700000000
                  [("pkg", dir 1700000000 [("index.js", file "i" 1700000000)])]);
               ("__pycache__", dir 1700000000 [("main.pyc", file "m" 1700000000)]);
               ("venv", dir 1700000000
                  [("bin", dir 1700000000 [("python", file "p" 1700000000)])]);
               ("main.py", file "print(1)" 1700000100);
               (".env", file "KEY=1" 1700000100);
               ("src", dir 1700000000
                  [ ("lib.py", file "x = 1" 1700000200);
                    ("node_modules", dir 1700000000 [("dep.js", file "d" 1700000000)]);
                    ("__pycache__", dir 1700000000 [("lib.pyc", file "l" 1700000000)]);
                    (".hidden", dir 1700000000 [("h.txt", file "h" 1700000000)]) ]);
               ("venv2", dir 1700000000 [("x.txt", file "x" 1700000000)]);
               ("node_modules.bak", dir 1700000000 [("y.txt", file "y" 1700000000)]) ])])].
Definition noisy_host : OS := host noisy_tree utc_clock.

(** The same directory with every pruned directory emptied. *)
Definition clean_tree : node :=
  home [("dragon", dir 1700000000
          [("app", dir 1700000000
             [ (".git", dir 1700000000 []);
               (".cache", dir 1700000000 []);
               ("node_modules", dir 1700000000 []);
               ("__pycache__", dir 1700000000 []);
               ("venv", dir 1700000000 []);
               ("main.py", file "print(1)" 1700000100);
               (".env", file "KEY=1" 1700000100);
               ("src", dir 1700000000
                  [ ("lib.py", file "x = 1" 1700000200);
                    ("node_modules", dir 1700000000 []);
                    ("__pycache__", dir 1700000000 []);
                    (".hidden", dir 1700000000 []) ]);
               ("venv2", dir 1700000000 [("x.txt", file "x" 1700000000)]);
               ("node_modules.bak", dir 1700000000 [("y.txt", file "y" 1700000000)]) ])])].
Definition clean_host : OS := host clean_tree utc_clock.
End NoiseScenario.

(** ** BrowseService: the listing *)

Definition str_le (a b : string) : Prop := String.leb a b = true.

Definition item_name (item : json) : string :=
  match jget "name" item with
  | Some (JStr s) => s
  | _ => ""
  end.

(** The [items] of a listing; empty for any other response. *)
Definition listing_items (r : response) : list json :=
  match jget "items" (fst r) with
  | Some (JArr items) => items
  | _ => []
  end.

(** The entries of a sorted directory listing that end up in [items], and
    the dictionary built for each, read off the state of the host. *)
Definition listed (os : OS) (target_path entry : string) : bool :=
  negb (hidden_entry entry) &&
  match stat os (join target_path entry) with
  | Returns st =>
      match strftime os (st_mtime st) "%Y-%m-%d %H:%M:%S" with
      | Returns _ => true
      | Raises _ => false
      end
  | Raises _ => false
  end.

Definition item_of (os : OS) (target_path subpath entry : string) : json :=
  match stat os (join target_path entry) with
  | Returns st =>
      match strftime os (st_mtime st) "%Y-%m-%d %H:%M:%S" with
      | Returns modified =>
          let is_dir := isdir os (join target_path entry) in
          JObj [ ("name", JStr entry);
                 ("path", JStr (if nonempty subpath then join subpath entry else entry));
                 ("type", JStr (if is_dir then "directory" else "file"));
                 ("size", if is_dir then JNull else JInt (st_size st));
                 ("modified", JStr modified) ]
      | Raises _ => JNull
      end
  | Raises _ => JNull
  end.

Module BrowseScenario.
Import Host Scenario.

(** [/home/dragon/docs] lists as [zeta.txt], [Alpha/], [beta.txt], in that
    order, before sorting. *)
Definition docs_tree : node :=
  home [("dragon", dir 1700000000
          [("docs", dir 1700000000
             [ ("zeta.txt", file "z" 1700000300);
               ("Alpha", dir 1700000400 []);
               ("beta.txt", file "bb" 1700000500) ])])].
Definition docs_host : OS := host docs_tree utc_clock.
End BrowseScenario.

(** ** FileReader: the checks and the size ceiling *)

(** The four tests a request passes before the size of the file is read. *)
Definition read_checks (os : OS) (filepath : string) : bool :=
  let target_path := join PROJECT_ROOT filepath in
  negb (invalid_path filepath)
  && startswith (realpath os target_path) (realpath os PROJECT_ROOT)
  && path_exists os target_path
  && isfile os target_path.

Definition too_large_response (file_size : Z) : response :=
  (JObj [ ("error", JStr "File too large");
          ("message", JStr ("File size: " ++ format_mb file_size ++ "MB. Maximum: 1MB")) ],
   413).

Definition text_response (filepath content : string) (file_size : Z) : response :=
  (JObj [ ("name", JStr (basename filepath)); ("path", JStr filepath);
          ("content", JStr content); ("size", JInt file_size);
          ("type", JStr "text") ],
   200).

Definition binary_response (filepath : string) (file_size : Z) : response :=
  (JObj [ ("error", JStr "Binary file");
          ("message", JStr "Cannot display binary files");
          ("name", JStr (basename filepath)); ("path", JStr filepath);
          ("size", JInt file_size); ("type", JStr "binary") ],
   415).

(** The response once the checks are passed. *)
Definition read_after_checks (os : OS) (filepath : string) : response :=
  let target_path := join PROJECT_ROOT filepath in
  match getsize os target_path with
  | Raises e => handler_except e
  | Returns file_size =>
      if 1024 * 1024 <? file_size then too_large_response file_size
      else
        match (match read_bytes os target_path with
               | Returns bs => decode_utf8 bs
               | Raises e => Raises e
               end) with
        | Returns content => text_response filepath content file_size
        | Raises (UnicodeDecodeError _) => binary_response filepath file_size
        | Raises e => handler_except e
        end
  end.

(** Reading a decimal numeral back: the value of a non-empty string of
    digits.  It is written without reference to the functions that print
    numbers. *)
Definition digit_value (c : ascii) : option Z :=
  let n := Z.of_N (N_of_ascii c) in
  if (48 <=? n) && (n <=? 57) then Some (n - 48) else None.

Fixpoint decimal_from (acc : Z) (s : string) : option Z :=
  match s with
  | EmptyString => Some acc
  | String c rest =>
      match digit_value c with
      | Some d => decimal_from (10 * acc + d) rest
      | None => None
      end
  end.

Definition decimal_value (s : string) : option Z :=
  match s with
  | EmptyString => None
  | _ => decimal_from 0 s
  end.

Module ReadScenario.
Import Host Scenario.

(** [/home/dragon] holds a text file with CR LF line ends, a file whose
    bytes are not UTF-8, and a file of exactly 2 MiB. *)
Definition files_tree : node :=
  home [("dragon", dir 1700000000
          [ ("notes.txt",
             NFile (st 9 1700000000)
                   [x68; x69; x0d; x0a; xc3; xa9; x0d; x0a; x21]);
            ("blob.bin", NFile (st 4 1700000000) [x89; xff; xfe; x00]);
            ("big.log",
             NFile (st 2097152 1700000000) (repeat x00 (Z.to_nat 2097152))) ])].
Definition files_host : OS := host files_tree utc_clock.

(** [/home/dragon/link] and [/home/dragon/peek] are symbolic links to a
    file and to a directory of the neighbouring account [/home/dragonX]. *)
Definition sibling_tree : node :=
  home [ ("dragon", dir 1700000000
            [ ("link", NLink "/home/dragonX/secret.txt");
              ("peek", NLink "/home/dragonX") ]);
         ("dragonX", dir 1700000000
            [ ("secret.txt", file "top secret" 1700000000) ]) ].
Definition sibling_host : OS := host sibling_tree utc_clock.
End ReadScenario.

Module SizesScenario.
Import Host Scenario.

(** [/home/dragon] holds [half.bin] of one and a half MiB, [edge.bin] of one
    byte more than 1 MiB, and [odd.bin] of 1,121,976 bytes. *)
Definition sizes_tree : node :=
  home [("dragon", dir 1700000000
          [ ("half.bin", NFile (st 1572864 1700000000) (repeat x00 (Z.to_nat 1572864)));
            ("edge.bin", NFile (st 1048577 1700000000) (repeat x00 (Z.to_nat 1048577)));
            ("odd.bin", NFile (st 1121976 1700000000) (repeat x00 (Z.to_nat 1121976))) ])].
Definition sizes_host : OS := host sizes_tree utc_clock.
End SizesScenario.

Module NestedScenario.
Import Host Scenario.

(** [/home/dragon/docs] holds the text file [readme.txt], the file
    [beta.bin] whose bytes are not UTF-8, and [img/logo.png], which starts
    with the byte 0x89. *)
Definition nested_tree : node :=
  home [("dragon", dir 1700000000
          [("docs", dir 1700000000
             [ ("readme.txt", file "hello" 1700000000);
               ("beta.bin", NFile (st 3 1700000000) [xc3; x28; xff]);
               ("img", dir 1700000000
                  [("logo.png", NFile (st 4 1700000000) [x89; x50; x4e; x47])]) ])])].
Definition nested_host : OS := host nested_tree utc_clock.
End NestedScenario.

(** The sandbox test as the specification words it: the canonical root is a
    prefix of the canonical target that ends on a separator boundary. *)
Definition spec_under_root (real_target real_root : string) : bool :=
  String.eqb real_target real_root || startswith real_target (real_root ++ "/").

(** ** ProjectRegistry *)

Definition exists_under_root (os : OS) (dirname : string) : bool :=
  path_exists os (join PROJECT_ROOT dirname).

(** The dictionary one pass of the loop appends, read off the host. *)
Definition project_entry (os : OS) (type : string) (status_of : string -> prog string)
    (item : string * string) : json :=
  let dir_path := join PROJECT_ROOT (fst item) in
  JObj [ ("name", JStr (fst item));
         ("description", JStr (snd item));
         ("type", JStr type);
         ("path", JStr (fst item));
         ("files_count", JInt (run os (count_files dir_path)));
         ("last_modified", JStr (run os (get_last_modified dir_path)));
         ("status", JStr (run os (status_of dir_path))) ].

Module RegistryScenario.
Import Host Scenario.

(** Of the seven configured names, [/home/dragon] holds
    [project-dashboard], [sectop] and [trading], and a directory that is
    not configured. *)
Definition some_tree : node :=
  home [("dragon", dir 1700000000
          [ ("project-dashboard", dir 1700000000 [("app.py", file "import os" 1700003600)]);
            ("scratch", dir 1700000000 []);
            ("sectop", dir 1700000000 []);
            ("trading", dir 1700000000
               [ (".env", file "KEY=1" 1700000700);
                 (".secret", file "s" 1700000800);
                 ("a.txt", file "a" 1700000900) ]) ])].
Definition some_host : OS := host some_tree utc_clock.
End RegistryScenario.

Module RegularFileScenario.
Import Host Scenario.

(** [/home/dragon/trading] is a regular file; no other configured name
    exists. *)
Definition plain_file_tree : node :=
  home [("dragon", dir 1700000000 [("trading", file "notes" 1700000000)])].
Definition plain_file_host : OS := host plain_file_tree utc_clock.
End RegularFileScenario.

(** The entries as the specification words them: each stands for a
    configured name whose directory exists under the root. *)
Definition entries_are_directories (os : OS) : Prop :=
  forall name : string,
    In name (map item_name (run os get_projects)) ->
    isdir os (join PROJECT_ROOT name) = true.

(** ** Determinism *)

(** Two states of the host answer a call alike. *)
Definition agree_on (os os' : OS) (ev : event) : Prop :=
  match ev with Ev c => answer os c = answer os' c end.

(** Two answers of [os.listdir] that differ at most in the order of the
    names. *)
Definition same_up_to_order (r r' : outcome (list string)) : Prop :=
  match r, r' with
  | Returns l, Returns l' => Permutation l l'
  | Raises e, Raises e' => e = e'
  | _, _ => False
  end.

(** Two states of the host answer a call alike, except that a directory
    may list its names in another order. *)
Definition agree_up_to_order (os os' : OS) (ev : event) : Prop :=
  match ev with
  | Ev c =>
      match c in oscall X return X -> X -> Prop with
      | Listdir _ => same_up_to_order
      | _ => eq
      end (answer os c) (answer os' c)
  end.

(** A program that does not depend on the order in which a directory lists
    its names. *)
Fixpoint order_insensitive {A : Type} (m : prog A) : Prop :=
  match m with
  | Ret _ => True
  | Call c k =>
      (forall x, order_insensitive (k x)) /\
      match c in oscall X return (X -> prog A) -> Prop with
      | Listdir _ => fun k =>
          forall l l', Permutation l l' -> k (Returns l) = k (Returns l')
      | _ => fun _ => True
      end k
  end.

Module DeterminismScenario.
Import Host Scenario.

(** The host of [BrowseScenario] after a change outside [docs]. *)
Definition changed_tree : node :=
  home [("dragon", dir 1700000000
          [ ("docs", dir 1700000000
               [ ("zeta.txt", file "z" 1700000300);
                 ("Alpha", dir 1700000400 []);
                 ("beta.txt", file "bb" 1700000500) ]);
            ("inbox", dir 1700009999 [("new.txt", file "n" 1700009999)]) ])].
Definition changed_host : OS := host changed_tree utc_clock.
End DeterminismScenario.

Module ShuffledScenario.
Import Host Scenario.

(** The host of [BrowseScenario] with the entries of [docs] stored, and
    listed, in another order: [beta.txt], [zeta.txt], [Alpha/]. *)
Definition shuffled_tree : node :=
  home [("dragon", dir 1700000000
          [("docs", dir 1700000000
             [ ("beta.txt", file "bb" 1700000500);
               ("zeta.txt", file "z" 1700000300);
               ("Alpha", dir 1700000400 []) ])])].
Definition shuffled_host : OS := host shuffled_tree utc_clock.
End ShuffledScenario.

(** * The routes and the login gate *)

(** ** Sessions, requests and replies *)

(** The values the program stores in the Flask session. *)
Inductive sval : Type :=
| SBool (b : bool)
| SStr (s : string).

(** The session: a dictionary; [session.clear()] leaves it empty. *)
Definition session : Type := list (string * sval).

(** [key in d] *)
Fixpoint has_key (key : string) (d : session) : bool :=
  match d with
  | [] => false
  | (k, _) :: rest => String.eqb k key || has_key key rest
  end.

(** [d[key] = v]: the value is replaced where the key is, or the pair is
    added at the end. *)
Fixpoint dict_set (key : string) (v : sval) (d : session) : session :=
  match d with
  | [] => [(key, v)]
  | (k, x) :: rest =>
      if String.eqb k key then (k, v) :: rest else (k, x) :: dict_set key v rest
  end.

(** [d.get(key)] on a form or on the environment: the first value, if any. *)
Fixpoint dict_get (key : string) (d : list (string * string)) : option string :=
  match d with
  | [] => None
  | (k, v) :: rest => if String.eqb k key then Some v else dict_get key rest
  end.

(** The module-level credentials, read from the environment of the process
    with their defaults. *)
Record credentials : Type := { DASHBOARD_USER : string; DASHBOARD_PASS : string }.

Definition credentials_of (environ : list (string * string)) : credentials :=
  {| DASHBOARD_USER :=
       match dict_get "DASHBOARD_USER" environ with Some v => v | None => "dragon" end;
     DASHBOARD_PASS :=
       match dict_get "DASHBOARD_PASS" environ with Some v => v | None => "dragon123" end |}.

(** What [login] reads of the request. *)
Record request : Type := { method : string; form : list (string * string) }.

(** What a view returns: a rendered template with its keyword arguments, a
    redirect to the URL of an endpoint, or a JSON body with a status. *)
Inductive reply : Type :=
| Rendered (template : string) (context : list (string * string))
| Redirect (endpoint : string)
| Json (body : json) (status : Z).

(** A view maps the session it finds to a reply and the session it leaves. *)
Definition view : Type := session -> prog (reply * session).

(** [username == DASHBOARD_USER] where [username] may be [None]. *)
Definition equals (given : option string) (expected : string) : bool :=
  match given with
  | Some s => String.eqb s expected
  | None => false
  end.

(** ** The views *)

(** [login_required(f)]: the decorated view.  The views it wraps do not
    touch the session. *)
Definition login_required (f : prog reply) : view :=
  fun s =>
    if negb (has_key "logged_in" s) then Ret (Redirect "login", s)
    else r <- f ;; Ret (r, s).

Definition of_response (r : response) : reply := Json (fst r) (snd r).

(** [index()] *)
Definition index : view :=
  login_required (Ret (Rendered "dashboard.html" [])).

(** [api_projects()] *)
Definition api_projects : view :=
  login_required (projects <- get_projects ;; Ret (Json (JArr projects) 200)).

(** [login()] *)
Definition login (cred : credentials) (req : request) : view :=
  fun s =>
    if String.eqb (method req) "POST" then
      let username := dict_get "username" (form req) in
      let password := dict_get "password" (form req) in
      if equals username (DASHBOARD_USER cred) && equals password (DASHBOARD_PASS cred) then
        let s1 := dict_set "logged_in" (SBool true) s in
        (* [username] is a string here: [None] equals no string *)
        let s2 := dict_set "username"
                    (match username with Some u => SStr u | None => SStr "" end) s1 in
        Ret (Redirect "index", s2)
      else Ret (Rendered "login.html" [("error", "Invalid credentials")], s)
    else Ret (Rendered "login.html" [], s).

(** [logout()] *)
Definition logout : view :=
  fun _ => Ret (Redirect "login", []).

(** [browse(subpath)] *)
Definition browse (subpath : string) : view :=
  login_required (Ret (Rendered "browse.html" [("initial_path", subpath)])).

(** The URL rules of the application, with the arguments the converters
    hand to the views ([subpath] defaults to the empty string). *)
Inductive route : Type :=
| RIndex
| RApiProjects
| RLogin (req : request)
| RLogout
| RBrowse (subpath : string)
| RApiBrowse (subpath : string)
| RApiFile (filepath : string).

Definition dispatch (cred : credentials) (r : route) : view :=
  match r with
  | RIndex => index
  | RApiProjects => api_projects
  | RLogin req => login cred req
  | RLogout => logout
  | RBrowse subpath => browse subpath
  | RApiBrowse subpath => login_required (r <- api_browse subpath ;; Ret (of_response r))
  | RApiFile filepath => login_required (r <- api_read_file filepath ;; Ret (of_response r))
  end.

(** The routes behind [@login_required]. *)
Definition protected (r : route) : bool :=
  match r with
  | RLogin _ | RLogout => false
  | _ => true
  end.

(** The undecorated body of a protected route. *)
Definition body_of (r : route) : prog reply :=
  match r with
  | RIndex => Ret (Rendered "dashboard.html" [])
  | RApiProjects => projects <- get_projects ;; Ret (Json (JArr projects) 200)
  | RBrowse subpath => Ret (Rendered "browse.html" [("initial_path", subpath)])
  | RApiBrowse subpath => r <- api_browse subpath ;; Ret (of_response r)
  | RApiFile filepath => r <- api_read_file filepath ;; Ret (of_response r)
  | RLogin _ | RLogout => Ret (Redirect "login")
  end.

(** A login request that carries the configured credentials. *)
Definition good_login (cred : credentials) (req : request) : bool :=
  String.eqb (method req) "POST"
  && equals (dict_get "username" (form req)) (DASHBOARD_USER cred)
  && equals (dict_get "password" (form req)) (DASHBOARD_PASS cred).

(** The session left by a sequence of requests served one after the other
    on one state of the host. *)
Fixpoint serve (cred : credentials) (os : OS) (requests : list route) (s : session)
  : session :=
  match requests with
  | [] => s
  | r :: rest => serve cred os rest (snd (run os (dispatch cred r s)))
  end.

(** The session of a logged-in user. *)
Definition logged_session (cred : credentials) : session :=
  [("logged_in", SBool true); ("username", SStr (DASHBOARD_USER cred))].

(** A successful login has been served and no logout since. *)
Definition logged_in_since (cred : credentials) (requests : list route) : Prop :=
  exists before req after,
    requests = (before ++ RLogin req :: after)%list /\
    good_login cred req = true /\ ~ In RLogout after.

(** * Further vocabulary *)

(** ** The handlers *)

(** The path [api_browse] works on. *)
Definition browse_target (subpath : string) : string :=
  if nonempty subpath then join PROJECT_ROOT subpath else PROJECT_ROOT.

(** The four tests a request passes before the directory is listed. *)
Definition browse_checks (os : OS) (subpath : string) : bool :=
  negb (invalid_path subpath)
  && startswith (realpath os (browse_target subpath)) (realpath os PROJECT_ROOT)
  && path_exists os (browse_target subpath)
  && isdir os (browse_target subpath).

(** The event is the reading of the bytes of a file. *)
Definition reads_file (ev : event) : bool :=
  match ev with
  | Ev (ReadBytes _) => true
  | Ev _ => false
  end.

(** The event opens a file, reads a size or a time by path, or walks a
    tree: what the listing has no use for. *)
Definition opens_or_walks (ev : event) : bool :=
  match ev with
  | Ev (ReadBytes _) | Ev (Getsize _) | Ev (Getmtime _) | Ev (Walk _) => true
  | Ev _ => false
  end.

Definition carriage_return : string := String "013"%char EmptyString.

Module EscapeScenario.
Import Host Scenario.

(** [/home/dragon/out] is a symbolic link to [/etc/passwd], and
    [/home/dragon/sys] one to [/etc]. *)
Definition escape_tree : node :=
  dir 1700000000
    [ ("etc", dir 1700000000 [("passwd", file "root:x:0:0" 1700000000)]);
      ("home", dir 1700000000
         [("dragon", dir 1700000000
            [ ("out", NLink "/etc/passwd"); ("sys", NLink "/etc") ])]) ].
Definition escape_host : OS := host escape_tree utc_clock.
End EscapeScenario.

(** The exceptions the entry loop of [api_browse] steps over. *)
Definition skippable (e : exn) : bool :=
  match e with
  | PermissionError _ | FileNotFoundError _ => true
  | _ => false
  end.

(** Looking at the entry raises nothing the loop does not step over. *)
Definition entry_benign (os : OS) (target_path entry : string) : bool :=
  hidden_entry entry ||
  match stat os (join target_path entry) with
  | Returns st =>
      match strftime os (st_mtime st) "%Y-%m-%d %H:%M:%S" with
      | Returns _ => true
      | Raises e => skippable e
      end
  | Raises e => skippable e
  end.

(** The listing [api_browse] returns for a directory whose names are
    [names]. *)
Definition listing_response (os : OS) (subpath : string) (names : list string) : response :=
  let items := map (item_of os (browse_target subpath) subpath)
                   (filter (listed os (browse_target subpath)) (sorted names)) in
  (JObj [ ("current_path", JStr subpath);
          ("items", JArr (filter (has_type "directory") items
                          ++ filter (has_type "file") items));
          ("parent_path", if nonempty subpath then JStr (dirname subpath) else JNull) ],
   200).

Module DanglingScenario.
Import Host Scenario.

(** [/home/dragon/work] holds [gone], a symbolic link whose target does not
    exist, and the file [kept.txt]. *)
Definition dangling_tree : node :=
  home [("dragon", dir 1700000000
          [("work", dir 1700000000
             [ ("gone", NLink "/home/dragon/nowhere");
               ("kept.txt", file "k" 1700000600) ])])].
Definition dangling_host : OS := host dangling_tree utc_clock.
End DanglingScenario.

(** The [path] the listing of [subpath] gives to the entry [entry]. *)
Definition rel_path (subpath entry : string) : string :=
  if nonempty subpath then join subpath entry else entry.

(** ** The scanner *)

Module AddedFileScenario.
Import Host Scenario.

(** [proj_bare_tree] after [.env] has been written into [proj]. *)
Definition added_tree : node :=
  home [("dragon", dir 1700000000
          [("proj", dir 1700000000
             [ (".git", dir 1700000000 []);
               (".env", file "KEY=1" 1700000300);
               ("a.txt", file "a" 1700000100);
               ("sub", dir 1700000000 [("b.txt", file "b" 1700000200)]) ])])].
Definition added_host : OS := host added_tree utc_clock.
End AddedFileScenario.

(** The paths of the files a walk has yielded, as the loops form them:
    [os.path.join(root, fname)]. *)
Definition files_of_log (log : list (string * list string)) : list string :=
  flat_map (fun e => map (join (fst e)) (snd e)) log.

(** The newest modification time among [paths], starting from [latest]:
    a file whose time cannot be read does not count. *)
Definition newest (os : OS) (paths : list string) (latest : Q) : Q :=
  fold_left
    (fun latest p =>
       match getmtime os p with
       | Returns mtime => if Qle_bool mtime latest then latest else mtime
       | Raises _ => latest
       end)
    paths latest.

(** Reading the modification time raises nothing the loop does not step
    over. *)
Definition mtime_benign (os : OS) (p : string) : bool :=
  match getmtime os p with
  | Returns _ => true
  | Raises e => skippable e
  end.

(** The loop over [paths] with the exceptions it does not step over: it
    stops at the first of them. *)
Fixpoint newest_outcome (os : OS) (paths : list string) (latest : Q) : outcome Q :=
  match paths with
  | [] => Returns latest
  | p :: rest =>
      match getmtime os p with
      | Returns mtime =>
          newest_outcome os rest (if Qle_bool mtime latest then latest else mtime)
      | Raises e => if skippable e then newest_outcome os rest latest else Raises e
      end
  end.

(** All bytes are below 0x80. *)
Definition all_ascii (bs : list byte) : bool :=
  forallb (fun b => (Byte.to_N b <=? 127)%N) bs.

Module LinkScenario.
Import Host Scenario.

(** [/home/dragon/proj] holds [a.txt] and [vendor], a symbolic link to the
    directory [/srv/vendor] with three files. *)
Definition linked_tree : node :=
  dir 1700000000
    [ ("srv", dir 1700000000
         [("vendor", dir 1700000000
            [ ("x.c", file "x" 1700000000); ("y.c", file "y" 1700000000);
              ("z.c", file "z" 1700000000) ])]);
      ("home", dir 1700000000
         [("dragon", dir 1700000000
            [("proj", dir 1700000000
               [ ("a.txt", file "a" 1700000100);
                 ("vendor", NLink "/srv/vendor") ])])]) ].
Definition linked_host : OS := host linked_tree utc_clock.
End LinkScenario.

Module PlainScenario.
Import Host Scenario.

(** [/home/dragon] holds [raw.dat], four bytes below 0x80 with NUL among
    them, and the directory [proj] with [a.txt] alone. *)
Definition plain_tree : node :=
  dir 1700000000
    [ ("srv", dir 1700000000
         [("vendor", dir 1700000000
            [ ("x.c", file "x" 1700000000); ("y.c", file "y" 1700000000);
              ("z.c", file "z" 1700000000) ])]);
      ("home", dir 1700000000
         [("dragon", dir 1700000000
            [ ("raw.dat", NFile (st 4 1700000000) [x00; x01; x7f; x41]);
              ("proj", dir 1700000000 [("a.txt", file "a" 1700000100)]) ])]) ].
Definition plain_host : OS := host plain_tree utc_clock.
End PlainScenario.

Module LoopScenario.
Import Host Scenario.

(** [/home/dragon/work] holds [a.txt] and [self], a symbolic link to
    itself. *)
Definition loop_tree : node :=
  home [("dragon", dir 1700000000
          [("work", dir 1700000000
             [ ("a.txt", file "a" 1700000100);
               ("self", NLink "/home/dragon/work/self") ])])].
Definition loop_host : OS := host loop_tree utc_clock.
End LoopScenario.

Module ChainScenario.
Import Host Scenario.

(** [/home/dragon/hop] is a symbolic link to [/home/dragon/alias], itself
    a symbolic link to the file [/srv/data/a.txt]; [/home/dragon/notes] is a
    regular file. *)
Definition chain_tree : node :=
  dir 1700000000
    [ ("srv", dir 1700000000 [("data", dir 1700000000 [("a.txt", file "abc" 1700000100)])]);
      ("home", dir 1700000000
         [("dragon", dir 1700000000
            [ ("hop", NLink "/home/dragon/alias");
              ("alias", NLink "/srv/data/a.txt");
              ("notes", file "n" 1700000000) ])]) ].
Definition chain_host : OS := host chain_tree utc_clock.
End ChainScenario.

Module FarFutureScenario.
Import Host Scenario.

(** Local time that, like [datetime], knows the years 1 to 9999 only: for
    a time outside them [fromtimestamp] raises [ValueError], naming the
    year. *)
Definition range_clock (t : Q) (fmt : string) : outcome string :=
  let secs := nearest_microsecond t / 1000000 in
  if (253402300800 <=? secs) || (secs <? -62135596800)
  then
    let '(y, _, _) := civil_from_days (secs / 86400) in
    Raises (OtherException ("year " ++ str_of_Z y ++ " is out of range"))
  else utc_clock t fmt.

(** [/home/dragon/work] holds [a.txt] and [late.txt], a file whose
    modification time lies in the year 10000. *)
Definition late_tree : node :=
  home [("dragon", dir 1700000000
          [("work", dir 1700000000
             [ ("a.txt", file "a" 1700000100);
               ("late.txt", file "l" 253402300800) ])])].
Definition late_host : OS := host late_tree range_clock.
End FarFutureScenario.

(** * Properties *)

(** ** Formatting of sizes *)

Example format_mb_2MiB : format_mb 2097152 = "2.00".
Proof. reflexivity. Qed.
Example format_mb_tie : format_mb 1179648 = "1.12".
Proof. reflexivity. Qed.
Example format_mb_3 : format_mb 1572865 = "1.50".
Proof. reflexivity. Qed.

(** ** Concrete hosts *)

(** A chain of links is followed to its end. *)
Example chain_of_links_resolves :
  realpath ChainScenario.chain_host "/home/dragon/hop" = "/srv/data/a.txt" /\
  isfile ChainScenario.chain_host "/home/dragon/hop" = true /\
  getsize ChainScenario.chain_host "/home/dragon/hop" = Returns 3 /\
  read_bytes ChainScenario.chain_host "/home/dragon/hop" = Returns [x61; x62; x63].
Proof. repeat split. Qed.

(** A path that goes on past a regular file does not exist, and looking at
    it is refused with ENOTDIR. *)
Example path_past_a_file :
  path_exists ChainScenario.chain_host "/home/dragon/notes" = true /\
  path_exists ChainScenario.chain_host "/home/dragon/notes/" = false /\
  path_exists ChainScenario.chain_host "/home/dragon/notes/x" = false /\
  stat ChainScenario.chain_host "/home/dragon/notes/x"
  = Raises (OtherException "[Errno 20] Not a directory: '/home/dragon/notes/x'") /\
  stat ChainScenario.chain_host "/home/dragon/absent"
  = Raises (FileNotFoundError "[Errno 2] No such file or directory: '/home/dragon/absent'").
Proof. repeat split. Qed.

(** A link to itself cannot be looked at, and the listing of its directory
    fails with the text of that error. *)
Example link_loop_fails_the_listing :
  path_exists LoopScenario.loop_host "/home/dragon/work/self" = false /\
  stat LoopScenario.loop_host "/home/dragon/work/self"
  = Raises (OtherException
              "[Errno 40] Too many levels of symbolic links: '/home/dragon/work/self'") /\
  run LoopScenario.loop_host (api_browse "work")
  = (error_body "[Errno 40] Too many levels of symbolic links: '/home/dragon/work/self'",
     500).
Proof. repeat split. Qed.

(** The clock rounds to the nearest microsecond before it drops the
    fraction of a second. *)
Example clock_rounds_to_microseconds :
  Host.utc_clock (17000000009999996 # 10000000) "%Y-%m-%d %H:%M:%S"
  = Returns "2023-11-14 22:13:21" /\
  Host.utc_clock (17000000009999994 # 10000000) "%Y-%m-%d %H:%M:%S"
  = Returns "2023-11-14 22:13:20" /\
  Host.utc_clock (inject_Z 1700000000) "%Y-%m-%d %H:%M" = Returns "2023-11-14 22:13".
Proof. repeat split. Qed.

(** ** Running programs *)

Lemma run_bind {A B : Type} (os : OS) (m : prog A) (f : A -> prog B) :
  run os (x <- m ;; f x) = run os (f (run os m)).
Proof.
  induction m as [a | X c k IH]; simpl; [reflexivity | apply IH].
Qed.

Lemma trace_bind {A B : Type} (os : OS) (m : prog A) (f : A -> prog B) :
  trace os (x <- m ;; f x) = (trace os m ++ trace os (f (run os m)))%list.
Proof.
  induction m as [a | X c k IH]; simpl; [reflexivity | now rewrite IH].
Qed.

(** ** Strings *)

Lemma prefix_app (x b : string) : String.prefix x (x ++ b) = true.
Proof.
  induction x as [| c x IH]; simpl.
  - now destruct b.
  - destruct (ascii_dec c c) as [_ | N]; [exact IH | now elim N].
Qed.

Lemma contains_unfold (x s : string) :
  contains x s =
  String.prefix x s ||
  match s with EmptyString => false | String _ rest => contains x rest end.
Proof. destruct s; reflexivity. Qed.

Lemma contains_app (x a b : string) : contains x (a ++ x ++ b) = true.
Proof.
  induction a as [| c a IH].
  - simpl append. rewrite contains_unfold, prefix_app. reflexivity.
  - simpl append. rewrite contains_unfold, IH. apply orb_true_r.
Qed.

Lemma append_assoc (a b c : string) : ((a ++ b) ++ c = a ++ (b ++ c))%string.
Proof. induction a as [| x a IH]; simpl; [reflexivity | now rewrite IH]. Qed.

Lemma prefix_nil (s : string) : String.prefix "" s = true.
Proof. now destruct s. Qed.

Lemma contains_char_cons (x c : ascii) (s : string) :
  contains (String x "") (String c s) = Ascii.eqb c x || contains (String x "") s.
Proof.
  rewrite contains_unfold.
  change (String.prefix (String x "") (String c s))
    with (if ascii_dec x c then String.prefix "" s else false).
  destruct (ascii_dec x c) as [E | N];
    destruct (Ascii.eqb_spec c x) as [E' | N']; subst;
    try congruence; try reflexivity.
  now rewrite prefix_nil.
Qed.

Lemma endswith_sep_app (a s : string) :
  nonempty s = true -> endswith_sep (a ++ s) = endswith_sep s.
Proof.
  intros Hs. induction a as [| c a IH]; [reflexivity |].
  cbn [append].
  destruct (a ++ s)%string eqn:E.
  - destruct a, s; discriminate.
  - exact IH.
Qed.

Lemma basename_from_no_sep (e cur : string) :
  contains "/" e = false -> basename_from cur e = cur.
Proof.
  revert cur. induction e as [| c e IH]; intros cur H; [reflexivity |].
  rewrite contains_char_cons in H. apply orb_false_iff in H as [Hc He].
  cbn [basename_from]. unfold sep. rewrite Hc. now apply IH.
Qed.

Lemma basename_from_app (a e cur : string) :
  contains "/" e = false -> basename_from cur (a ++ String sep e) = e.
Proof.
  intros He. revert cur. induction a as [| c a IH]; intros cur.
  - cbn [append basename_from]. rewrite Ascii.eqb_refl. now apply basename_from_no_sep.
  - cbn [append basename_from]. destruct (Ascii.eqb c sep); apply IH.
Qed.

(** A string that holds a separator splits at its last one. *)
Lemma last_sep_split (s : string) :
  contains "/" s = true ->
  exists a e, s = a ++ String sep e /\ contains "/" e = false.
Proof.
  induction s as [| c s IH]; [discriminate |].
  rewrite contains_char_cons. destruct (contains "/" s) eqn:E.
  - intros _. destruct (IH eq_refl) as (a & e & -> & He).
    now exists (String c a), e.
  - rewrite orb_false_r. intros Hc. apply Ascii.eqb_eq in Hc. subst c.
    now exists "", s.
Qed.

(** [basename] gives what follows the last separator: the path is a
    directory part, empty or ending in a separator, followed by the name,
    and the name holds no separator. *)
Lemma basename_splits (p : string) :
  exists dir,
    p = dir ++ basename p /\
    contains "/" (basename p) = false /\
    (dir = "" \/ endswith_sep dir = true).
Proof.
  destruct (contains "/" p) eqn:E.
  - destruct (last_sep_split p E) as (a & e & -> & He).
    unfold basename. rewrite (basename_from_app a e _ He).
    exists (a ++ "/"). split; [| split; [exact He | right]].
    + now rewrite append_assoc.
    + now rewrite endswith_sep_app.
  - exists "". unfold basename. rewrite (basename_from_no_sep p p E).
    split; [reflexivity | split; [exact E | now left]].
Qed.

(** Every piece produced by the split occurs in the string it came from. *)
Lemma split_sep_occurs (s cur x : string) :
  In x (split_sep cur s) -> exists a b, (cur ++ s = a ++ x ++ b)%string.
Proof.
  revert cur; induction s as [| c s IH]; intros cur H; simpl in H.
  - destruct H as [<- | []]. exists "", "". simpl. reflexivity.
  - destruct (Ascii.eqb c sep) eqn:Ec.
    + destruct H as [<- | H].
      * exists "", (String c s). reflexivity.
      * destruct (IH _ H) as (a & b & E). simpl in E.
        exists (cur ++ String c a)%string, b.
        rewrite append_assoc. simpl. now rewrite E.
    + destruct (IH _ H) as (a & b & E). exists a, b.
      rewrite <- E, append_assoc. reflexivity.
Qed.

Lemma segment_contained (p x : string) : In x (segments p) -> contains x p = true.
Proof.
  intros H. destruct (split_sep_occurs _ _ _ H) as (a & b & E).
  simpl in E. rewrite E. apply contains_app.
Qed.

(** ** The syntactic pre-filter *)

Lemma invalid_path_browse (p : string) :
  invalid_path p = true -> api_browse p = Ret (error_body "Invalid path", 400).
Proof. intros H. unfold api_browse. now rewrite H. Qed.

Lemma invalid_path_read (p : string) :
  invalid_path p = true -> api_read_file p = Ret (error_body "Invalid path", 400).
Proof. intros H. unfold api_read_file. now rewrite H. Qed.

(** C2.  A relative path with a [..] segment, or one that begins with the
    separator, is answered by both handlers with the Invalid-path error and
    status 400, and the handler is then a bare result: whatever the state of
    the host, the run performs no call at all (no canonicalization, no
    existence check, no listing, no read). *)
Theorem prefilter_rejects_before_any_call (p : string) :
  In ".." (segments p) \/ startswith p "/" = true ->
  api_browse p = Ret (error_body "Invalid path", 400) /\
  api_read_file p = Ret (error_body "Invalid path", 400) /\
  forall os : OS,
    run os (api_browse p) = (error_body "Invalid path", 400) /\
    run os (api_read_file p) = (error_body "Invalid path", 400) /\
    trace os (api_browse p) = [] /\
    trace os (api_read_file p) = [].
Proof.
  intros H.
  assert (I : invalid_path p = true).
  { unfold invalid_path. destruct H as [H | H].
    - now rewrite (segment_contained _ _ H).
    - rewrite H. apply orb_true_r. }
  rewrite (invalid_path_browse _ I), (invalid_path_read _ I).
  repeat split.
Qed.

Lemma prefilter_rejects_before_any_call_witness :
  (In ".." (segments "../../etc/passwd") \/ startswith "../../etc/passwd" "/" = true) /\
  api_browse "../../etc/passwd" = Ret (error_body "Invalid path", 400) /\
  api_read_file "/etc/passwd" = Ret (error_body "Invalid path", 400).
Proof.
  split; [left; simpl; auto |].
  split.
  - apply (prefilter_rejects_before_any_call "../../etc/passwd"). left; simpl; auto.
  - apply (prefilter_rejects_before_any_call "/etc/passwd"). right; reflexivity.
Defined.

(** C9.  The pre-filter tests for the two characters [..] anywhere in the
    path, not for a [..] segment: every path that contains them is answered
    with the Invalid-path error and status 400 by both handlers.  The names
    [notes..txt] and [a..b/file] have no [..] segment, do not begin with the
    separator and join to a path below the root, and are rejected. *)
Theorem prefilter_rejects_dotdot_substring :
  (forall p : string,
     contains ".." p = true ->
     api_browse p = Ret (error_body "Invalid path", 400) /\
     api_read_file p = Ret (error_body "Invalid path", 400)) /\
  (~ In ".." (segments "notes..txt") /\ startswith "notes..txt" "/" = false /\
   join PROJECT_ROOT "notes..txt" = "/home/dragon/notes..txt" /\
   api_browse "notes..txt" = Ret (error_body "Invalid path", 400) /\
   api_read_file "notes..txt" = Ret (error_body "Invalid path", 400)) /\
  (~ In ".." (segments "a..b/file") /\ startswith "a..b/file" "/" = false /\
   join PROJECT_ROOT "a..b/file" = "/home/dragon/a..b/file" /\
   api_browse "a..b/file" = Ret (error_body "Invalid path", 400) /\
   api_read_file "a..b/file" = Ret (error_body "Invalid path", 400)).
Proof.
  split; [| split].
  - intros p H. split; [apply invalid_path_browse | apply invalid_path_read];
      unfold invalid_path; now rewrite H.
  - repeat split; try reflexivity. simpl. intuition discriminate.
  - repeat split; try reflexivity. simpl. intuition discriminate.
Qed.

Lemma prefilter_rejects_dotdot_substring_witness :
  contains ".." "notes..txt" = true /\
  api_browse "notes..txt" = Ret (error_body "Invalid path", 400) /\
  api_read_file "notes..txt" = Ret (error_body "Invalid path", 400).
Proof.
  split; [reflexivity |].
  apply (proj1 prefilter_rejects_dotdot_substring "notes..txt"). reflexivity.
Defined.

(** ** The walk *)

Lemma os_walk_dir {S : Type} body top l entries (s : S) :
  os_walk body top (Dir l (Some entries)) s =
  (r <- body top (map fst (filter is_dir_entry entries))
             (map fst (filter (fun e => negb (is_dir_entry e)) entries)) s ;;
   match r with
   | Raises e => Ret (Raises e)
   | Returns (dirs', s1) => walk_children body top entries dirs' s1
   end).
Proof. reflexivity. Qed.

Lemma agree_dir l1 l2 es1 es2 :
  agree (Dir l1 (Some es1)) (Dir l2 (Some es2)) <-> l1 = l2 /\ agree_entries es1 es2.
Proof. reflexivity. Qed.

Lemma agree_entries_dirs es1 es2 :
  agree_entries es1 es2 ->
  map fst (filter is_dir_entry es1) = map fst (filter is_dir_entry es2) /\
  map fst (filter (fun e => negb (is_dir_entry e)) es1)
  = map fst (filter (fun e => negb (is_dir_entry e)) es2).
Proof.
  revert es2; induction es1 as [| [n1 c1] r1 IH]; intros [| [n2 c2] r2] H;
    simpl in H; try contradiction; [split; reflexivity |].
  destruct H as (-> & Hk & _ & Hr). destruct (IH _ Hr) as [E1 E2].
  cbn [filter]. rewrite Hk.
  destruct (is_dir_entry (n2, c2)); cbn [negb map fst]; now rewrite ?E1, ?E2.
Qed.

Lemma agree_refl (t : tree) : agree t t.
Proof.
  induction t as [| l | l es IH] using tree_nested_ind; simpl; auto.
  split; [reflexivity |].
  induction IH as [| [n c] es Hc _ IHes]; simpl; auto.
Qed.

(** The filter keeps exactly the names that are not pruned. *)
Lemma keep_dir_not_pruned (d : string) : keep_dir d = true <-> ~ pruned_name d.
Proof.
  unfold keep_dir, pruned_name, mem, noise_walk. cbn [existsb].
  destruct (startswith d ".");
    [split; [discriminate | intros H; exfalso; apply H; now left] |].
  cbn [negb andb].
  destruct (String.eqb_spec d "node_modules");
    [split; [discriminate | intros H; exfalso; apply H; tauto] |].
  destruct (String.eqb_spec d "__pycache__");
    [split; [discriminate | intros H; exfalso; apply H; tauto] |].
  destruct (String.eqb_spec d "venv");
    [split; [discriminate | intros H; exfalso; apply H; tauto] |].
  destruct (String.eqb_spec d ".git");
    [split; [discriminate | intros H; exfalso; apply H; tauto] |].
  split; [intros _ [H | H]; [discriminate | tauto] | reflexivity].
Qed.

(** Two walks, over trees that agree outside pruned directories, whose
    bodies prune [dirs] with [keep_dir] and never raise: a relation [R]
    between their loop states and a property [P] of the directory paths
    handed to the bodies are both carried through the whole walk. *)
Section WalkRelation.
Context {S1 S2 : Type} (os1 os2 : OS).
Variable b1 : string -> list string -> list string -> S1 -> prog (outcome (list string * S1)).
Variable b2 : string -> list string -> list string -> S2 -> prog (outcome (list string * S2)).
Variable P : string -> Prop.
Variable R : S1 -> S2 -> Prop.

Hypothesis body_step : forall root dirs files s1 s2,
  P root -> R s1 s2 ->
  exists s1' s2',
    run os1 (b1 root dirs files s1) = Returns (filter keep_dir dirs, s1') /\
    run os2 (b2 root dirs files s2) = Returns (filter keep_dir dirs, s2') /\
    R s1' s2'.
Hypothesis root_step : forall root d, P root -> keep_dir d = true -> P (join root d).

Lemma related_ret s1 s2 :
  R s1 s2 -> related os1 os2 R (Ret (Returns s1)) (Ret (Returns s2)).
Proof. intros H. exists s1, s2. auto. Qed.

Lemma descend_related es1 :
  Forall (fun e => walk_related os1 os2 b1 b2 P R (snd e)) es1 ->
  forall es2 top d s1 s2, agree_entries es1 es2 ->
    P top -> keep_dir d = true -> R s1 s2 ->
    related os1 os2 R (descend b1 top d s1 es1) (descend b2 top d s2 es2).
Proof.
  induction 1 as [| [n1 c1] r1 Hc _ IH];
    intros [| [n2 c2] r2] top d s1 s2 Ha Ht Hd Hr; simpl in Ha; try contradiction.
  - now apply related_ret.
  - destruct Ha as (<- & Hk & Hsub & Hrest). simpl.
    destruct (String.eqb_spec n1 d) as [-> | _]; [| now apply IH].
    specialize (Hsub (proj1 (keep_dir_not_pruned d) Hd)). simpl in Hc.
    destruct c1 as [| l1 sc1], c2 as [| l2 sc2]; try discriminate Hk.
    + apply Hc; auto.
    + assert (l1 = l2) as <-.
      { destruct sc1, sc2; simpl in Hsub; try contradiction; tauto. }
      destruct l1; [now apply related_ret | apply Hc; auto].
Qed.

Lemma children_related es1 es2 :
  Forall (fun e => walk_related os1 os2 b1 b2 P R (snd e)) es1 ->
  agree_entries es1 es2 ->
  forall top ds s1 s2, P top -> Forall (fun d => keep_dir d = true) ds ->
    R s1 s2 ->
    related os1 os2 R (walk_children b1 top es1 ds s1) (walk_children b2 top es2 ds s2).
Proof.
  intros Hes Ha top ds s1 s2 Ht Hds Hr. unfold walk_children.
  assert (Hm : related os1 os2 R (Ret (Returns s1)) (Ret (Returns s2)))
    by now apply related_ret.
  revert Hm. generalize (Ret (Returns s1)), (Ret (Returns s2)).
  induction ds as [| d ds IH]; intros m1 m2 Hm; simpl.
  - exact Hm.
  - inversion Hds as [| ? ? Hd Hds']; subst. apply IH; auto.
    destruct Hm as (a1 & a2 & E1 & E2 & Ha12).
    unfold related. rewrite !run_bind, E1, E2.
    now apply descend_related.
Qed.

Lemma walk_related_all (t1 : tree) : walk_related os1 os2 b1 b2 P R t1.
Proof.
  induction t1 as [| l | l es IH] using tree_nested_ind;
    intros t2 top s1 s2 Ha Ht Hr.
  - destruct t2; [now apply related_ret | contradiction].
  - destruct t2 as [| l2 [es2 |]]; try contradiction. now apply related_ret.
  - destruct t2 as [| l2 [es2 |]]; try contradiction.
    apply agree_dir in Ha as [_ Ha].
    rewrite !os_walk_dir. unfold related. rewrite !run_bind.
    destruct (agree_entries_dirs _ _ Ha) as [<- <-].
    destruct (body_step top (map fst (filter is_dir_entry es))
                (map fst (filter (fun e => negb (is_dir_entry e)) es))
                s1 s2 Ht Hr) as (s1' & s2' & E1 & E2 & Hr').
    rewrite E1, E2. apply children_related; auto.
    apply Forall_forall. intros d Hd. now apply filter_In in Hd.
Qed.

End WalkRelation.

(** ** DirectoryScanner: what is counted *)

Lemma total_files_app l1 l2 :
  total_files (l1 ++ l2) = total_files l1 + total_files l2.
Proof.
  unfold total_files. induction l1 as [| e l1 IH]; simpl; [reflexivity | lia].
Qed.

Lemma visited_dir (top : string) (l : bool) (es : list (string * tree)) :
  visited top (Dir l (Some es))
  = (top, map fst (filter is_dir_entry es), file_names es)
    :: flat_map (fun d => visited_below top d es)
         (filter keep_dir (map fst (filter is_dir_entry es))).
Proof. reflexivity. Qed.

Lemma iterate_app {S : Type} step r1 r2 (s : S) :
  iterate step (r1 ++ r2) s
  = match iterate step r1 s with
    | Returns s' => iterate step r2 s'
    | Raises e => Raises e
    end.
Proof.
  revert s. induction r1 as [| [[root dirs] files] r1 IH]; intros s; [reflexivity |].
  cbn [app iterate]. destruct (step root dirs files s); [apply IH | reflexivity].
Qed.

(** A walk whose body prunes [dirs] with [keep_dir] is the loop of its
    state update over the directories [visited] lists. *)
Section WalkVisits.
Context {S : Type} (os : OS).
Variable body : string -> list string -> list string -> S -> prog (outcome (list string * S)).
Variable step : string -> list string -> list string -> S -> outcome S.

Hypothesis body_prunes : forall root dirs files s,
  run os (body root dirs files s)
  = match step root dirs files s with
    | Returns s' => Returns (filter keep_dir dirs, s')
    | Raises e => Raises e
    end.

Lemma descend_visits (es : list (string * tree)) :
  Forall (fun e => forall top s,
            run os (os_walk body top (snd e) s) = iterate step (visited top (snd e)) s) es ->
  forall top d s,
    run os (descend body top d s es) = iterate step (visited_below top d es) s.
Proof.
  induction 1 as [| [n c] es Hc _ IH]; intros top d s; [reflexivity |].
  cbn [descend visited_below]. destruct (String.eqb n d); [| apply IH].
  cbn [snd] in Hc. destruct c as [| [] sc]; [apply Hc | reflexivity | apply Hc].
Qed.

Lemma children_visits (es : list (string * tree)) :
  Forall (fun e => forall top s,
            run os (os_walk body top (snd e) s) = iterate step (visited top (snd e)) s) es ->
  forall top ds s,
    run os (walk_children body top es ds s)
    = iterate step (flat_map (fun d => visited_below top d es) ds) s.
Proof.
  intros Hes top ds s. unfold walk_children.
  change (iterate step (flat_map (fun d => visited_below top d es) ds) s)
    with (match run os (Ret (Returns s)) with
          | Returns s' => iterate step (flat_map (fun d => visited_below top d es) ds) s'
          | Raises e => Raises e
          end).
  generalize (Ret (Returns s) : prog (outcome S)).
  induction ds as [| d ds IH]; intros m.
  - cbn [fold_left flat_map iterate]. now destruct (run os m).
  - cbn [fold_left flat_map]. rewrite IH, run_bind.
    destruct (run os m) as [s' | e]; [| reflexivity].
    rewrite iterate_app. now rewrite descend_visits.
Qed.

Lemma os_walk_visits (t : tree) (top : string) (s : S) :
  run os (os_walk body top t s) = iterate step (visited top t) s.
Proof.
  revert top s. induction t as [| l | l es IH] using tree_nested_ind; intros top s;
    try reflexivity.
  rewrite os_walk_dir, visited_dir, run_bind, body_prunes. cbn [iterate].
  destruct (step top _ _ s) as [s1 | e]; [| reflexivity].
  now apply children_visits.
Qed.

End WalkVisits.

Lemma iterate_log (records : list (string * list string * list string))
    (log : list (string * list string)) :
  iterate (fun root _ files log => Returns (log ++ [(root, files)])%list) records log
  = Returns (log ++ map record_of records)%list.
Proof.
  revert log. induction records as [| [[root dirs] files] records IH]; intros log.
  - cbn. now rewrite app_nil_r.
  - cbn [iterate map]. rewrite IH, <- app_assoc. reflexivity.
Qed.

Lemma iterate_count (records : list (string * list string * list string)) (count : Z) :
  iterate (fun _ _ files count => Returns (count + Z.of_nat (List.length files)))
    records count
  = Returns (count + total_files (map record_of records)).
Proof.
  revert count. induction records as [| [[root dirs] files] records IH]; intros count.
  - cbn. f_equal. lia.
  - cbn [iterate map]. rewrite IH. unfold total_files. cbn. f_equal. lia.
Qed.

Lemma walk_log (os : OS) (top : string) (t : tree) :
  run os (os_walk log_body top t []) = Returns (map record_of (visited top t)).
Proof.
  rewrite (os_walk_visits os log_body
             (fun root _ files log => Returns (log ++ [(root, files)])%list));
    [apply iterate_log | reflexivity].
Qed.

Lemma walk_count (os : OS) (top : string) (t : tree) :
  run os (os_walk count_body top t 0)
  = Returns (total_files (map record_of (visited top t))).
Proof.
  rewrite (os_walk_visits os count_body
             (fun _ _ files count => Returns (count + Z.of_nat (List.length files))));
    [apply iterate_count | reflexivity].
Qed.

Lemma visited_below_first (top d : string) (es : list (string * tree)) :
  visited_below top d es
  = match first_child d es with
    | Some (Dir true _) | None => []
    | Some c => visited (join top d) c
    end.
Proof.
  induction es as [| [n c] es IH]; [reflexivity |].
  cbn [visited_below first_child]. destruct (String.eqb n d); [| exact IH].
  now destruct c as [| [] sc].
Qed.

Lemma first_child_In (d : string) (es : list (string * tree)) (c : tree) :
  first_child d es = Some c -> In (d, c) es.
Proof.
  induction es as [| [n c'] es IH]; [discriminate |].
  cbn [first_child]. destruct (String.eqb_spec n d) as [-> | _].
  - intros [= ->]. now left.
  - intros H. right. now apply IH.
Qed.

(** Every directory the walk yields is found in the tree by going down
    through names the filter keeps. *)
Lemma visited_reached (t : tree) :
  forall top r, In r (visited top t) ->
    exists ds es,
      Forall (fun d => keep_dir d = true) ds /\
      subdir_at ds t = Some es /\
      r = (fold_left join ds top, map fst (filter is_dir_entry es), file_names es).
Proof.
  induction t as [| l | l es IH] using tree_nested_ind; intros top r Hin;
    try contradiction.
  rewrite visited_dir in Hin. destruct Hin as [<- | Hin].
  - exists [], es. split; [constructor | split; reflexivity].
  - apply in_flat_map in Hin as (d & Hd & Hin). apply filter_In in Hd as [_ Hd].
    rewrite visited_below_first in Hin.
    destruct (first_child d es) as [c |] eqn:Ec; [| contradiction].
    pose proof (first_child_In _ _ _ Ec) as Hc.
    rewrite Forall_forall in IH. specialize (IH _ Hc). cbn [snd] in IH.
    destruct c as [| [] sc]; try contradiction.
    destruct (IH _ _ Hin) as (ds & es' & Hds & Hsub & ->).
    exists (d :: ds), es'. split; [now constructor |]. split; [| reflexivity].
    cbn [subdir_at]. now rewrite Ec.
Qed.

(** Every directory found by going down through kept names is yielded. *)
Lemma reached_visited (ds : list string) :
  forall t top es,
    Forall (fun d => keep_dir d = true) ds ->
    subdir_at ds t = Some es ->
    In (fold_left join ds top, map fst (filter is_dir_entry es), file_names es)
       (visited top t).
Proof.
  induction ds as [| d ds IH]; intros t top es Hds Hsub.
  - destruct t as [| l [es0 |]]; try discriminate Hsub.
    injection Hsub as ->. rewrite visited_dir. now left.
  - destruct t as [| l [es0 |]]; try discriminate Hsub.
    cbn [subdir_at] in Hsub.
    destruct (first_child d es0) as [[| [] sc] |] eqn:Ec; try discriminate Hsub.
    inversion Hds as [| ? ? Hd Hds']; subst.
    rewrite visited_dir. right. apply in_flat_map. exists d. split.
    + apply filter_In. split; [| exact Hd].
      apply in_map_iff. exists (d, Dir false sc). split; [reflexivity |].
      apply filter_In. split; [now apply first_child_In | reflexivity].
    + rewrite visited_below_first, Ec. cbn [fold_left]. now apply IH.
Qed.

Lemma Forall_kept (ds : list string) :
  Forall (fun d => keep_dir d = true) ds <-> Forall (fun d => ~ pruned_name d) ds.
Proof.
  split; intros H; eapply Forall_impl; try exact H; intros d; apply keep_dir_not_pruned.
Qed.

(** The log of the walk holds exactly the directories of the tree found
    through names that are not pruned, with their file names. *)
Lemma log_reached (top : string) (t : tree) (e : string * list string) :
  In e (map record_of (visited top t)) <-> record_reached top t e.
Proof.
  split.
  - intros Hin. apply in_map_iff in Hin as (r & <- & Hr).
    destruct (visited_reached t top r Hr) as (ds & es & Hds & Hsub & ->).
    exists ds, es. split; [now apply Forall_kept | split; [exact Hsub | reflexivity]].
  - intros (ds & es & Hds & Hsub & ->). apply in_map_iff.
    exists (fold_left join ds top, map fst (filter is_dir_entry es), file_names es).
    split; [reflexivity |]. apply reached_visited; [now apply Forall_kept | exact Hsub].
Qed.

(** The counter and the log advance together, over the directories found
    through names that are not pruned. *)
Lemma count_and_log (os : OS) (directory : string) (t : tree) :
  exists count log,
    run os (os_walk count_body directory t 0) = Returns count /\
    run os (os_walk log_body directory t []) = Returns log /\
    count = total_files log /\
    forall e, In e log <-> record_reached directory t e.
Proof.
  exists (total_files (map record_of (visited directory t))),
         (map record_of (visited directory t)).
  split; [apply walk_count |]. split; [apply walk_log |]. split; [reflexivity |].
  intros e. apply log_reached.
Qed.

Lemma run_count_files (os : OS) (directory : string) :
  run os (count_files directory) =
  match run os (os_walk count_body directory (walk_view os directory) 0) with
  | Returns count => count
  | Raises _ => 0
  end.
Proof. unfold count_files. rewrite !run_bind. reflexivity. Qed.

(** Whatever lies below pruned directories has no influence on the count. *)
Lemma count_agree (os1 os2 : OS) (top : string) (t1 t2 : tree) :
  agree t1 t2 ->
  run os1 (os_walk count_body top t1 0) = run os2 (os_walk count_body top t2 0).
Proof.
  intros Ha.
  destruct (walk_related_all os1 os2 count_body count_body (fun _ => True) (@eq Z))
    with (t1 := t1) (t2 := t2) (top := top) (s1 := 0) (s2 := 0)
    as (c1 & c2 & E1 & E2 & <-); auto.
  - intros root dirs files s1 s2 _ <-.
    exists (s1 + Z.of_nat (List.length files)), (s1 + Z.of_nat (List.length files)).
    auto.
  - now rewrite E1, E2.
Qed.

(** One step of a proof that two closed trees agree: the entries are
    compared, and below a name the hypothesis is either refuted, the name
    being pruned, or dropped. *)
Ltac agree_step :=
  match goal with
  | |- agree _ _ => cbn [agree]
  | |- _ /\ _ => split
  | |- True => exact I
  | |- _ = _ => reflexivity
  | |- ~ pruned_name _ -> _ =>
      let H := fresh in
      intros H;
      first [ exfalso; apply H; unfold pruned_name;
              first [ left; reflexivity
                    | right; left; reflexivity
                    | right; right; left; reflexivity
                    | right; right; right; left; reflexivity
                    | right; right; right; right; reflexivity ]
            | clear H ]
  end.

(** C3.  For every state of the host and every directory, the number
    [count_files] returns is the number of file names in the records of the
    walk, and those records are exactly the directories of the tree found
    from the starting directory by going down through names none of which
    starts with a dot or is one of [node_modules], [__pycache__], [venv],
    [.git], each with the names of the files it holds: nothing below a
    directory of such a name is visited or counted.  Two states of the host
    that differ only below directories of such names give the same count.
    On a directory holding [.git/] (with files inside), [a.txt] and
    [sub/b.txt] the count is 2.  On a directory that holds every kind of
    pruned directory, at the top and one level down, next to directories
    whose names only resemble the pruned ones, the count is 5: the files of
    the directory, of [src], of [venv2] and of [node_modules.bak]. *)
Theorem count_files_skips_pruned_directories :
  (forall (os : OS) (directory : string),
     exists log,
       run os (os_walk log_body directory (walk_view os directory) []) = Returns log /\
       run os (count_files directory) = total_files log /\
       forall e, In e log <-> record_reached directory (walk_view os directory) e) /\
  (forall (os1 os2 : OS) (directory : string),
     agree (walk_view os1 directory) (walk_view os2 directory) ->
     run os1 (count_files directory) = run os2 (count_files directory)) /\
  run Scenario.proj_host (os_walk log_body "/home/dragon/proj"
                            (walk_view Scenario.proj_host "/home/dragon/proj") [])
    = Returns [ ("/home/dragon/proj", ["a.txt"]); ("/home/dragon/proj/sub", ["b.txt"]) ] /\
  run Scenario.proj_host (count_files "/home/dragon/proj") = 2 /\
  run NoiseScenario.noisy_host
      (os_walk log_body "/home/dragon/app"
         (walk_view NoiseScenario.noisy_host "/home/dragon/app") [])
    = Returns [ ("/home/dragon/app", ["main.py"; ".env"]);
                ("/home/dragon/app/src", ["lib.py"]);
                ("/home/dragon/app/venv2", ["x.txt"]);
                ("/home/dragon/app/node_modules.bak", ["y.txt"]) ] /\
  run NoiseScenario.noisy_host (count_files "/home/dragon/app") = 5 /\
  run NoiseScenario.clean_host (count_files "/home/dragon/app") = 5.
Proof.
  split; [| split; [| repeat split; reflexivity]].
  - intros os directory.
    destruct (count_and_log os directory (walk_view os directory))
      as (count & log & E1 & E2 & Hc & Hl).
    exists log. rewrite run_count_files, E1. auto.
  - intros os1 os2 directory Ha.
    rewrite !run_count_files. now rewrite (count_agree os1 os2 directory _ _ Ha).
Qed.

Lemma count_files_skips_pruned_directories_witness :
  agree (walk_view NoiseScenario.noisy_host "/home/dragon/app")
        (walk_view NoiseScenario.clean_host "/home/dragon/app") /\
  walk_view NoiseScenario.noisy_host "/home/dragon/app"
  <> walk_view NoiseScenario.clean_host "/home/dragon/app" /\
  run NoiseScenario.noisy_host (count_files "/home/dragon/app")
  = run NoiseScenario.clean_host (count_files "/home/dragon/app").
Proof.
  assert (Ha : agree (walk_view NoiseScenario.noisy_host "/home/dragon/app")
                     (walk_view NoiseScenario.clean_host "/home/dragon/app")).
  { cbv [NoiseScenario.noisy_host NoiseScenario.clean_host walk_view Host.host].
    vm_compute Host.lookup. cbn [fst Host.view map snd].
    repeat agree_step. }
  split; [exact Ha |]. split; [discriminate |].
  exact (proj1 (proj2 count_files_skips_pruned_directories)
           NoiseScenario.noisy_host NoiseScenario.clean_host "/home/dragon/app" Ha).
Defined.

(** ** BrowseService: the listing *)

Lemma string_compare_trans_le (a b c : string) :
  String.compare a b <> Gt -> String.compare b c <> Gt -> String.compare a c <> Gt.
Proof.
  revert b c; induction a as [| x a IH]; intros [| y b] [| z c]; simpl;
    try congruence.
  unfold Ascii.compare.
  destruct (N.compare_spec (N_of_ascii x) (N_of_ascii y)) as [Exy | Lxy | Gxy];
    destruct (N.compare_spec (N_of_ascii y) (N_of_ascii z)) as [Eyz | Lyz | Gyz];
    destruct (N.compare_spec (N_of_ascii x) (N_of_ascii z)) as [Exz | Lxz | Gxz];
    try congruence; try lia.
  apply IH.
Qed.

Lemma str_le_trans (a b c : string) : str_le a b -> str_le b c -> str_le a c.
Proof.
  unfold str_le, String.leb. intros H1 H2.
  pose proof (string_compare_trans_le a b c) as T.
  destruct (String.compare a b), (String.compare b c), (String.compare a c);
    try discriminate; try reflexivity; exfalso; apply T; congruence.
Qed.

Lemma sorted_is_sorted (l : list string) : StronglySorted str_le (sorted l).
Proof.
  apply Sorted_StronglySorted.
  - intros a b c. apply str_le_trans.
  - apply StrSort.Sorted_sort.
Qed.

Lemma StronglySorted_filter {A : Type} (le : A -> A -> Prop) (p : A -> bool) l :
  StronglySorted le l -> StronglySorted le (filter p l).
Proof.
  induction 1 as [| a l Hl IH Ha]; simpl; [constructor |].
  destruct (p a); [| exact IH].
  constructor; [exact IH |].
  apply Forall_forall. intros x Hx. apply filter_In in Hx as [Hx _].
  revert x Hx. now apply Forall_forall.
Qed.

Lemma filter_map_comm {A B : Type} (f : A -> B) (p : B -> bool) l :
  filter p (map f l) = map f (filter (fun a => p (f a)) l).
Proof.
  induction l as [| a l IH]; simpl; [reflexivity |].
  destruct (p (f a)); simpl; now rewrite IH.
Qed.

Lemma browse_loop_returns (os : OS) (target_path subpath : string) entries :
  forall items items',
    run os (browse_loop target_path subpath entries items) = Returns items' ->
    items' = (items ++ map (item_of os target_path subpath)
                           (filter (listed os target_path) entries))%list.
Proof.
  induction entries as [| entry rest IH]; intros items items' H.
  - simpl in H. injection H as <-. simpl. now rewrite app_nil_r.
  - cbn [browse_loop] in H. cbn [filter].
    destruct (listed os target_path entry) eqn:EL; unfold listed in EL;
      destruct (hidden_entry entry); cbn [negb andb] in EL; try discriminate EL;
      cbn [bind call run answer] in H.
    + cbn [map]. unfold item_of at 1.
      destruct (stat os (join target_path entry)) as [st | e]; [| discriminate EL].
      cbn [bind call run answer] in H.
      destruct (strftime os (st_mtime st) "%Y-%m-%d %H:%M:%S") as [m | e];
        [| discriminate EL].
      apply IH in H. rewrite H, <- app_assoc. reflexivity.
    + now apply IH.
    + destruct (stat os (join target_path entry)) as [st | e].
      * cbn [bind call run answer] in H.
        destruct (strftime os (st_mtime st) "%Y-%m-%d %H:%M:%S") as [m | e];
          [discriminate EL |].
        destruct e; try discriminate H; now apply IH.
      * destruct e; try discriminate H; now apply IH.
Qed.

Lemma item_of_listed (os : OS) (target_path subpath entry : string) :
  listed os target_path entry = true ->
  item_name (item_of os target_path subpath entry) = entry /\
  has_type "directory" (item_of os target_path subpath entry)
  = isdir os (join target_path entry) /\
  has_type "file" (item_of os target_path subpath entry)
  = negb (isdir os (join target_path entry)).
Proof.
  unfold listed, item_of. intros H. apply andb_true_iff in H as [_ H].
  destruct (stat os (join target_path entry)) as [st | e]; [| discriminate H].
  destruct (strftime os (st_mtime st) "%Y-%m-%d %H:%M:%S") as [m | e];
    [| discriminate H].
  destruct (isdir os (join target_path entry)); repeat split.
Qed.

(** The items of every response of [api_browse]: the dictionaries of the
    listed entries of a sorted list of names, directories first. *)
Lemma api_browse_items (os : OS) (subpath : string) :
  exists target_path names,
    let items := map (item_of os target_path subpath)
                     (filter (listed os target_path) (sorted names)) in
    listing_items (run os (api_browse subpath))
    = (filter (has_type "directory") items ++ filter (has_type "file") items)%list.
Proof.
  set (tp := if nonempty subpath then join PROJECT_ROOT subpath else PROJECT_ROOT).
  unfold api_browse. fold tp.
  destruct (invalid_path subpath); [exists tp, []; reflexivity |].
  cbn [bind call run answer].
  destruct (negb (startswith (realpath os tp) (realpath os PROJECT_ROOT)));
    [exists tp, []; reflexivity |].
  cbn [bind call run answer].
  destruct (negb (path_exists os tp)); [exists tp, []; reflexivity |].
  cbn [bind call run answer].
  destruct (negb (isdir os tp)); [exists tp, []; reflexivity |].
  cbn [bind call run answer].
  destruct (listdir os tp) as [names | e].
  - rewrite run_bind.
    destruct (run os (browse_loop tp subpath (sorted names) [])) as [items | e] eqn:E.
    + apply browse_loop_returns in E. simpl in E. subst items.
      exists tp, names. reflexivity.
    + exists tp, []. destruct e; reflexivity.
  - exists tp, []. destruct e; reflexivity.
Qed.

Lemma names_of_kind (os : OS) (target_path subpath kind : string) (l : list string) :
  Forall (fun e => listed os target_path e = true) l ->
  map item_name (filter (has_type kind) (map (item_of os target_path subpath) l))
  = filter (fun e => has_type kind (item_of os target_path subpath e)) l.
Proof.
  intros H. rewrite filter_map_comm, map_map.
  induction H as [| e l He _ IH]; simpl; [reflexivity |].
  destruct (has_type kind (item_of os target_path subpath e)); simpl; [| exact IH].
  rewrite IH. now destruct (item_of_listed os target_path subpath e He) as [-> _].
Qed.

Lemma one_kind (os : OS) (target_path subpath e : string) :
  listed os target_path e = true ->
  has_type "directory" (item_of os target_path subpath e) = true ->
  has_type "file" (item_of os target_path subpath e) = true -> False.
Proof.
  intros He. destruct (item_of_listed os target_path subpath e He) as (_ & -> & ->).
  now destruct (isdir os (join target_path e)).
Qed.

(** C4.  The items of every listing [api_browse] returns are the directory
    entries followed by the file entries of one list sorted by name; each of
    the two parts is sorted by name; and whenever a directory entry and a
    file entry both occur, the directory entry has the smaller index.  A
    directory whose children are listed as [zeta.txt], [Alpha/], [beta.txt]
    is returned as [Alpha/], [beta.txt], [zeta.txt]. *)
Theorem browse_directories_first_sorted :
  (forall (os : OS) (subpath : string),
     exists all_items,
       StronglySorted str_le (map item_name all_items) /\
       let ds := filter (has_type "directory") all_items in
       let fs := filter (has_type "file") all_items in
       listing_items (run os (api_browse subpath)) = (ds ++ fs)%list /\
       StronglySorted str_le (map item_name ds) /\
       StronglySorted str_le (map item_name fs)) /\
  (forall (os : OS) (subpath : string) (i j : nat) (d f : json),
     nth_error (listing_items (run os (api_browse subpath))) i = Some d ->
     has_type "directory" d = true ->
     nth_error (listing_items (run os (api_browse subpath))) j = Some f ->
     has_type "file" f = true ->
     (i < j)%nat) /\
  listdir BrowseScenario.docs_host "/home/dragon/docs"
  = Returns ["zeta.txt"; "Alpha"; "beta.txt"] /\
  map (fun item => (item_name item, jget "type" item))
      (listing_items (run BrowseScenario.docs_host (api_browse "docs")))
  = [ ("Alpha", Some (JStr "directory"));
      ("beta.txt", Some (JStr "file"));
      ("zeta.txt", Some (JStr "file")) ].
Proof.
  split; [| split; [| split; reflexivity]].
  - intros os subpath.
    destruct (api_browse_items os subpath) as (tp & names & E). cbv zeta in E.
    set (l := filter (listed os tp) (sorted names)) in *.
    assert (Hl : Forall (fun e => listed os tp e = true) l).
    { apply Forall_forall. intros e He. now apply filter_In in He. }
    assert (Sl : StronglySorted str_le l).
    { apply StronglySorted_filter, sorted_is_sorted. }
    exists (map (item_of os tp subpath) l). cbv zeta. split; [| split; [exact E | split]].
    + rewrite map_map.
      assert (Em : map (fun e => item_name (item_of os tp subpath e)) l = l).
      { clear -Hl. induction Hl as [| e l He _ IH]; simpl; [reflexivity |].
        rewrite IH. now destruct (item_of_listed os tp subpath e He) as [-> _]. }
      now rewrite Em.
    + rewrite names_of_kind by exact Hl. now apply StronglySorted_filter.
    + rewrite names_of_kind by exact Hl. now apply StronglySorted_filter.
  - intros os subpath i j d f Hi Hd Hj Hf.
    destruct (api_browse_items os subpath) as (tp & names & E). cbv zeta in E.
    set (l := filter (listed os tp) (sorted names)) in *.
    assert (Hl : forall x, In x (map (item_of os tp subpath) l) ->
                 has_type "directory" x = true -> has_type "file" x = true -> False).
    { intros x Hx. apply in_map_iff in Hx as (e & <- & He).
      apply filter_In in He as [_ He]. now apply one_kind. }
    rewrite E in Hi, Hj.
    set (ds := filter (has_type "directory") (map (item_of os tp subpath) l)) in *.
    set (fs := filter (has_type "file") (map (item_of os tp subpath) l)) in *.
    destruct (Nat.lt_ge_cases i (List.length ds)) as [Li | Gi].
    + destruct (Nat.lt_ge_cases j (List.length ds)) as [Lj | Gj]; [| lia].
      exfalso. rewrite nth_error_app1 in Hj by exact Lj.
      apply nth_error_In in Hj. apply filter_In in Hj as [Hin Hdir].
      exact (Hl f Hin Hdir Hf).
    + exfalso. rewrite nth_error_app2 in Hi by exact Gi.
      apply nth_error_In in Hi. apply filter_In in Hi as [Hin Hfile].
      exact (Hl d Hin Hd Hfile).
Qed.

Lemma browse_directories_first_sorted_witness :
  nth_error (listing_items (run BrowseScenario.docs_host (api_browse "docs"))) 0
  = Some (JObj [ ("name", JStr "Alpha"); ("path", JStr "docs/Alpha");
                 ("type", JStr "directory"); ("size", JNull);
                 ("modified", JStr "2023-11-14 22:20:00") ]) /\
  nth_error (listing_items (run BrowseScenario.docs_host (api_browse "docs"))) 1
  = Some (JObj [ ("name", JStr "beta.txt"); ("path", JStr "docs/beta.txt");
                 ("type", JStr "file"); ("size", JInt 2);
                 ("modified", JStr "2023-11-14 22:21:40") ]) /\
  (0 < 1)%nat.
Proof.
  split; [reflexivity |]. split; [reflexivity |].
  exact (proj1 (proj2 browse_directories_first_sorted)
           BrowseScenario.docs_host "docs" 0%nat 1%nat _ _
           eq_refl eq_refl eq_refl eq_refl).
Defined.

(** ** FileReader: the checks and the size ceiling *)

Lemma api_read_file_checked (os : OS) (filepath : string) :
  read_checks os filepath = true ->
  run os (api_read_file filepath) = read_after_checks os filepath.
Proof.
  unfold read_checks, api_read_file, read_after_checks. cbv zeta. intros H.
  apply andb_true_iff in H as [H Hf]. apply andb_true_iff in H as [H He].
  apply andb_true_iff in H as [Hi Hs]. apply negb_true_iff in Hi.
  rewrite Hi. cbn [bind call run answer]. rewrite Hs. cbn [negb bind call run answer].
  rewrite He. cbn [negb bind call run answer]. rewrite Hf. cbn [negb bind call run answer].
  destruct (getsize os (join PROJECT_ROOT filepath)) as [n | e]; [| reflexivity].
  destruct (1024 * 1024 <? n); [reflexivity |].
  cbn [bind call run answer].
  destruct (read_bytes os (join PROJECT_ROOT filepath)) as [bs | e].
  - destruct (decode_utf8 bs) as [c | e]; [reflexivity | destruct e; reflexivity].
  - destruct e; reflexivity.
Qed.

Lemma api_read_file_unchecked (os : OS) (filepath : string) :
  read_checks os filepath = false ->
  snd (run os (api_read_file filepath)) = 400 \/
  snd (run os (api_read_file filepath)) = 403 \/
  snd (run os (api_read_file filepath)) = 404.
Proof.
  unfold read_checks, api_read_file. cbv zeta. intros H.
  destruct (invalid_path filepath); [now left |].
  cbn [bind call run answer].
  destruct (startswith (realpath os (join PROJECT_ROOT filepath)) (realpath os PROJECT_ROOT));
    [| right; now left].
  cbn [negb bind call run answer].
  destruct (path_exists os (join PROJECT_ROOT filepath)); [| right; now right].
  cbn [negb bind call run answer].
  destruct (isfile os (join PROJECT_ROOT filepath)); [discriminate H | now left].
Qed.

Lemma handler_except_status (e : exn) :
  snd (handler_except e) = 403 \/ snd (handler_except e) = 500.
Proof. destruct e; simpl; auto. Qed.

(** Rounding to a double leaves integers below 2^53 unchanged. *)
Lemma round_to_double_exact (n : Z) : 0 < n < 2 ^ 53 -> round_to_double n = n.
Proof.
  intros H. unfold round_to_double. cbv zeta.
  assert (Z.log2 n < 53) by (apply Z.log2_lt_pow2; lia).
  destruct (Z.leb_spec (Z.log2 n + 1) 53); [reflexivity | lia].
Qed.

(** The hundredths printed are the nearest to the exact quotient. *)
Lemma hundredths_nearest (n : Z) :
  0 < n < 2 ^ 53 -> 2 * Z.abs (100 * n - hundredths n * 2 ^ 20) <= 2 ^ 20.
Proof.
  intros H. unfold hundredths. cbv zeta. rewrite (round_to_double_exact n H).
  pose proof (Z.div_mod (n * 100) (2 ^ 20) ltac:(lia)) as D.
  pose proof (Z.mod_pos_bound (n * 100) (2 ^ 20) ltac:(lia)) as B.
  set (q := n * 100 / 2 ^ 20) in *. set (r := (n * 100) mod 2 ^ 20) in *.
  destruct (Z.ltb_spec (2 ^ 20) (2 * r)); cbn [orb].
  - lia.
  - destruct (Z.eqb_spec (2 * r) (2 ^ 20)); cbn [andb]; [destruct (Z.odd q) |]; lia.
Qed.

(** ** The sandbox test *)

(** What passing the test of the code gives: a prefix of characters. *)
Lemma read_checks_prefix (os : OS) (filepath : string) :
  read_checks os filepath = true ->
  startswith (realpath os (join PROJECT_ROOT filepath)) (realpath os PROJECT_ROOT) = true.
Proof.
  unfold read_checks. cbv zeta. intros H.
  apply andb_true_iff in H as [H _]. apply andb_true_iff in H as [H _].
  now apply andb_true_iff in H as [_ H].
Qed.

(** C1.  The sandbox test of both handlers is [startswith] on characters:
    on a host where [/home/dragon/link] resolves to
    [/home/dragonX/secret.txt] and [/home/dragon/peek] to [/home/dragonX],
    the canonical targets lie outside the canonical root [/home/dragon], yet
    [api_read_file] returns the content of the file and [api_browse] lists
    the directory, with status 200 instead of Access denied. *)
Theorem sandbox_accepts_sibling_of_root :
  realpath ReadScenario.sibling_host PROJECT_ROOT = "/home/dragon" /\
  realpath ReadScenario.sibling_host (join PROJECT_ROOT "link") = "/home/dragonX/secret.txt" /\
  realpath ReadScenario.sibling_host (join PROJECT_ROOT "peek") = "/home/dragonX" /\
  spec_under_root "/home/dragonX/secret.txt" "/home/dragon" = false /\
  spec_under_root "/home/dragonX" "/home/dragon" = false /\
  run ReadScenario.sibling_host (api_read_file "link")
  = (JObj [ ("name", JStr "link"); ("path", JStr "link");
            ("content", JStr "top secret"); ("size", JInt 10);
            ("type", JStr "text") ], 200) /\
  run ReadScenario.sibling_host (api_browse "peek")
  = (JObj [ ("current_path", JStr "peek");
            ("items", JArr [ JObj [ ("name", JStr "secret.txt");
                                    ("path", JStr "peek/secret.txt");
                                    ("type", JStr "file"); ("size", JInt 10);
                                    ("modified", JStr "2023-11-14 22:13:20") ] ]);
            ("parent_path", JStr "") ], 200).
Proof. repeat split. Qed.

(** ** Reading the printed size back *)

Lemma round_to_double_nonneg (n : Z) : 0 <= n -> 0 <= round_to_double n.
Proof.
  intros H. unfold round_to_double. cbv zeta.
  destruct (Z.log2 n + 1 <=? 53); [exact H |].
  apply Z.shiftl_nonneg.
  assert (0 <= Z.shiftr n (Z.log2 n + 1 - 53)) by now apply Z.shiftr_nonneg.
  destruct (_ || _); lia.
Qed.

Lemma hundredths_nonneg (n : Z) : 0 <= n -> 0 <= hundredths n.
Proof.
  intros H. unfold hundredths. cbv zeta.
  pose proof (round_to_double_nonneg n H) as R.
  assert (0 <= round_to_double n * 100 / 2 ^ 20) by (apply Z.div_pos; lia).
  destruct (_ || _); lia.
Qed.

Ltac read_digit :=
  cbn [NilEmpty.string_of_uint decimal_from Pos.of_uint_acc Pos.of_uint];
  match goal with
  | |- context [digit_value ?c] =>
      let v := eval vm_compute in (digit_value c) in
      change (digit_value c) with v
  end;
  cbv beta iota.

Lemma decimal_from_acc (u : Decimal.uint) (p : positive) :
  decimal_from (Zpos p) (NilEmpty.string_of_uint u) = Some (Zpos (Pos.of_uint_acc u p)).
Proof.
  revert p. induction u as [| u IH | u IH | u IH | u IH | u IH | u IH | u IH | u IH | u IH | u IH];
    intros p; [reflexivity | ..]; read_digit; rewrite <- IH; f_equal; lia.
Qed.

Lemma decimal_from_uint (u : Decimal.uint) :
  decimal_from 0 (NilEmpty.string_of_uint u) = Some (Z.of_N (N.of_uint u)).
Proof.
  unfold N.of_uint.
  induction u as [| u IH | u IH | u IH | u IH | u IH | u IH | u IH | u IH | u IH | u IH];
    [reflexivity | read_digit; exact IH | ..];
    read_digit; cbn [Z.of_N]; rewrite <- decimal_from_acc; reflexivity.
Qed.

Lemma decimal_value_uint (u : Decimal.uint) :
  decimal_value (NilZero.string_of_uint u) = Some (Z.of_N (N.of_uint u)).
Proof.
  destruct u; try reflexivity; unfold NilZero.string_of_uint;
    rewrite <- decimal_from_uint; reflexivity.
Qed.

(** The decimal rendering of a number that is not negative reads back as
    that number. *)
Lemma decimal_value_str_of_Z (n : Z) : 0 <= n -> decimal_value (str_of_Z n) = Some n.
Proof.
  intros H. unfold str_of_Z.
  now rewrite decimal_value_uint, DecimalN.Unsigned.of_to, Z2N.id.
Qed.

(** Below 100, [two_digits] prints two characters that read back as the
    number. *)
Lemma two_digits_reads_back (d : Z) :
  0 <= d < 100 ->
  String.length (two_digits d) = 2%nat /\ decimal_value (two_digits d) = Some d.
Proof.
  intros H.
  assert (A : forallb
                (fun d => (String.length (two_digits d) =? 2)%nat &&
                          match decimal_value (two_digits d) with
                          | Some v => v =? d
                          | None => false
                          end)
                (map Z.of_nat (seq 0 100)) = true) by (vm_compute; reflexivity).
  rewrite forallb_forall in A.
  assert (Hd : In d (map Z.of_nat (seq 0 100))).
  { apply in_map_iff. exists (Z.to_nat d). split; [lia | apply in_seq; lia]. }
  apply A in Hd. apply andb_true_iff in Hd as [A1 A2].
  split; [now apply Nat.eqb_eq |].
  destruct (decimal_value (two_digits d)) as [v |]; [| discriminate].
  apply Z.eqb_eq in A2. now subst.
Qed.

(** What [format_mb] prints is a numeral, a point and two digits, and they
    read back as the hundredths of the size. *)
Lemma format_mb_reads_back (n : Z) :
  0 <= n ->
  exists whole frac,
    format_mb n = whole ++ "." ++ frac /\
    String.length frac = 2%nat /\
    decimal_value whole = Some (hundredths n / 100) /\
    decimal_value frac = Some (hundredths n mod 100).
Proof.
  intros H. pose proof (hundredths_nonneg n H) as Hh.
  exists (str_of_Z (hundredths n / 100)), (two_digits (hundredths n mod 100)).
  split; [reflexivity |].
  destruct (two_digits_reads_back (hundredths n mod 100)) as [L V];
    [apply Z.mod_pos_bound; lia |].
  split; [exact L |]. split; [| exact V].
  apply decimal_value_str_of_Z. apply Z.div_pos; lia.
Qed.

(** C5.  [api_read_file] answers with status 413 exactly when the request
    passes the path, existence and kind checks and the size read for the
    file is above 1,048,576 bytes; the body then carries
    [File size: X.YZMB. Maximum: 1MB] where [X.YZ] is the size divided by
    2^20, printed with two decimals: a numeral, a point and exactly two
    digits, which read back as the whole part and the hundredths of a
    number of hundredths that, for sizes below 2^53, is the nearest to the
    exact quotient.  A file of 2,097,152 bytes gives [2.00MB], one of
    1,572,864 bytes [1.50MB], one of 1,048,577 bytes [1.00MB] and one of
    1,121,976 bytes [1.07MB]. *)
Theorem too_large_exactly_above_one_mebibyte :
  (forall (os : OS) (filepath : string),
     snd (run os (api_read_file filepath)) = 413 <->
     read_checks os filepath = true /\
     exists n, getsize os (join PROJECT_ROOT filepath) = Returns n /\ 1048576 < n) /\
  (forall (os : OS) (filepath : string) (n : Z),
     read_checks os filepath = true ->
     getsize os (join PROJECT_ROOT filepath) = Returns n ->
     1048576 < n ->
     run os (api_read_file filepath)
     = (JObj [ ("error", JStr "File too large");
               ("message", JStr ("File size: " ++ format_mb n ++ "MB. Maximum: 1MB")) ],
        413) /\
     format_mb n
     = str_of_Z (hundredths n / 100) ++ "." ++ two_digits (hundredths n mod 100) /\
     (exists whole frac,
        format_mb n = whole ++ "." ++ frac /\
        String.length frac = 2%nat /\
        decimal_value whole = Some (hundredths n / 100) /\
        decimal_value frac = Some (hundredths n mod 100)) /\
     (n < 2 ^ 53 -> 2 * Z.abs (100 * n - hundredths n * 2 ^ 20) <= 2 ^ 20)) /\
  getsize ReadScenario.files_host (join PROJECT_ROOT "big.log") = Returns 2097152 /\
  run ReadScenario.files_host (api_read_file "big.log")
  = (JObj [ ("error", JStr "File too large");
            ("message", JStr "File size: 2.00MB. Maximum: 1MB") ], 413) /\
  (format_mb 1572864 = "1.50" /\ format_mb 1179648 = "1.12" /\
   format_mb 1048577 = "1.00" /\ format_mb 1121976 = "1.07" /\
   format_mb 1053819 = "1.01" /\ format_mb 11010048 = "10.50" /\
   format_mb 123456789 = "117.74" /\ format_mb 1073741824 = "1024.00" /\
   format_mb 100000000000000001 = "95367431640.62") /\
  run SizesScenario.sizes_host (api_read_file "half.bin")
  = (JObj [ ("error", JStr "File too large");
            ("message", JStr "File size: 1.50MB. Maximum: 1MB") ], 413) /\
  run SizesScenario.sizes_host (api_read_file "edge.bin")
  = (JObj [ ("error", JStr "File too large");
            ("message", JStr "File size: 1.00MB. Maximum: 1MB") ], 413) /\
  run SizesScenario.sizes_host (api_read_file "odd.bin")
  = (JObj [ ("error", JStr "File too large");
            ("message", JStr "File size: 1.07MB. Maximum: 1MB") ], 413).
Proof.
  split; [| split; [| repeat split; reflexivity]].
  - intros os filepath. split.
    + intros H. destruct (read_checks os filepath) eqn:C.
      * split; [reflexivity |].
        rewrite (api_read_file_checked _ _ C) in H. unfold read_after_checks in H.
        cbv zeta in H.
        destruct (getsize os (join PROJECT_ROOT filepath)) as [n | e].
        -- exists n. split; [reflexivity |].
           destruct (Z.ltb_spec (1024 * 1024) n) as [L | G]; [lia |].
           exfalso.
           destruct (read_bytes os (join PROJECT_ROOT filepath)) as [bs | e].
           ++ destruct (decode_utf8 bs) as [c | e]; [discriminate H |].
              destruct e; try discriminate H.
           ++ destruct e; discriminate H.
        -- destruct (handler_except_status e) as [E | E]; rewrite E in H; discriminate H.
      * destruct (api_read_file_unchecked _ _ C) as [E | [E | E]];
          rewrite E in H; discriminate H.
    + intros (C & n & Hn & L).
      rewrite (api_read_file_checked _ _ C). unfold read_after_checks. cbv zeta.
      rewrite Hn. destruct (Z.ltb_spec (1024 * 1024) n); [reflexivity | lia].
  - intros os filepath n C Hn L. split; [| split; [| split]].
    + rewrite (api_read_file_checked _ _ C). unfold read_after_checks. cbv zeta.
      rewrite Hn. destruct (Z.ltb_spec (1024 * 1024) n); [reflexivity | lia].
    + reflexivity.
    + apply format_mb_reads_back. lia.
    + intros U. apply hundredths_nearest. lia.
Qed.

Lemma too_large_exactly_above_one_mebibyte_witness :
  read_checks SizesScenario.sizes_host "half.bin" = true /\
  getsize SizesScenario.sizes_host (join PROJECT_ROOT "half.bin") = Returns 1572864 /\
  1048576 < 1572864 /\
  run SizesScenario.sizes_host (api_read_file "half.bin")
  = (JObj [ ("error", JStr "File too large");
            ("message", JStr ("File size: " ++ format_mb 1572864 ++ "MB. Maximum: 1MB")) ],
     413) /\
  exists whole frac,
    format_mb 1572864 = whole ++ "." ++ frac /\
    String.length frac = 2%nat /\
    decimal_value whole = Some (hundredths 1572864 / 100) /\
    decimal_value frac = Some (hundredths 1572864 mod 100).
Proof.
  split; [reflexivity |]. split; [reflexivity |]. split; [lia |].
  destruct (proj1 (proj2 too_large_exactly_above_one_mebibyte)
              SizesScenario.sizes_host "half.bin" 1572864)
    as (R & _ & D & _); [reflexivity | reflexivity | lia |].
  split; [exact R | exact D].
Defined.

(** C6.  Once a request has passed the checks and the file is within the
    size ceiling, the bytes read decide the answer.  Bytes that are not
    well-formed UTF-8 give status 415 with the error [Binary file], the
    name, path and size of the file, the type [binary] and no [content]
    field: an answer of its own, neither the 500 of the catch-all clause nor
    the 403 of a permission error.  Well-formed bytes give status 200 with
    the whole decoded text (line ends read in universal-newlines mode) as
    one string and the type [text].  The name is what follows the last
    separator of the requested path: the path is a directory part, empty or
    ending in a separator, followed by the name, which holds no separator;
    so [docs/beta.bin] is reported under the name [beta.bin] and
    [docs/img/logo.png] under [logo.png], each with the whole relative path
    as [path]. *)
Theorem binary_files_get_their_own_outcome :
  (forall (os : OS) (filepath : string) (n : Z) (bs : list byte),
     read_checks os filepath = true ->
     getsize os (join PROJECT_ROOT filepath) = Returns n ->
     n <= 1048576 ->
     read_bytes os (join PROJECT_ROOT filepath) = Returns bs ->
     let r := run os (api_read_file filepath) in
     (utf8_wf (map Byte.to_N bs) = false ->
        snd r = 415 /\
        jget "name" (fst r) = Some (JStr (basename filepath)) /\
        jget "path" (fst r) = Some (JStr filepath) /\
        jget "size" (fst r) = Some (JInt n) /\
        jget "type" (fst r) = Some (JStr "binary") /\
        jget "error" (fst r) = Some (JStr "Binary file") /\
        jget "content" (fst r) = None /\
        jkeys (fst r) = ["error"; "message"; "name"; "path"; "size"; "type"]) /\
     (utf8_wf (map Byte.to_N bs) = true ->
        r = (JObj [ ("name", JStr (basename filepath)); ("path", JStr filepath);
                    ("content", JStr (universal_newlines (string_of_list_byte bs)));
                    ("size", JInt n); ("type", JStr "text") ], 200))) /\
  (forall filepath : string,
     exists dir,
       filepath = dir ++ basename filepath /\
       contains "/" (basename filepath) = false /\
       (dir = "" \/ endswith_sep dir = true)) /\
  run ReadScenario.files_host (api_read_file "blob.bin")
  = (JObj [ ("error", JStr "Binary file");
            ("message", JStr "Cannot display binary files");
            ("name", JStr "blob.bin"); ("path", JStr "blob.bin");
            ("size", JInt 4); ("type", JStr "binary") ], 415) /\
  run ReadScenario.files_host (api_read_file "notes.txt")
  = (JObj [ ("name", JStr "notes.txt"); ("path", JStr "notes.txt");
            ("content",
             JStr (String "h" (String "i" (String "010"
                    (String "195" (String "169" (String "010" "!")))))));
            ("size", JInt 9); ("type", JStr "text") ], 200) /\
  run NestedScenario.nested_host (api_read_file "docs/beta.bin")
  = (JObj [ ("error", JStr "Binary file");
            ("message", JStr "Cannot display binary files");
            ("name", JStr "beta.bin"); ("path", JStr "docs/beta.bin");
            ("size", JInt 3); ("type", JStr "binary") ], 415) /\
  run NestedScenario.nested_host (api_read_file "docs/img/logo.png")
  = (JObj [ ("error", JStr "Binary file");
            ("message", JStr "Cannot display binary files");
            ("name", JStr "logo.png"); ("path", JStr "docs/img/logo.png");
            ("size", JInt 4); ("type", JStr "binary") ], 415) /\
  run NestedScenario.nested_host (api_read_file "docs/readme.txt")
  = (JObj [ ("name", JStr "readme.txt"); ("path", JStr "docs/readme.txt");
            ("content", JStr "hello"); ("size", JInt 5); ("type", JStr "text") ], 200).
Proof.
  split; [| split; [exact basename_splits | repeat split; reflexivity]].
  intros os filepath n bs C Hn L Hb r. subst r.
  rewrite (api_read_file_checked _ _ C). unfold read_after_checks. cbv zeta.
  rewrite Hn, Hb. destruct (Z.ltb_spec (1024 * 1024) n) as [G | _]; [lia |].
  unfold decode_utf8. split; intros ->; [repeat split | reflexivity].
Qed.

Lemma binary_files_get_their_own_outcome_witness :
  read_checks NestedScenario.nested_host "docs/beta.bin" = true /\
  getsize NestedScenario.nested_host (join PROJECT_ROOT "docs/beta.bin") = Returns 3 /\
  3 <= 1048576 /\
  read_bytes NestedScenario.nested_host (join PROJECT_ROOT "docs/beta.bin")
  = Returns [xc3; x28; xff] /\
  utf8_wf (map Byte.to_N [xc3; x28; xff]) = false /\
  basename "docs/beta.bin" = "beta.bin" /\
  snd (run NestedScenario.nested_host (api_read_file "docs/beta.bin")) = 415 /\
  jget "name" (fst (run NestedScenario.nested_host (api_read_file "docs/beta.bin")))
  = Some (JStr (basename "docs/beta.bin")) /\
  jget "content" (fst (run NestedScenario.nested_host (api_read_file "docs/beta.bin")))
  = None.
Proof.
  split; [reflexivity |]. split; [reflexivity |]. split; [lia |].
  split; [reflexivity |]. split; [reflexivity |]. split; [reflexivity |].
  pose proof (proj1 (proj1 binary_files_get_their_own_outcome
                NestedScenario.nested_host "docs/beta.bin" 3 [xc3; x28; xff]
                eq_refl eq_refl ltac:(lia) eq_refl) eq_refl) as H.
  split; [exact (proj1 H) |]. split; [exact (proj1 (proj2 H)) |].
  exact (proj1 (proj2 (proj2 (proj2 (proj2 (proj2 (proj2 H))))))).
Defined.

(** ** ProjectRegistry *)

Lemma project_loop_run (os : OS) type status_of items :
  forall projects,
    run os (project_loop type status_of items projects)
    = (projects ++ map (project_entry os type status_of)
                       (filter (fun item => exists_under_root os (fst item)) items))%list.
Proof.
  induction items as [| [dirname description] rest IH]; intros projects.
  - simpl. now rewrite app_nil_r.
  - cbn [project_loop bind call run answer filter fst]. unfold exists_under_root at 1.
    destruct (path_exists os (join PROJECT_ROOT dirname)).
    + rewrite !run_bind, IH, <- app_assoc. reflexivity.
    + apply IH.
Qed.

Lemma project_entries_names (os : OS) type status_of items :
  map item_name (map (project_entry os type status_of)
                     (filter (fun item => exists_under_root os (fst item)) items))
  = filter (exists_under_root os) (map fst items).
Proof.
  induction items as [| [dirname description] rest IH]; simpl; [reflexivity |].
  destruct (exists_under_root os dirname); simpl; now rewrite IH.
Qed.

(** C7.  [get_projects] always returns a list: the entries of the
    project-category names whose path exists under the root, in configured
    order, followed by the entries of the tooling-category names whose path
    exists under the root, in configured order; a name whose path does not
    exist contributes nothing.  Existence is that of the path, as
    [os.path.exists] answers it, whatever kind of file it leads to. *)
Theorem get_projects_existing_in_configured_order :
  (forall os : OS,
     exists ps ts,
       run os get_projects = (ps ++ ts)%list /\
       map item_name ps = filter (exists_under_root os) (map fst main_projects) /\
       Forall (fun p => has_type "project" p = true) ps /\
       map item_name ts = filter (exists_under_root os) (map fst tooling_areas) /\
       Forall (fun p => has_type "tooling" p = true) ts) /\
  map fst main_projects = ["threat-intel-aggregator"; "trading"; "fishtracker"; "sectop"] /\
  map fst tooling_areas = ["claude-git-control"; "claude-backups"; "project-dashboard"] /\
  map (fun p => (item_name p, jget "type" p, jget "files_count" p, jget "last_modified" p))
      (run RegistryScenario.some_host get_projects)
  = [ ("trading", Some (JStr "project"), Some (JInt 3), Some (JStr "2023-11-14 22:28"));
      ("sectop", Some (JStr "project"), Some (JInt 0), Some (JStr "Unknown"));
      ("project-dashboard", Some (JStr "tooling"), Some (JInt 1),
       Some (JStr "2023-11-14 23:13")) ].
Proof.
  split; [| repeat split].
  intros os.
  exists (map (project_entry os "project" get_project_status)
              (filter (fun item => exists_under_root os (fst item)) main_projects)),
         (map (project_entry os "tooling" (fun _ => Ret "active"))
              (filter (fun item => exists_under_root os (fst item)) tooling_areas)).
  split.
  { unfold get_projects. rewrite run_bind, !project_loop_run. reflexivity. }
  rewrite !project_entries_names. repeat split.
  - apply Forall_forall. intros p Hp. apply in_map_iff in Hp as (item & <- & _). reflexivity.
  - apply Forall_forall. intros p Hp. apply in_map_iff in Hp as (item & <- & _). reflexivity.
Qed.

(** C7, counterexample to the wording with directories.  On a host where
    [/home/dragon/trading] is a regular file, the path exists and is not a
    directory, yet [get_projects] returns an entry for [trading], with no
    file counted and no modification time: not every entry stands for a
    directory that exists under the root. *)
Lemma get_projects_lists_a_regular_file :
  path_exists RegularFileScenario.plain_file_host (join PROJECT_ROOT "trading") = true /\
  isfile RegularFileScenario.plain_file_host (join PROJECT_ROOT "trading") = true /\
  isdir RegularFileScenario.plain_file_host (join PROJECT_ROOT "trading") = false /\
  run RegularFileScenario.plain_file_host get_projects
  = [ JObj [ ("name", JStr "trading");
             ("description", JStr "Freqtrade Trading Bot and Strategies");
             ("type", JStr "project");
             ("path", JStr "trading");
             ("files_count", JInt 0);
             ("last_modified", JStr "Unknown");
             ("status", JStr "active") ] ] /\
  ~ entries_are_directories RegularFileScenario.plain_file_host.
Proof.
  split; [reflexivity |]. split; [reflexivity |]. split; [reflexivity |].
  split; [reflexivity |].
  intros H. specialize (H "trading" (or_introl eq_refl)). discriminate H.
Qed.

(** ** Determinism *)

(** A run consults the host only through the calls of its trace: two states
    that answer those calls alike give the same result. *)
Lemma run_depends_on_trace {A : Type} (os os' : OS) (m : prog A) :
  Forall (agree_on os os') (trace os m) -> run os m = run os' m.
Proof.
  induction m as [a | X c k IH]; intros H; simpl in *; [reflexivity |].
  inversion H as [| ev evs Hc Hrest]; subst. simpl in Hc.
  rewrite <- Hc. now apply IH.
Qed.

(** Two sorted lists with the same elements are the same list. *)
Lemma sorted_lists_unique (l1 l2 : list string) :
  StronglySorted str_le l1 -> StronglySorted str_le l2 -> Permutation l1 l2 -> l1 = l2.
Proof.
  intros S1. revert l2. induction S1 as [| a l1 S1 IH Ha]; intros l2 S2 P.
  - apply Permutation_nil in P. now subst.
  - destruct S2 as [| b l2 S2 Hb]; [apply Permutation_sym, Permutation_nil in P; discriminate |].
    assert (E : a = b).
    { assert (Hab : str_le a b).
      { assert (In b (a :: l1)) as [-> | Hin]
          by (eapply Permutation_in; [apply Permutation_sym, P | now left]).
        - destruct (StrOrder.leb_total b b) as [H | H]; exact H.
        - rewrite Forall_forall in Ha. now apply Ha. }
      assert (Hba : str_le b a).
      { assert (In a (b :: l2)) as [-> | Hin]
          by (eapply Permutation_in; [apply P | now left]).
        - exact Hab.
        - rewrite Forall_forall in Hb. now apply Hb. }
      now apply String.leb_antisym. }
    subst b. f_equal. apply IH; [exact S2 |]. now apply Permutation_cons_inv in P.
Qed.

(** [sorted] forgets the order of its argument. *)
Lemma sorted_permutation (l l' : list string) :
  Permutation l l' -> sorted l = sorted l'.
Proof.
  intros P. apply sorted_lists_unique; try apply sorted_is_sorted.
  unfold sorted.
  eapply Permutation_trans; [apply Permutation_sym, StrSort.Permuted_sort |].
  eapply Permutation_trans; [exact P | apply StrSort.Permuted_sort].
Qed.

Lemma order_insensitive_bind {A B : Type} (m : prog A) (f : A -> prog B) :
  order_insensitive m -> (forall a, order_insensitive (f a)) ->
  order_insensitive (x <- m ;; f x).
Proof.
  intros Hm Hf. induction m as [a | X c k IH]; [apply Hf |].
  destruct Hm as [Hk Hc]. cbn [bind order_insensitive]. split.
  - intros x. now apply IH.
  - destruct c; try exact I. intros l l' P. cbv beta. now rewrite (Hc l l' P).
Qed.

Lemma browse_loop_order_insensitive (target_path subpath : string)
    (entries : list string) (items : list json) :
  order_insensitive (browse_loop target_path subpath entries items).
Proof.
  revert items. induction entries as [| entry rest IH]; intros items; [exact I |].
  cbn [browse_loop]. destruct (hidden_entry entry); [apply IH |].
  cbn [bind call order_insensitive]. split; [| exact I].
  intros [st | e]; [| destruct e; try apply IH; exact I].
  split; [| exact I]. intros is_dir. split; [| exact I].
  intros [modified | e]; [apply IH | destruct e; try apply IH; exact I].
Qed.

(** The handler looks at a directory listing through [sorted] only. *)
Lemma api_browse_order_insensitive (subpath : string) :
  order_insensitive (api_browse subpath).
Proof.
  unfold api_browse. destruct (invalid_path subpath); [exact I |].
  cbv zeta. cbn [bind call order_insensitive].
  split; [| exact I]. intros real_target. split; [| exact I]. intros real_root.
  destruct (negb (startswith real_target real_root)); [exact I |].
  cbn [bind call order_insensitive]. split; [| exact I]. intros e.
  destruct (negb e); [exact I |].
  cbn [bind call order_insensitive]. split; [| exact I]. intros d.
  destruct (negb d); [exact I |].
  cbn [bind call order_insensitive]. split.
  - intros [names | err]; [| exact I].
    apply order_insensitive_bind; [apply browse_loop_order_insensitive |].
    intros [items | err]; exact I.
  - intros l l' P. now rewrite (sorted_permutation l l' P).
Qed.

(** A program that does not depend on the order of listings gives the same
    result on two states that answer its calls alike up to that order. *)
Lemma run_up_to_order {A : Type} (os os' : OS) (m : prog A) :
  order_insensitive m ->
  Forall (agree_up_to_order os os') (trace os m) -> run os m = run os' m.
Proof.
  induction m as [a | X c k IH]; intros Hm H; [reflexivity |].
  destruct Hm as [Hk Hc]. cbn [trace] in H.
  inversion H as [| ev evs Hev Hrest]; subst. cbn [run].
  rewrite (IH _ (Hk _) Hrest). clear IH H Hrest.
  destruct c; cbn [agree_up_to_order answer] in Hev |- *; try now rewrite Hev.
  unfold same_up_to_order in Hev.
  destruct (listdir os p) as [l | e], (listdir os' p) as [l' | e'];
    try contradiction; [now rewrite (Hc l l' Hev) | now subst].
Qed.

(** C8.  Two invocations of [api_browse] with the same path, one after the
    other on the same state of the host, return the same response; and the
    response is determined by the answers the host gives to the calls the
    handler makes: a second state that answers those calls alike yields the
    identical listing, also when the directory hands out the same names in
    another order, so the order of the entries does not depend on the order
    in which the system lists them.  A directory listed as [zeta.txt],
    [Alpha], [beta.txt] on one host and as [beta.txt], [zeta.txt], [Alpha]
    on another gives the same response on both. *)
Theorem api_browse_deterministic :
  (forall (os : OS) (subpath : string),
     run os (r1 <- api_browse subpath ;; r2 <- api_browse subpath ;; Ret (r1, r2))
     = (run os (api_browse subpath), run os (api_browse subpath))) /\
  (forall (os os' : OS) (subpath : string),
     Forall (agree_on os os') (trace os (api_browse subpath)) ->
     run os (api_browse subpath) = run os' (api_browse subpath)) /\
  (forall (os os' : OS) (subpath : string),
     Forall (agree_up_to_order os os') (trace os (api_browse subpath)) ->
     run os (api_browse subpath) = run os' (api_browse subpath)) /\
  listdir BrowseScenario.docs_host "/home/dragon/docs"
  = Returns ["zeta.txt"; "Alpha"; "beta.txt"] /\
  listdir ShuffledScenario.shuffled_host "/home/dragon/docs"
  = Returns ["beta.txt"; "zeta.txt"; "Alpha"] /\
  run ShuffledScenario.shuffled_host (api_browse "docs")
  = run BrowseScenario.docs_host (api_browse "docs") /\
  map item_name (listing_items (run ShuffledScenario.shuffled_host (api_browse "docs")))
  = ["Alpha"; "beta.txt"; "zeta.txt"].
Proof.
  split; [| split; [| split; [| repeat split; reflexivity]]].
  - intros os subpath. now rewrite !run_bind.
  - intros os os' subpath. apply run_depends_on_trace.
  - intros os os' subpath. apply run_up_to_order, api_browse_order_insensitive.
Qed.

Lemma api_browse_deterministic_witness :
  (Forall (agree_on BrowseScenario.docs_host DeterminismScenario.changed_host)
          (trace BrowseScenario.docs_host (api_browse "docs")) /\
   run BrowseScenario.docs_host (api_browse "docs")
   = run DeterminismScenario.changed_host (api_browse "docs")) /\
  (Forall (agree_up_to_order BrowseScenario.docs_host ShuffledScenario.shuffled_host)
          (trace BrowseScenario.docs_host (api_browse "docs")) /\
   ~ Forall (agree_on BrowseScenario.docs_host ShuffledScenario.shuffled_host)
            (trace BrowseScenario.docs_host (api_browse "docs")) /\
   run BrowseScenario.docs_host (api_browse "docs")
   = run ShuffledScenario.shuffled_host (api_browse "docs")).
Proof.
  split.
  - assert (H : Forall (agree_on BrowseScenario.docs_host DeterminismScenario.changed_host)
                       (trace BrowseScenario.docs_host (api_browse "docs"))).
    { repeat (constructor; [reflexivity |]). constructor. }
    split; [exact H |].
    exact (proj1 (proj2 api_browse_deterministic)
             BrowseScenario.docs_host DeterminismScenario.changed_host "docs" H).
  - assert (H : Forall (agree_up_to_order BrowseScenario.docs_host
                          ShuffledScenario.shuffled_host)
                       (trace BrowseScenario.docs_host (api_browse "docs"))).
    { do 4 (constructor; [reflexivity |]).
      constructor;
        [exact (Permutation_sym (Permutation_cons_append ["zeta.txt"; "Alpha"] "beta.txt")) |].
      repeat (constructor; [reflexivity |]). constructor. }
    split; [exact H |]. split.
    + intros F. do 4 (inversion F as [| ? ? _ F']; subst; clear F; rename F' into F).
      inversion F as [| ? ? E _]; subst. discriminate E.
    + exact (proj1 (proj2 (proj2 api_browse_deterministic))
               BrowseScenario.docs_host ShuffledScenario.shuffled_host "docs" H).
Defined.

(** ** Hidden files: counted, not listed *)





(** * Further properties *)

(** ** The login gate *)

Lemma run_login_required (os : OS) (f : prog reply) (s : session) :
  run os (login_required f s)
  = if has_key "logged_in" s then (run os f, s) else (Redirect "login", s).
Proof.
  unfold login_required. destruct (has_key "logged_in" s); simpl; [| reflexivity].
  now rewrite run_bind.
Qed.

Lemma trace_login_required (os : OS) (f : prog reply) (s : session) :
  trace os (login_required f s) = if has_key "logged_in" s then trace os f else [].
Proof.
  unfold login_required. destruct (has_key "logged_in" s); simpl; [| reflexivity].
  rewrite trace_bind. simpl. now rewrite app_nil_r.
Qed.

Lemma dispatch_protected (cred : credentials) (r : route) :
  protected r = true -> dispatch cred r = login_required (body_of r).
Proof. destruct r; intros H; try discriminate H; reflexivity. Qed.

Lemma gate_closed (cred : credentials) (os : OS) (r : route) (s : session) :
  protected r = true -> has_key "logged_in" s = false ->
  run os (dispatch cred r s) = (Redirect "login", s) /\
  trace os (dispatch cred r s) = [].
Proof.
  intros Hp Hk. rewrite (dispatch_protected cred r Hp).
  now rewrite run_login_required, trace_login_required, Hk.
Qed.

Lemma gate_open (cred : credentials) (os : OS) (r : route) (s : session) :
  protected r = true -> has_key "logged_in" s = true ->
  run os (dispatch cred r s) = (run os (body_of r), s) /\
  trace os (dispatch cred r s) = trace os (body_of r).
Proof.
  intros Hp Hk. rewrite (dispatch_protected cred r Hp).
  now rewrite run_login_required, trace_login_required, Hk.
Qed.

(** X1.  A request to any route behind [@login_required] whose session has
    no [logged_in] key is answered by a redirect to the login page, leaves
    the session as it is and makes no call to the operating system; with
    the key present the reply is that of the undecorated view, the calls
    are those of the view, and the session is again unchanged. *)
Theorem login_gate (cred : credentials) (os : OS) (r : route) (s : session) :
  protected r = true ->
  (has_key "logged_in" s = false ->
     run os (dispatch cred r s) = (Redirect "login", s) /\
     trace os (dispatch cred r s) = []) /\
  (has_key "logged_in" s = true ->
     run os (dispatch cred r s) = (run os (body_of r), s) /\
     trace os (dispatch cred r s) = trace os (body_of r)).
Proof.
  intros Hp. split; intros Hk; [now apply gate_closed | now apply gate_open].
Qed.

Lemma login_gate_witness :
  protected (RApiFile "notes.txt") = true /\
  has_key "logged_in" [] = false /\
  run ReadScenario.files_host (dispatch (credentials_of []) (RApiFile "notes.txt") [])
  = (Redirect "login", []) /\
  trace ReadScenario.files_host (dispatch (credentials_of []) (RApiFile "notes.txt") [])
  = [].
Proof.
  split; [reflexivity |]. split; [reflexivity |].
  exact (proj1 (login_gate (credentials_of []) ReadScenario.files_host
                  (RApiFile "notes.txt") [] eq_refl) eq_refl).
Defined.

Lemma equals_true (given : option string) (expected : string) :
  equals given expected = true -> given = Some expected.
Proof.
  destruct given as [g |]; simpl; [| discriminate].
  intros H. apply String.eqb_eq in H. now subst.
Qed.

Lemma run_login (cred : credentials) (os : OS) (req : request) (s : session) :
  run os (login cred req s)
  = if good_login cred req
    then (Redirect "index",
          dict_set "username" (SStr (DASHBOARD_USER cred))
            (dict_set "logged_in" (SBool true) s))
    else (Rendered "login.html"
            (if String.eqb (method req) "POST"
             then [("error", "Invalid credentials")] else []), s).
Proof.
  unfold login, good_login. destruct (String.eqb (method req) "POST"); [| reflexivity].
  cbn [andb].
  destruct (equals (dict_get "username" (form req)) (DASHBOARD_USER cred)) eqn:Eu;
    [| reflexivity].
  cbn [andb].
  destruct (equals (dict_get "password" (form req)) (DASHBOARD_PASS cred));
    [| reflexivity].
  now rewrite (equals_true _ _ Eu).
Qed.

Lemma has_key_dict_set (key k : string) (v : sval) (d : session) :
  has_key key (dict_set k v d) = String.eqb k key || has_key key d.
Proof.
  induction d as [| [k' x] d IH]; simpl.
  - reflexivity.
  - destruct (String.eqb_spec k' k) as [-> | N]; simpl.
    + now destruct (String.eqb k key).
    + rewrite IH. destruct (String.eqb k' key), (String.eqb k key); reflexivity.
Qed.

(** X2.  [login] opens a session exactly for a POST whose form carries the
    configured user name and password: the reply is then a redirect to the
    dashboard and the session holds [logged_in] and the user name.  Any
    other request (another method, a missing field, a wrong value) is
    answered with the login page and leaves the session exactly as it was,
    so a failed attempt neither grants nor withdraws access.  No call to the
    operating system is made either way. *)
Theorem login_opens_session_on_matching_credentials
    (cred : credentials) (os : OS) (req : request) (s : session) :
  (good_login cred req = true ->
     run os (login cred req s)
     = (Redirect "index",
        dict_set "username" (SStr (DASHBOARD_USER cred))
          (dict_set "logged_in" (SBool true) s)) /\
     has_key "logged_in" (snd (run os (login cred req s))) = true /\
     has_key "username" (snd (run os (login cred req s))) = true) /\
  (good_login cred req = false ->
     snd (run os (login cred req s)) = s /\
     exists context, fst (run os (login cred req s)) = Rendered "login.html" context) /\
  (fst (run os (login cred req s)) = Redirect "index" <-> good_login cred req = true) /\
  trace os (login cred req s) = [].
Proof.
  rewrite run_login. split; [| split; [| split]].
  - intros ->. cbn [snd]. rewrite !has_key_dict_set. repeat split.
  - intros ->. split; [reflexivity | eexists; reflexivity].
  - destruct (good_login cred req); split; intros H; try reflexivity; discriminate H.
  - unfold login. destruct (String.eqb (method req) "POST"); [| reflexivity].
    destruct (equals _ _ && equals _ _); reflexivity.
Qed.

Lemma login_opens_session_on_matching_credentials_witness :
  good_login (credentials_of [("DASHBOARD_PASS", "s3cret")])
    {| method := "POST"; form := [("username", "dragon"); ("password", "s3cret")] |} = true /\
  good_login (credentials_of [("DASHBOARD_PASS", "s3cret")])
    {| method := "POST"; form := [("username", "dragon"); ("password", "dragon123")] |} = false /\
  run ReadScenario.files_host
    (login (credentials_of [("DASHBOARD_PASS", "s3cret")])
       {| method := "POST"; form := [("username", "dragon"); ("password", "s3cret")] |} [])
  = (Redirect "index", [("logged_in", SBool true); ("username", SStr "dragon")]) /\
  snd (run ReadScenario.files_host
         (login (credentials_of [("DASHBOARD_PASS", "s3cret")])
            {| method := "POST";
               form := [("username", "dragon"); ("password", "dragon123")] |}
            [("logged_in", SBool true); ("username", SStr "dragon")]))
  = [("logged_in", SBool true); ("username", SStr "dragon")].
Proof.
  split; [reflexivity |]. split; [reflexivity |]. split.
  - exact (proj1 (proj1 (login_opens_session_on_matching_credentials
             (credentials_of [("DASHBOARD_PASS", "s3cret")]) ReadScenario.files_host
             {| method := "POST"; form := [("username", "dragon"); ("password", "s3cret")] |}
             []) eq_refl)).
  - exact (proj1 (proj1 (proj2 (login_opens_session_on_matching_credentials
             (credentials_of [("DASHBOARD_PASS", "s3cret")]) ReadScenario.files_host
             {| method := "POST";
                form := [("username", "dragon"); ("password", "dragon123")] |}
             [("logged_in", SBool true); ("username", SStr "dragon")])) eq_refl)).
Defined.

(** ** Sequences of requests *)

Lemma serve_app (cred : credentials) (os : OS) (a b : list route) (s : session) :
  serve cred os (a ++ b) s = serve cred os b (serve cred os a s).
Proof. revert s; induction a as [| r a IH]; intros s; simpl; [reflexivity | apply IH]. Qed.

Lemma session_after_protected (cred : credentials) (os : OS) (r : route) (s : session) :
  protected r = true -> snd (run os (dispatch cred r s)) = s.
Proof.
  intros Hp. rewrite (dispatch_protected cred r Hp), run_login_required.
  now destruct (has_key "logged_in" s).
Qed.

(** The session one request leaves. *)
Lemma session_after (cred : credentials) (os : OS) (r : route) (s : session) :
  snd (run os (dispatch cred r s))
  = match r with
    | RLogout => []
    | RLogin req =>
        if good_login cred req
        then dict_set "username" (SStr (DASHBOARD_USER cred))
               (dict_set "logged_in" (SBool true) s)
        else s
    | _ => s
    end.
Proof.
  destruct r; try (now apply session_after_protected); cbn [dispatch].
  - rewrite run_login. now destruct (good_login cred req).
  - reflexivity.
Qed.

(** X3.  [logout] empties the session whatever it held, so that the next
    request to any protected route, on any state of the host, is redirected
    to the login page without a call to the operating system. *)
Theorem logout_revokes_access
    (cred : credentials) (os : OS) (r : route) (s : session) :
  protected r = true ->
  run os (logout s) = (Redirect "login", []) /\
  run os (dispatch cred r (snd (run os (dispatch cred RLogout s)))) = (Redirect "login", []) /\
  trace os (dispatch cred r (snd (run os (dispatch cred RLogout s)))) = [].
Proof.
  intros Hp. split; [reflexivity |].
  rewrite session_after. now apply gate_closed.
Qed.

Lemma logout_revokes_access_witness :
  protected RApiProjects = true /\
  run RegistryScenario.some_host
    (dispatch (credentials_of []) RApiProjects
       (snd (run RegistryScenario.some_host
               (dispatch (credentials_of []) RLogout
                  [("logged_in", SBool true); ("username", SStr "dragon")]))))
  = (Redirect "login", []).
Proof.
  split; [reflexivity |].
  exact (proj1 (proj2 (logout_revokes_access (credentials_of [])
           RegistryScenario.some_host RApiProjects
           [("logged_in", SBool true); ("username", SStr "dragon")] eq_refl))).
Defined.

Lemma step_keeps_known_sessions (cred : credentials) (os : OS) (r : route) (s : session) :
  s = [] \/ s = logged_session cred ->
  snd (run os (dispatch cred r s)) = [] \/
  snd (run os (dispatch cred r s)) = logged_session cred.
Proof.
  intros H. rewrite session_after. destruct r; auto.
  destruct (good_login cred req); [| exact H].
  right. destruct H as [-> | ->]; reflexivity.
Qed.

(** X4.  Whatever requests are served, in whatever order and on whatever
    state of the host, a session that starts empty is afterwards either
    empty or exactly [logged_in = True, username = DASHBOARD_USER]: no route
    stores anything else, and the user name kept is always the configured
    one. *)
Theorem sessions_are_empty_or_logged_in
    (cred : credentials) (os : OS) (requests : list route) :
  serve cred os requests [] = [] \/
  serve cred os requests [] = logged_session cred.
Proof.
  assert (G : forall s, s = [] \/ s = logged_session cred ->
                serve cred os requests s = [] \/
                serve cred os requests s = logged_session cred).
  { induction requests as [| r rest IH]; intros s Hs; simpl; [exact Hs |].
    apply IH. now apply step_keeps_known_sessions. }
  apply G. now left.
Qed.

Lemma serve_keeps_login (cred : credentials) (os : OS) (requests : list route) :
  ~ In RLogout requests ->
  forall s, has_key "logged_in" s = true ->
    has_key "logged_in" (serve cred os requests s) = true.
Proof.
  induction requests as [| r rest IH]; intros Hn s Hs; simpl; [exact Hs |].
  apply IH; [intros Hin; apply Hn; now right |].
  rewrite session_after. destruct r; try exact Hs.
  - destruct (good_login cred req); [| exact Hs]. now rewrite !has_key_dict_set.
  - exfalso. apply Hn. now left.
Qed.

Lemma logged_in_iff (cred : credentials) (os : OS) (requests : list route) :
  has_key "logged_in" (serve cred os requests []) = true <->
  logged_in_since cred requests.
Proof.
  split.
  - induction requests as [| r rest IH] using rev_ind; [discriminate |].
    rewrite serve_app. cbn [serve]. rewrite session_after. intros H.
    assert (K : has_key "logged_in" (serve cred os rest []) = true ->
                r <> RLogout -> logged_in_since cred (rest ++ [r])).
    { intros Hk Hr. destruct (IH Hk) as (before & req & after & -> & Hg & Hn).
      exists before, req, (after ++ [r])%list. split; [| split; [exact Hg |]].
      - now rewrite <- app_assoc.
      - intros Hin. apply in_app_or in Hin as [Hin | [Hin | []]]; [now apply Hn |].
        now apply Hr. }
    destruct r; try (apply K; [exact H | discriminate]).
    + destruct (good_login cred req) eqn:Hg; [| apply K; [exact H | discriminate]].
      exists rest, req, []. auto.
    + discriminate H.
  - intros (before & req & after & -> & Hg & Hn).
    rewrite serve_app. cbn [serve].
    apply serve_keeps_login; [exact Hn |].
    rewrite session_after, Hg. now rewrite !has_key_dict_set.
Qed.

(** X5.  After any sequence of requests from an empty session, a protected
    route is served (its undecorated view runs) exactly when the sequence
    contains a login request with the configured credentials that no logout
    follows; in every other case the reply is the redirect to the login
    page.  Page views, API calls and failed logins in between change
    nothing. *)
Theorem access_iff_logged_in_since
    (cred : credentials) (os : OS) (requests : list route) (r : route) :
  protected r = true ->
  (logged_in_since cred requests ->
     fst (run os (dispatch cred r (serve cred os requests []))) = run os (body_of r)) /\
  (~ logged_in_since cred requests ->
     fst (run os (dispatch cred r (serve cred os requests []))) = Redirect "login" /\
     trace os (dispatch cred r (serve cred os requests [])) = []).
Proof.
  intros Hp. split; intros H.
  - apply (logged_in_iff cred os) in H.
    now rewrite (proj1 (gate_open cred os r _ Hp H)).
  - assert (E : has_key "logged_in" (serve cred os requests []) = false).
    { destruct (has_key "logged_in" (serve cred os requests [])) eqn:E; [| reflexivity].
      elim H. now apply (logged_in_iff cred os). }
    destruct (gate_closed cred os r _ Hp E) as [-> ->]. auto.
Qed.

Lemma access_iff_logged_in_since_witness :
  protected (RApiFile "notes.txt") = true /\
  logged_in_since (credentials_of [])
    [ RIndex;
      RLogin {| method := "POST";
                form := [("username", "dragon"); ("password", "dragon123")] |};
      RApiBrowse "";
      RLogin {| method := "POST"; form := [("username", "dragon")] |} ] /\
  fst (run ReadScenario.files_host
         (dispatch (credentials_of []) (RApiFile "notes.txt")
            (serve (credentials_of []) ReadScenario.files_host
               [ RIndex;
                 RLogin {| method := "POST";
                           form := [("username", "dragon"); ("password", "dragon123")] |};
                 RApiBrowse "";
                 RLogin {| method := "POST"; form := [("username", "dragon")] |} ] [])))
  = run ReadScenario.files_host (body_of (RApiFile "notes.txt")).
Proof.
  assert (H : logged_in_since (credentials_of [])
    [ RIndex;
      RLogin {| method := "POST";
                form := [("username", "dragon"); ("password", "dragon123")] |};
      RApiBrowse "";
      RLogin {| method := "POST"; form := [("username", "dragon")] |} ]).
  { exists [RIndex],
      {| method := "POST"; form := [("username", "dragon"); ("password", "dragon123")] |},
      [RApiBrowse ""; RLogin {| method := "POST"; form := [("username", "dragon")] |}].
    split; [reflexivity |]. split; [reflexivity |].
    intros [E | [E | []]]; discriminate E. }
  split; [reflexivity |]. split; [exact H |].
  exact (proj1 (access_iff_logged_in_since (credentials_of []) ReadScenario.files_host
                  _ (RApiFile "notes.txt") eq_refl) H).
Defined.

(** ** What the handlers do outside the root and above the size ceiling *)

(** X6.  When the canonical target of a request does not start with the
    canonical root, both handlers answer Access denied with status 403
    after exactly two calls, the two canonicalizations: the target is
    neither tested for existence, nor listed, nor stat-ed, nor read. *)
Theorem outside_root_only_canonicalizes (os : OS) (p : string) :
  invalid_path p = false ->
  (startswith (realpath os (browse_target p)) (realpath os PROJECT_ROOT) = false ->
     run os (api_browse p) = (error_body "Access denied", 403) /\
     trace os (api_browse p)
     = [Ev (Realpath (browse_target p)); Ev (Realpath PROJECT_ROOT)]) /\
  (startswith (realpath os (join PROJECT_ROOT p)) (realpath os PROJECT_ROOT) = false ->
     run os (api_read_file p) = (error_body "Access denied", 403) /\
     trace os (api_read_file p)
     = [Ev (Realpath (join PROJECT_ROOT p)); Ev (Realpath PROJECT_ROOT)]).
Proof.
  intros Hi. split; intros Hs.
  - unfold api_browse. fold (browse_target p). rewrite Hi.
    cbn [bind call run trace answer]. rewrite Hs. split; reflexivity.
  - unfold api_read_file. rewrite Hi.
    cbn [bind call run trace answer]. rewrite Hs. split; reflexivity.
Qed.

Lemma outside_root_only_canonicalizes_witness :
  invalid_path "out" = false /\
  realpath EscapeScenario.escape_host (join PROJECT_ROOT "out") = "/etc/passwd" /\
  run EscapeScenario.escape_host (api_read_file "out") = (error_body "Access denied", 403) /\
  trace EscapeScenario.escape_host (api_read_file "out")
  = [Ev (Realpath "/home/dragon/out"); Ev (Realpath "/home/dragon")].
Proof.
  split; [reflexivity |]. split; [reflexivity |].
  exact (proj2 (outside_root_only_canonicalizes EscapeScenario.escape_host "out" eq_refl)
           eq_refl).
Defined.

(** X7.  [api_read_file] reads the bytes of the target exactly when the
    request has passed the path, sandbox, existence and kind checks and the
    size read for the file is at most 1,048,576 bytes: a file above the
    ceiling, a rejected path, a missing file or a directory is never
    opened. *)
Theorem file_opened_only_within_ceiling (os : OS) (filepath : string) :
  existsb reads_file (trace os (api_read_file filepath)) = true <->
  read_checks os filepath = true /\
  exists n, getsize os (join PROJECT_ROOT filepath) = Returns n /\ n <= 1048576.
Proof.
  unfold api_read_file, read_checks. cbv zeta.
  destruct (invalid_path filepath);
    [split; [discriminate | intros [C _]; discriminate C] |].
  cbn [bind call run trace answer existsb reads_file negb andb orb].
  destruct (startswith (realpath os (join PROJECT_ROOT filepath)) (realpath os PROJECT_ROOT));
    [| split; [discriminate | intros [C _]; discriminate C]].
  cbn [bind call run trace answer existsb reads_file negb andb orb].
  destruct (path_exists os (join PROJECT_ROOT filepath));
    [| split; [discriminate | intros [C _]; discriminate C]].
  cbn [bind call run trace answer existsb reads_file negb andb orb].
  destruct (isfile os (join PROJECT_ROOT filepath));
    [| split; [discriminate | intros [C _]; discriminate C]].
  cbn [bind call run trace answer existsb reads_file negb andb orb].
  destruct (getsize os (join PROJECT_ROOT filepath)) as [n | e].
  - destruct (Z.ltb_spec (1024 * 1024) n) as [L | G].
    + split; [discriminate | intros (_ & m & E & Hm); injection E as <-; lia].
    + cbn [bind call run trace answer existsb reads_file negb andb orb].
      split; [intros _ | reflexivity].
      split; [reflexivity | exists n; split; [reflexivity | lia]].
  - split; [discriminate | intros (_ & m & E & _); discriminate E].
Qed.

Lemma contains_cr_cons (c : ascii) (s : string) :
  contains carriage_return (String c s)
  = Ascii.eqb c "013"%char || contains carriage_return s.
Proof.
  rewrite contains_unfold. unfold carriage_return at 1.
  change (String.prefix (String "013"%char "") (String c s))
    with (if ascii_dec "013"%char c then String.prefix "" s else false).
  destruct (ascii_dec "013"%char c) as [E | N];
    destruct (Ascii.eqb_spec c "013"%char) as [E' | N']; subst;
    try congruence; try reflexivity.
  now destruct s.
Qed.

Lemma universal_newlines_step (s : string) :
  contains carriage_return (universal_newlines s) = false /\
  forall c, contains carriage_return (universal_newlines (String c s)) = false.
Proof.
  induction s as [| a s [IH1 IH2]].
  - split; [reflexivity |]. intros c. cbn [universal_newlines].
    destruct (Ascii.eqb c "013"%char) eqn:E; [reflexivity |].
    now rewrite contains_cr_cons, E.
  - split; [apply IH2 |]. intros c.
    cbn [universal_newlines].
    destruct (Ascii.eqb c "013"%char) eqn:E.
    + destruct (Ascii.eqb a "010"%char); rewrite contains_cr_cons; cbn [Ascii.eqb orb].
      * exact IH1.
      * apply IH2.
    + rewrite contains_cr_cons, E. apply IH2.
Qed.

Lemma universal_newlines_no_cr (s : string) :
  contains carriage_return (universal_newlines s) = false.
Proof. apply universal_newlines_step. Qed.

(** X8.  Every response of [api_read_file] with status 200 is the text
    response of a file that passed the checks, whose size as read is at
    most 1,048,576 bytes and whose bytes are well-formed UTF-8; the size
    reported is the size read, and the content holds no carriage return
    (line ends arrive as LF). *)
Theorem served_text_is_bounded_and_decoded (os : OS) (filepath : string) :
  snd (run os (api_read_file filepath)) = 200 ->
  exists n bs,
    read_checks os filepath = true /\
    getsize os (join PROJECT_ROOT filepath) = Returns n /\ n <= 1048576 /\
    read_bytes os (join PROJECT_ROOT filepath) = Returns bs /\
    utf8_wf (map Byte.to_N bs) = true /\
    run os (api_read_file filepath)
    = text_response filepath (universal_newlines (string_of_list_byte bs)) n /\
    contains carriage_return (universal_newlines (string_of_list_byte bs)) = false.
Proof.
  intros H. destruct (read_checks os filepath) eqn:C.
  - rewrite (api_read_file_checked _ _ C) in H |- *.
    unfold read_after_checks in H |- *. cbv zeta in H |- *.
    destruct (getsize os (join PROJECT_ROOT filepath)) as [n | e].
    + destruct (Z.ltb_spec (1024 * 1024) n) as [L | G]; [discriminate H |].
      destruct (read_bytes os (join PROJECT_ROOT filepath)) as [bs | e].
      * unfold decode_utf8 in H |- *.
        destruct (utf8_wf (map Byte.to_N bs)) eqn:W; [| discriminate H].
        exists n, bs.
        split; [reflexivity |]. split; [reflexivity |]. split; [lia |].
        split; [reflexivity |]. split; [exact W |]. split; [reflexivity |].
        apply universal_newlines_no_cr.
      * destruct e; discriminate H.
    + destruct (handler_except_status e) as [E | E]; rewrite E in H; discriminate H.
  - destruct (api_read_file_unchecked _ _ C) as [E | [E | E]];
      rewrite E in H; discriminate H.
Qed.

Lemma served_text_is_bounded_and_decoded_witness :
  snd (run ReadScenario.files_host (api_read_file "notes.txt")) = 200 /\
  exists n bs,
    read_checks ReadScenario.files_host "notes.txt" = true /\
    getsize ReadScenario.files_host (join PROJECT_ROOT "notes.txt") = Returns n /\
    n <= 1048576 /\
    read_bytes ReadScenario.files_host (join PROJECT_ROOT "notes.txt") = Returns bs /\
    utf8_wf (map Byte.to_N bs) = true /\
    run ReadScenario.files_host (api_read_file "notes.txt")
    = text_response "notes.txt" (universal_newlines (string_of_list_byte bs)) n /\
    contains carriage_return (universal_newlines (string_of_list_byte bs)) = false.
Proof.
  split; [reflexivity |].
  exact (served_text_is_bounded_and_decoded ReadScenario.files_host "notes.txt" eq_refl).
Defined.

Lemma file_opened_only_within_ceiling_witness :
  read_checks ReadScenario.files_host "notes.txt" = true /\
  getsize ReadScenario.files_host (join PROJECT_ROOT "notes.txt") = Returns 9 /\
  existsb reads_file (trace ReadScenario.files_host (api_read_file "notes.txt")) = true /\
  existsb reads_file (trace ReadScenario.files_host (api_read_file "big.log")) = false.
Proof.
  split; [reflexivity |]. split; [reflexivity |]. split; [| reflexivity].
  apply (proj2 (file_opened_only_within_ceiling ReadScenario.files_host "notes.txt")).
  split; [reflexivity |]. exists 9. split; [reflexivity | lia].
Defined.

(** ** The listing, entry by entry *)

Lemma api_browse_checked (os : OS) (subpath : string) :
  browse_checks os subpath = true ->
  run os (api_browse subpath)
  = match listdir os (browse_target subpath) with
    | Raises e => handler_except e
    | Returns names =>
        match run os (browse_loop (browse_target subpath) subpath (sorted names) []) with
        | Raises e => handler_except e
        | Returns _ => listing_response os subpath names
        end
    end.
Proof.
  unfold browse_checks, api_browse. fold (browse_target subpath). intros H.
  apply andb_true_iff in H as [H Hd]. apply andb_true_iff in H as [H He].
  apply andb_true_iff in H as [Hi Hs]. apply negb_true_iff in Hi.
  rewrite Hi. cbn [bind call run answer]. rewrite Hs. cbn [negb bind call run answer].
  rewrite He. cbn [negb bind call run answer]. rewrite Hd. cbn [negb bind call run answer].
  destruct (listdir os (browse_target subpath)) as [names | e]; [| reflexivity].
  rewrite run_bind.
  destruct (run os (browse_loop (browse_target subpath) subpath (sorted names) []))
    as [items | e] eqn:E; [| reflexivity].
  apply browse_loop_returns in E. simpl in E. subst items. reflexivity.
Qed.

Lemma api_browse_unchecked (os : OS) (subpath : string) :
  browse_checks os subpath = false ->
  snd (run os (api_browse subpath)) <> 200 /\
  listing_items (run os (api_browse subpath)) = [].
Proof.
  unfold browse_checks, api_browse. fold (browse_target subpath). intros H.
  destruct (invalid_path subpath); [split; [discriminate | reflexivity] |].
  cbn [bind call run answer].
  destruct (startswith (realpath os (browse_target subpath)) (realpath os PROJECT_ROOT));
    [| split; [discriminate | reflexivity]].
  cbn [negb bind call run answer].
  destruct (path_exists os (browse_target subpath)); [| split; [discriminate | reflexivity]].
  cbn [negb bind call run answer].
  destruct (isdir os (browse_target subpath)); [discriminate H |].
  split; [discriminate | reflexivity].
Qed.

Lemma browse_loop_benign (os : OS) (target_path subpath : string) entries :
  Forall (fun e => entry_benign os target_path e = true) entries ->
  forall items, exists items',
    run os (browse_loop target_path subpath entries items) = Returns items'.
Proof.
  induction 1 as [| entry rest Hb _ IH]; intros items.
  - exists items. reflexivity.
  - cbn [browse_loop]. unfold entry_benign in Hb.
    destruct (hidden_entry entry); [apply IH |].
    cbn [orb] in Hb. cbn [bind call run answer].
    destruct (stat os (join target_path entry)) as [st | e].
    + cbn [bind call run answer].
      destruct (strftime os (st_mtime st) "%Y-%m-%d %H:%M:%S") as [m | e];
        [apply IH |].
      destruct e; try discriminate Hb; apply IH.
    + destruct e; try discriminate Hb; apply IH.
Qed.

Lemma in_sorted (x : string) (l : list string) : In x (sorted l) -> In x l.
Proof.
  intros H. apply Permutation_in with (l := sorted l); [| exact H].
  apply Permutation_sym, StrSort.Permuted_sort.
Qed.

(** X9.  The listing is fail-open per entry.  When the request passes the
    checks, [listdir] returns and no entry raises anything but
    [PermissionError] or [FileNotFoundError] while it is looked at, the
    response has status 200 and lists, directories first, exactly the
    sorted names that are neither hidden nor in the noise set and whose
    [stat] succeeded: an entry that vanished or cannot be read is left out
    and the rest of the listing is not affected. *)
Theorem listing_skips_unreadable_entries
    (os : OS) (subpath : string) (names : list string) :
  browse_checks os subpath = true ->
  listdir os (browse_target subpath) = Returns names ->
  (forall e, In e names -> entry_benign os (browse_target subpath) e = true) ->
  run os (api_browse subpath) = listing_response os subpath names /\
  Permutation
    (map item_name (listing_items (run os (api_browse subpath))))
    (filter (listed os (browse_target subpath)) (sorted names)).
Proof.
  intros C L B. rewrite (api_browse_checked _ _ C), L.
  destruct (browse_loop_benign os (browse_target subpath) subpath (sorted names))
    with (items := @nil json) as (items' & ->).
  { apply Forall_forall. intros e He. apply B. now apply in_sorted. }
  split; [reflexivity |].
  unfold listing_response, listing_items. cbn [fst jget jlookup String.eqb Ascii.eqb Bool.eqb].
  set (l := filter (listed os (browse_target subpath)) (sorted names)).
  assert (Hl : Forall (fun e => listed os (browse_target subpath) e = true) l).
  { apply Forall_forall. intros e He. now apply filter_In in He. }
  rewrite map_app, !names_of_kind by exact Hl.
  clear -Hl. induction Hl as [| e l He _ IH]; [constructor |].
  cbn [filter].
  destruct (item_of_listed os (browse_target subpath) subpath e He) as (_ & -> & ->).
  destruct (isdir os (join (browse_target subpath) e)); cbn [negb app].
  - now constructor.
  - apply Permutation_sym, Permutation_cons_app, Permutation_sym, IH.
Qed.

Lemma listing_skips_unreadable_entries_witness :
  browse_checks DanglingScenario.dangling_host "work" = true /\
  listdir DanglingScenario.dangling_host (browse_target "work")
  = Returns ["gone"; "kept.txt"] /\
  stat DanglingScenario.dangling_host "/home/dragon/work/gone"
  = Raises (FileNotFoundError
              "[Errno 2] No such file or directory: '/home/dragon/work/gone'") /\
  run DanglingScenario.dangling_host (api_browse "work")
  = (JObj [ ("current_path", JStr "work");
            ("items", JArr [ JObj [ ("name", JStr "kept.txt");
                                    ("path", JStr "work/kept.txt");
                                    ("type", JStr "file"); ("size", JInt 1);
                                    ("modified", JStr "2023-11-14 22:23:20") ] ]);
            ("parent_path", JStr "") ], 200).
Proof.
  split; [reflexivity |]. split; [reflexivity |]. split; [reflexivity |].
  refine (proj1 (listing_skips_unreadable_entries DanglingScenario.dangling_host "work"
                   ["gone"; "kept.txt"] eq_refl eq_refl _)).
  intros e [<- | [<- | []]]; reflexivity.
Defined.

Lemma listing_items_of_error (e : exn) : listing_items (handler_except e) = [].
Proof. destruct e; reflexivity. Qed.

(** X10.  Every item of every listing describes one name that [listdir]
    returned for the directory: the name is neither hidden nor in the noise
    set, [stat] succeeded on it, [path] is the requested path joined with
    the name (the bare name at the root), [type] is [directory] or [file]
    as [isdir] says, [size] is null for a directory and the [st_size] of
    the entry otherwise, and the item has these five fields and
    [modified], nothing else. *)
Theorem listed_items_describe_entries (os : OS) (subpath : string) (item : json) :
  In item (listing_items (run os (api_browse subpath))) ->
  exists names entry st modified,
    browse_checks os subpath = true /\
    listdir os (browse_target subpath) = Returns names /\
    In entry names /\
    hidden_entry entry = false /\
    stat os (join (browse_target subpath) entry) = Returns st /\
    strftime os (st_mtime st) "%Y-%m-%d %H:%M:%S" = Returns modified /\
    item = JObj [ ("name", JStr entry);
                  ("path", JStr (if nonempty subpath then join subpath entry else entry));
                  ("type", JStr (if isdir os (join (browse_target subpath) entry)
                                 then "directory" else "file"));
                  ("size", if isdir os (join (browse_target subpath) entry)
                           then JNull else JInt (st_size st));
                  ("modified", JStr modified) ].
Proof.
  intros H. destruct (browse_checks os subpath) eqn:C.
  2:{ destruct (api_browse_unchecked _ _ C) as [_ E]. rewrite E in H. contradiction. }
  rewrite (api_browse_checked _ _ C) in H.
  destruct (listdir os (browse_target subpath)) as [names | e];
    [| rewrite listing_items_of_error in H; contradiction].
  destruct (run os (browse_loop (browse_target subpath) subpath (sorted names) []));
    [| rewrite listing_items_of_error in H; contradiction].
  unfold listing_response, listing_items in H.
  cbn [fst jget jlookup String.eqb Ascii.eqb Bool.eqb] in H.
  assert (Hin : In item (map (item_of os (browse_target subpath) subpath)
                           (filter (listed os (browse_target subpath)) (sorted names)))).
  { apply in_app_or in H as [H | H]; now apply filter_In in H. }
  apply in_map_iff in Hin as (entry & <- & He).
  apply filter_In in He as [Hs Hl]. apply in_sorted in Hs.
  unfold listed in Hl. apply andb_true_iff in Hl as [Hh Hl].
  apply negb_true_iff in Hh. unfold item_of.
  destruct (stat os (join (browse_target subpath) entry)) as [st | e] eqn:Es;
    [| discriminate Hl].
  destruct (strftime os (st_mtime st) "%Y-%m-%d %H:%M:%S") as [m | e] eqn:Em;
    [| discriminate Hl].
  exists names, entry, st, m. repeat split; auto.
Qed.

Lemma listed_items_describe_entries_witness :
  In (JObj [ ("name", JStr "Alpha"); ("path", JStr "docs/Alpha");
             ("type", JStr "directory"); ("size", JNull);
             ("modified", JStr "2023-11-14 22:20:00") ])
     (listing_items (run BrowseScenario.docs_host (api_browse "docs"))) /\
  exists names entry st modified,
    browse_checks BrowseScenario.docs_host "docs" = true /\
    listdir BrowseScenario.docs_host (browse_target "docs") = Returns names /\
    In entry names /\
    hidden_entry entry = false /\
    stat BrowseScenario.docs_host (join (browse_target "docs") entry) = Returns st /\
    strftime BrowseScenario.docs_host (st_mtime st) "%Y-%m-%d %H:%M:%S" = Returns modified /\
    JObj [ ("name", JStr "Alpha"); ("path", JStr "docs/Alpha");
           ("type", JStr "directory"); ("size", JNull);
           ("modified", JStr "2023-11-14 22:20:00") ]
    = JObj [ ("name", JStr entry);
             ("path", JStr (if nonempty "docs" then join "docs" entry else entry));
             ("type", JStr (if isdir BrowseScenario.docs_host (join (browse_target "docs") entry)
                            then "directory" else "file"));
             ("size", if isdir BrowseScenario.docs_host (join (browse_target "docs") entry)
                      then JNull else JInt (st_size st));
             ("modified", JStr modified) ].
Proof.
  assert (H : In (JObj [ ("name", JStr "Alpha"); ("path", JStr "docs/Alpha");
                         ("type", JStr "directory"); ("size", JNull);
                         ("modified", JStr "2023-11-14 22:20:00") ])
                 (listing_items (run BrowseScenario.docs_host (api_browse "docs")))).
  { left. reflexivity. }
  split; [exact H |].
  exact (listed_items_describe_entries BrowseScenario.docs_host "docs" _ H).
Defined.

(** ** Paths in a listing *)

Lemma prefix_char (x c : ascii) (s : string) :
  String.prefix (String x "") (String c s) = Ascii.eqb c x.
Proof.
  change (String.prefix (String x "") (String c s))
    with (if ascii_dec x c then String.prefix "" s else false).
  destruct (ascii_dec x c) as [E | N];
    destruct (Ascii.eqb_spec c x) as [E' | N']; subst;
    try congruence; try reflexivity.
  apply prefix_nil.
Qed.

Lemma prefix_dotdot (x : ascii) (s : string) :
  String.prefix ".." (String x s)
  = Ascii.eqb x "."%char &&
    match s with
    | EmptyString => false
    | String y _ => Ascii.eqb y "."%char
    end.
Proof.
  change (String.prefix ".." (String x s))
    with (if ascii_dec "."%char x then String.prefix "." s else false).
  destruct (ascii_dec "."%char x) as [E | N];
    destruct (Ascii.eqb_spec x "."%char) as [E' | N']; subst; try congruence;
    cbn [andb]; [| reflexivity].
  destruct s as [| y s]; [reflexivity | apply prefix_char].
Qed.

(** Across a character other than the dot, [..] occurs on one side. *)
Lemma contains_dotdot_app (a b : string) (c : ascii) :
  Ascii.eqb c "."%char = false ->
  contains ".." (a ++ String c b) = contains ".." a || contains ".." b.
Proof.
  intros Hc. induction a as [| x a IH].
  - cbn [append]. rewrite contains_unfold, prefix_dotdot, Hc. reflexivity.
  - cbn [append]. rewrite (contains_unfold ".." (String x (a ++ String c b))), IH.
    rewrite (contains_unfold ".." (String x a)), !prefix_dotdot.
    destruct a as [| y a]; cbn [append]; [rewrite Hc |];
      now rewrite ?orb_assoc.
Qed.

Lemma endswith_sep_split (s : string) :
  endswith_sep s = true -> exists s0, s = (s0 ++ "/")%string.
Proof.
  induction s as [| c s IH]; [discriminate |].
  destruct s as [| d s'].
  - cbn [endswith_sep]. intros H. apply Ascii.eqb_eq in H. subst. now exists "".
  - intros H. change (endswith_sep (String d s') = true) in H.
    destruct (IH H) as (s0 & E). exists (String c s0). cbn [append]. now rewrite E.
Qed.

(** [os.path.join] with a relative second argument. *)
Lemma join_relative (a b : string) :
  startswith b "/" = false ->
  join a b = if negb (nonempty a) || endswith_sep a then (a ++ b)%string
             else (a ++ String sep b)%string.
Proof. intros H. unfold join. rewrite H. reflexivity. Qed.

Lemma startswith_app (s x : string) :
  nonempty s = true -> startswith (s ++ x) "/" = startswith s "/".
Proof.
  destruct s as [| c s]; [discriminate |]. intros _.
  unfold startswith. cbn [append]. now rewrite !prefix_char.
Qed.

Lemma nonempty_app (a b : string) : nonempty a = true -> nonempty (a ++ b) = true.
Proof. now destruct a. Qed.

Lemma nonempty_app_r (a s : string) : nonempty s = true -> nonempty (a ++ s) = true.
Proof. destruct a; [now cbn [append] | reflexivity]. Qed.

Lemma join_assoc (a s e : string) :
  nonempty s = true -> startswith s "/" = false -> startswith e "/" = false ->
  join a (join s e) = join (join a s) e.
Proof.
  intros Hn Hs He.
  assert (Hj : startswith (join s e) "/" = false).
  { rewrite (join_relative s e He), Hn. cbn [negb orb].
    destruct (endswith_sep s); now rewrite startswith_app. }
  rewrite (join_relative a _ Hj), (join_relative a s Hs).
  rewrite (join_relative s e He), Hn. cbn [negb orb].
  destruct (negb (nonempty a) || endswith_sep a).
  - rewrite (join_relative _ e He), (nonempty_app_r a s Hn). cbn [negb orb].
    rewrite endswith_sep_app by exact Hn.
    destruct (endswith_sep s); now rewrite append_assoc.
  - rewrite (join_relative _ e He).
    assert (Hn' : nonempty (a ++ String sep s) = true) by (destruct a; reflexivity).
    rewrite Hn'. cbn [negb orb].
    change (a ++ String sep s)%string with (a ++ (String sep "" ++ s))%string.
    rewrite <- append_assoc, endswith_sep_app by exact Hn.
    destruct (endswith_sep s); now rewrite !append_assoc.
Qed.

Lemma join_valid (s e : string) :
  nonempty s = true -> invalid_path s = false ->
  startswith e "/" = false -> contains ".." e = false ->
  invalid_path (join s e) = false.
Proof.
  unfold invalid_path. intros Hn Hi He Hd.
  apply orb_false_iff in Hi as [Hc Hs].
  rewrite (join_relative s e He), Hn. cbn [negb orb].
  apply orb_false_iff.
  destruct (endswith_sep s) eqn:Es.
  - split; [| now rewrite startswith_app].
    destruct (endswith_sep_split s Es) as (s0 & ->).
    rewrite append_assoc. cbn [append].
    rewrite contains_dotdot_app in Hc |- * by reflexivity.
    apply orb_false_iff in Hc as [Hc _]. now rewrite Hc, Hd.
  - split; [| now rewrite startswith_app].
    rewrite contains_dotdot_app by reflexivity. now rewrite Hc, Hd.
Qed.

(** X11.  The [path] a listing gives to an entry leads back to that entry.
    For a listing of an accepted [subpath] and an entry name that is not
    empty, does not begin with the separator and holds no [..], the path
    [rel_path subpath entry] passes the pre-filter, and both handlers, when
    asked for it, work on the very path that was stat-ed for the listing:
    it is the first path they canonicalize. *)
Theorem listed_paths_lead_to_their_entries (subpath entry : string) :
  invalid_path subpath = false ->
  nonempty entry = true ->
  startswith entry "/" = false ->
  contains ".." entry = false ->
  invalid_path (rel_path subpath entry) = false /\
  browse_target (rel_path subpath entry) = join (browse_target subpath) entry /\
  join PROJECT_ROOT (rel_path subpath entry) = join (browse_target subpath) entry /\
  forall os : OS,
    hd_error (trace os (api_browse (rel_path subpath entry)))
    = Some (Ev (Realpath (join (browse_target subpath) entry))) /\
    hd_error (trace os (api_read_file (rel_path subpath entry)))
    = Some (Ev (Realpath (join (browse_target subpath) entry))).
Proof.
  intros Hi Hn He Hd.
  assert (Hs : startswith subpath "/" = false).
  { unfold invalid_path in Hi. now apply orb_false_iff in Hi. }
  assert (V : invalid_path (rel_path subpath entry) = false).
  { unfold rel_path. destruct (nonempty subpath) eqn:Ns.
    - now apply join_valid.
    - unfold invalid_path. now rewrite Hd, He. }
  assert (N : nonempty (rel_path subpath entry) = true).
  { unfold rel_path. destruct (nonempty subpath) eqn:Ns; [| exact Hn].
    rewrite (join_relative _ _ He), Ns. cbn [negb orb].
    destruct (endswith_sep subpath); now apply nonempty_app. }
  assert (J : join PROJECT_ROOT (rel_path subpath entry) = join (browse_target subpath) entry).
  { unfold rel_path, browse_target. destruct (nonempty subpath) eqn:Ns; [| reflexivity].
    now apply join_assoc. }
  assert (T : browse_target (rel_path subpath entry) = join (browse_target subpath) entry).
  { unfold browse_target at 1. now rewrite N. }
  split; [exact V |]. split; [exact T |]. split; [exact J |].
  intros os. split.
  - unfold api_browse. fold (browse_target (rel_path subpath entry)).
    rewrite V, T. reflexivity.
  - unfold api_read_file. rewrite V, J. reflexivity.
Qed.

Lemma listed_paths_lead_to_their_entries_witness :
  invalid_path "docs" = false /\
  rel_path "docs" "beta.txt" = "docs/beta.txt" /\
  join (browse_target "docs") "beta.txt" = "/home/dragon/docs/beta.txt" /\
  invalid_path (rel_path "docs" "beta.txt") = false /\
  join PROJECT_ROOT (rel_path "docs" "beta.txt") = join (browse_target "docs") "beta.txt".
Proof.
  split; [reflexivity |]. split; [reflexivity |]. split; [reflexivity |].
  pose proof (listed_paths_lead_to_their_entries "docs" "beta.txt"
                eq_refl eq_refl eq_refl eq_refl) as H.
  split; [exact (proj1 H) | exact (proj1 (proj2 (proj2 H)))].
Defined.

(** ** The parent of a listed path *)

Lemma string_length_app (a b : string) :
  String.length (a ++ b) = (String.length a + String.length b)%nat.
Proof. induction a as [| c a IH]; cbn [append String.length]; [reflexivity | now rewrite IH]. Qed.

Lemma substring_prefix (a b : string) :
  String.substring 0 (String.length a) (a ++ b) = a.
Proof.
  induction a as [| c a IH]; cbn [append String.length String.substring].
  - now destruct b.
  - now rewrite IH.
Qed.

Lemma all_sep_app (s x : string) :
  nonempty s = true -> startswith s "/" = false -> all_sep (s ++ x) = false.
Proof.
  destruct s as [| c s]; [discriminate |]. intros _ H.
  unfold startswith in H. rewrite prefix_char in H.
  cbn [append all_sep]. unfold sep. now rewrite H.
Qed.

Lemma rstrip_sep_keeps (s : string) :
  nonempty s = true -> endswith_sep s = false -> rstrip_sep s = s.
Proof.
  induction s as [| c s IH]; [discriminate |]. intros _ H.
  destruct s as [| d s'].
  - cbn [endswith_sep] in H. cbn [rstrip_sep]. now rewrite H.
  - change (endswith_sep (String d s') = false) in H.
    cbn [rstrip_sep]. fold (rstrip_sep (String d s')).
    change (match rstrip_sep (String d s') with
            | EmptyString => if Ascii.eqb c sep then EmptyString else String c EmptyString
            | String a r => String c (String a r)
            end = String c (String d s')).
    now rewrite IH.
Qed.

Lemma rstrip_sep_app (s : string) : rstrip_sep (s ++ String sep "") = rstrip_sep s.
Proof.
  induction s as [| c s IH].
  - cbn [append rstrip_sep]. now rewrite Ascii.eqb_refl.
  - cbn [append rstrip_sep]. now rewrite IH.
Qed.

Lemma dirname_rel_path (subpath entry : string) :
  invalid_path subpath = false ->
  endswith_sep subpath = false ->
  nonempty entry = true ->
  contains "/" entry = false ->
  dirname (rel_path subpath entry) = subpath.
Proof.
  intros Hi Hs Hn He.
  assert (Hstart : startswith entry "/" = false).
  { destruct entry as [| c e]; [discriminate |].
    rewrite contains_char_cons in He. apply orb_false_iff in He as [Hc _].
    unfold startswith. now rewrite prefix_char. }
  unfold rel_path. destruct (nonempty subpath) eqn:Ns.
  - rewrite (join_relative _ _ Hstart), Ns, Hs. cbn [negb orb].
    unfold dirname, basename. cbv zeta.
    rewrite (basename_from_app subpath entry _ He).
    change (subpath ++ String sep entry)%string
      with (subpath ++ (String sep "" ++ entry))%string.
    rewrite <- append_assoc.
    replace (String.length ((subpath ++ String sep "") ++ entry) - String.length entry)%nat
      with (String.length (subpath ++ String sep "")) by (rewrite !string_length_app; lia).
    rewrite substring_prefix.
    assert (Hsl : startswith subpath "/" = false).
    { unfold invalid_path in Hi. now apply orb_false_iff in Hi. }
    rewrite (nonempty_app subpath _ Ns), (all_sep_app subpath _ Ns Hsl).
    cbn [negb andb]. rewrite rstrip_sep_app. now apply rstrip_sep_keeps.
  - destruct subpath; [| discriminate Ns].
    unfold dirname, basename. cbv zeta.
    rewrite (basename_from_no_sep entry entry He), Nat.sub_diag.
    now destruct entry.
Qed.

Lemma api_browse_status_200 (os : OS) (subpath : string) :
  snd (run os (api_browse subpath)) = 200 ->
  exists names,
    listdir os (browse_target subpath) = Returns names /\
    run os (api_browse subpath) = listing_response os subpath names.
Proof.
  intros H. destruct (browse_checks os subpath) eqn:C.
  2:{ destruct (api_browse_unchecked _ _ C) as [N _]. now elim N. }
  rewrite (api_browse_checked _ _ C) in H |- *.
  destruct (listdir os (browse_target subpath)) as [names | e].
  - destruct (run os (browse_loop (browse_target subpath) subpath (sorted names) []))
      as [items | e].
    + exists names. split; reflexivity.
    + destruct (handler_except_status e) as [E | E]; rewrite E in H; discriminate H.
  - destruct (handler_except_status e) as [E | E]; rewrite E in H; discriminate H.
Qed.

(** X12.  Going down and up again ends where it started.  For a listing of
    an accepted [subpath] without a trailing separator and an entry name
    that is not empty and holds no separator, the [dirname] of the path the
    listing gives to the entry is [subpath]; hence every status-200
    response of [api_browse] for that path reports [subpath] as its
    [parent_path] (the empty string for a child of the root) and the
    requested path as [current_path]. *)
Theorem parent_path_leads_back (os : OS) (subpath entry : string) :
  invalid_path subpath = false ->
  endswith_sep subpath = false ->
  nonempty entry = true ->
  contains "/" entry = false ->
  dirname (rel_path subpath entry) = subpath /\
  (snd (run os (api_browse (rel_path subpath entry))) = 200 ->
   jget "parent_path" (fst (run os (api_browse (rel_path subpath entry))))
   = Some (JStr subpath) /\
   jget "current_path" (fst (run os (api_browse (rel_path subpath entry))))
   = Some (JStr (rel_path subpath entry))).
Proof.
  intros Hi Hs Hn He.
  pose proof (dirname_rel_path subpath entry Hi Hs Hn He) as D.
  split; [exact D |]. intros H.
  destruct (api_browse_status_200 os _ H) as (names & _ & ->).
  unfold listing_response. cbn [fst jget jlookup String.eqb Ascii.eqb Bool.eqb].
  assert (N : nonempty (rel_path subpath entry) = true).
  { unfold rel_path. destruct (nonempty subpath) eqn:Ns; [| exact Hn].
    unfold join. destruct (startswith entry "/"); [exact Hn |].
    rewrite Ns. cbn [negb orb]. destruct (endswith_sep subpath); now apply nonempty_app. }
  rewrite N, D. split; reflexivity.
Qed.

Lemma parent_path_leads_back_witness :
  invalid_path "docs" = false /\ endswith_sep "docs" = false /\
  nonempty "Alpha" = true /\ contains "/" "Alpha" = false /\
  snd (run BrowseScenario.docs_host (api_browse (rel_path "docs" "Alpha"))) = 200 /\
  jget "parent_path" (fst (run BrowseScenario.docs_host (api_browse (rel_path "docs" "Alpha"))))
  = Some (JStr "docs").
Proof.
  repeat (split; [reflexivity |]).
  exact (proj1 (proj2 (parent_path_leads_back BrowseScenario.docs_host "docs" "Alpha"
                         eq_refl eq_refl eq_refl eq_refl) eq_refl)).
Defined.

(** ** DirectoryScanner: bounds and edges *)

Lemma total_files_nonneg (log : list (string * list string)) : 0 <= total_files log.
Proof. unfold total_files. induction log as [| e log IH]; simpl; lia. Qed.

Lemma count_files_nonneg (os : OS) (directory : string) :
  0 <= run os (count_files directory).
Proof.
  destruct (count_and_log os directory (walk_view os directory))
    as (count & log & E1 & _ & -> & _).
  rewrite run_count_files, E1. apply total_files_nonneg.
Qed.

(** X13.  [count_files] never fails its caller and never returns a negative
    number; started on something it cannot scan (a missing path, a regular
    file, a directory that may not be read) it returns 0, and
    [get_last_modified] returns [Unknown] there. *)
Theorem scanner_is_total_and_fails_open (os : OS) (directory : string) :
  0 <= run os (count_files directory) /\
  (walk_view os directory = File \/ (exists l, walk_view os directory = Dir l None) ->
   run os (count_files directory) = 0 /\
   run os (get_last_modified directory) = "Unknown").
Proof.
  split; [apply count_files_nonneg |].
  intros H. rewrite run_count_files. unfold get_last_modified.
  cbn [bind call run answer]. rewrite !run_bind.
  destruct H as [-> | (l & ->)]; split; reflexivity.
Qed.

Lemma scanner_is_total_and_fails_open_witness :
  walk_view ReadScenario.files_host "/home/dragon/notes.txt" = File /\
  walk_view ReadScenario.files_host "/home/dragon/absent" = Dir false None /\
  run ReadScenario.files_host (count_files "/home/dragon/notes.txt") = 0 /\
  run ReadScenario.files_host (get_last_modified "/home/dragon/absent") = "Unknown".
Proof.
  split; [reflexivity |]. split; [reflexivity |]. split.
  - exact (proj1 (proj2 (scanner_is_total_and_fails_open ReadScenario.files_host
                           "/home/dragon/notes.txt") (or_introl eq_refl))).
  - exact (proj2 (proj2 (scanner_is_total_and_fails_open ReadScenario.files_host
                           "/home/dragon/absent")
                    (or_intror (ex_intro _ false eq_refl)))).
Defined.

Lemma descend_skip {S : Type} body top d (s : S) n c es1 es2 :
  n <> d ->
  descend body top d s (es1 ++ (n, c) :: es2)%list = descend body top d s (es1 ++ es2)%list.
Proof.
  intros Hn. induction es1 as [| [n1 c1] es1 IH]; cbn [app descend].
  - destruct (String.eqb_spec n d) as [E | _]; [now elim Hn | reflexivity].
  - destruct (String.eqb n1 d); [reflexivity | exact IH].
Qed.

Lemma walk_children_skip {S : Type} (os : OS) body top n c es1 es2 ds (s : S) :
  ~ In n ds ->
  run os (walk_children body top (es1 ++ (n, c) :: es2)%list ds s)
  = run os (walk_children body top (es1 ++ es2)%list ds s).
Proof.
  unfold walk_children.
  assert (G : forall acc1 acc2 : prog (outcome S),
             ~ In n ds -> run os acc1 = run os acc2 ->
             run os (fold_left
                       (fun acc d => a <- acc ;;
                          match a with
                          | Raises e => Ret (Raises e)
                          | Returns s' => descend body top d s' (es1 ++ (n, c) :: es2)%list
                          end) ds acc1)
             = run os (fold_left
                         (fun acc d => a <- acc ;;
                            match a with
                            | Raises e => Ret (Raises e)
                            | Returns s' => descend body top d s' (es1 ++ es2)%list
                            end) ds acc2)).
  { induction ds as [| d ds IH]; intros acc1 acc2 Hn E; cbn [fold_left]; [exact E |].
    apply IH; [intros Hin; apply Hn; now right |].
    rewrite !run_bind, E. destruct (run os acc2) as [s' | e]; [| reflexivity].
    rewrite descend_skip; [reflexivity |]. intros ->. apply Hn. now left. }
  intros Hn. now apply G.
Qed.

Lemma count_children_shift (os1 os2 : OS) top es ds (s : Z) :
  Forall (fun d => keep_dir d = true) ds ->
  exists c,
    run os1 (walk_children count_body top es ds s) = Returns c /\
    run os2 (walk_children count_body top es ds (s + 1)) = Returns (c + 1).
Proof.
  intros Hds.
  assert (step : forall root dirs files (s1 s2 : Z),
             True -> s1 = s2 + 1 ->
             exists s1' s2',
               run os2 (count_body root dirs files s1) = Returns (filter keep_dir dirs, s1') /\
               run os1 (count_body root dirs files s2) = Returns (filter keep_dir dirs, s2') /\
               s1' = s2' + 1).
  { intros root dirs files s1 s2 _ ->.
    exists (s2 + 1 + Z.of_nat (List.length files)), (s2 + Z.of_nat (List.length files)).
    repeat split. lia. }
  destruct (children_related os2 os1 count_body count_body (fun _ => True)
              (fun a b => a = b + 1) (fun _ _ _ _ => I) es es)
    with (top := top) (ds := ds) (s1 := s + 1) (s2 := s)
    as (c1 & c2 & E1 & E2 & ->); auto.
  - apply Forall_forall. intros e _.
    apply (walk_related_all os2 os1 count_body count_body (fun _ => True)
             (fun a b => a = b + 1) step (fun _ _ _ _ => I)).
  - pose proof (agree_refl (Dir false (Some es))) as Ha.
    apply agree_dir in Ha. exact (proj2 Ha).
  - exists c2. auto.
Qed.

(** X14.  Adding one file to the scanned directory, under a name the
    directory does not hold yet, raises the count by exactly one, whatever
    the name of the file (hidden or not) and whatever else the directory
    holds. *)
Theorem adding_a_file_adds_one (os1 os2 : OS) (directory name : string)
    (l : bool) (es1 es2 : list (string * tree)) :
  walk_view os1 directory = Dir l (Some (es1 ++ es2)%list) ->
  walk_view os2 directory = Dir l (Some (es1 ++ (name, File) :: es2)%list) ->
  ~ In name (map fst (es1 ++ es2)%list) ->
  run os2 (count_files directory) = run os1 (count_files directory) + 1.
Proof.
  intros V1 V2 Hfresh. rewrite !run_count_files, V1, V2, !os_walk_dir, !run_bind.
  cbn [count_body run].
  assert (Ed : map fst (filter is_dir_entry (es1 ++ (name, File) :: es2)%list)
               = map fst (filter is_dir_entry (es1 ++ es2)%list)).
  { rewrite !filter_app. reflexivity. }
  assert (En : Z.of_nat (List.length (map fst
                 (filter (fun e => negb (is_dir_entry e)) (es1 ++ (name, File) :: es2)%list)))
               = Z.of_nat (List.length (map fst
                   (filter (fun e => negb (is_dir_entry e)) (es1 ++ es2)%list))) + 1).
  { rewrite !filter_app. cbn [filter is_dir_entry snd negb].
    rewrite !length_map, !length_app. cbn [List.length]. lia. }
  rewrite Ed, En.
  set (ds := filter keep_dir (map fst (filter is_dir_entry (es1 ++ es2)%list))).
  set (k := Z.of_nat (List.length (map fst
              (filter (fun e => negb (is_dir_entry e)) (es1 ++ es2)%list)))).
  assert (Hds : ~ In name ds).
  { intros Hin. apply filter_In in Hin as [Hin _].
    apply in_map_iff in Hin as (e & <- & He). apply filter_In in He as [He _].
    apply Hfresh. now apply in_map. }
  rewrite (walk_children_skip os2 count_body directory name File es1 es2 ds _ Hds).
  destruct (count_children_shift os1 os2 directory (es1 ++ es2)%list ds (0 + k)) as (c & E1 & E2).
  { apply Forall_forall. intros d Hd. now apply filter_In in Hd. }
  rewrite E1. replace (0 + (k + 1)) with (0 + k + 1) by lia. now rewrite E2.
Qed.

Lemma adding_a_file_adds_one_witness :
  walk_view Scenario.proj_bare_host "/home/dragon/proj"
  = Dir false (Some ([(".git", Dir false (Some []))]
                     ++ [("a.txt", File); ("sub", Dir false (Some [("b.txt", File)]))])%list) /\
  walk_view AddedFileScenario.added_host "/home/dragon/proj"
  = Dir false (Some ([(".git", Dir false (Some []))]
                     ++ (".env", File)
                     :: [("a.txt", File); ("sub", Dir false (Some [("b.txt", File)]))])%list) /\
  run Scenario.proj_bare_host (count_files "/home/dragon/proj") = 2 /\
  run AddedFileScenario.added_host (count_files "/home/dragon/proj")
  = run Scenario.proj_bare_host (count_files "/home/dragon/proj") + 1.
Proof.
  split; [reflexivity |]. split; [reflexivity |]. split; [reflexivity |].
  apply (adding_a_file_adds_one Scenario.proj_bare_host AddedFileScenario.added_host
           "/home/dragon/proj" ".env" false
           [(".git", Dir false (Some []))]
           [("a.txt", File); ("sub", Dir false (Some [("b.txt", File)]))]);
    [reflexivity | reflexivity |].
  cbn. intros [E | [E | [E | []]]]; discriminate E.
Defined.

(** ** DirectoryScanner: the newest file *)

Lemma files_of_log_app (l1 l2 : list (string * list string)) :
  files_of_log (l1 ++ l2) = (files_of_log l1 ++ files_of_log l2)%list.
Proof. apply flat_map_app. Qed.

Lemma newest_app (os : OS) (p1 p2 : list string) (latest : Q) :
  newest os (p1 ++ p2) latest = newest os p2 (newest os p1 latest).
Proof. apply fold_left_app. Qed.

Lemma run_mtime_files (os : OS) (root : string) (files : list string) (latest : Q) :
  run os (mtime_files root files latest)
  = newest_outcome os (map (join root) files) latest.
Proof.
  revert latest. induction files as [| f files IH]; intros latest; [reflexivity |].
  cbn [mtime_files map bind call run answer newest_outcome].
  destruct (getmtime os (join root f)) as [m | e]; [apply IH |].
  destruct e; cbn [skippable]; try apply IH; reflexivity.
Qed.

Lemma newest_outcome_app (os : OS) (p1 p2 : list string) (latest : Q) :
  newest_outcome os (p1 ++ p2) latest
  = match newest_outcome os p1 latest with
    | Returns latest' => newest_outcome os p2 latest'
    | Raises e => Raises e
    end.
Proof.
  revert latest. induction p1 as [| p p1 IH]; intros latest; [reflexivity |].
  cbn [app newest_outcome]. destruct (getmtime os p) as [m | e]; [apply IH |].
  destruct (skippable e); [apply IH | reflexivity].
Qed.

Lemma iterate_mtime (os : OS) (records : list (string * list string * list string))
    (latest : Q) :
  iterate (fun root _ files latest => newest_outcome os (map (join root) files) latest)
    records latest
  = newest_outcome os (files_of_log (map record_of records)) latest.
Proof.
  revert latest. induction records as [| [[root dirs] files] records IH]; intros latest;
    [reflexivity |].
  cbn [iterate map]. unfold files_of_log. cbn [flat_map record_of fst snd].
  rewrite newest_outcome_app.
  destruct (newest_outcome os (map (join root) files) latest); [apply IH | reflexivity].
Qed.

Lemma walk_mtime (os : OS) (top : string) (t : tree) :
  run os (os_walk mtime_body top t 0%Q)
  = newest_outcome os (files_of_log (map record_of (visited top t))) 0%Q.
Proof.
  rewrite (os_walk_visits os mtime_body
             (fun root _ files latest => newest_outcome os (map (join root) files) latest)).
  - apply iterate_mtime.
  - intros root dirs files s. unfold mtime_body.
    now rewrite run_bind, run_mtime_files.
Qed.

Lemma newest_outcome_benign (os : OS) (paths : list string) :
  Forall (fun p => mtime_benign os p = true) paths ->
  forall latest, newest_outcome os paths latest = Returns (newest os paths latest).
Proof.
  induction 1 as [| p paths Hb _ IH]; intros latest; [reflexivity |].
  cbn [newest_outcome]. unfold newest. cbn [fold_left]. unfold mtime_benign in Hb.
  destruct (getmtime os p) as [m | e]; [apply IH |]. rewrite Hb. apply IH.
Qed.

Lemma newest_outcome_raises (os : OS) (paths : list string) :
  List.Exists (fun p => mtime_benign os p = false) paths ->
  forall latest, exists e, newest_outcome os paths latest = Raises e.
Proof.
  induction 1 as [p paths Hb | p paths _ IH]; intros latest; cbn [newest_outcome].
  - unfold mtime_benign in Hb. destruct (getmtime os p) as [m | e]; [discriminate |].
    rewrite Hb. now exists e.
  - destruct (getmtime os p) as [m | e]; [apply IH |].
    destruct (skippable e); [apply IH | now exists e].
Qed.

Lemma total_files_length (log : list (string * list string)) :
  total_files log = Z.of_nat (List.length (files_of_log log)).
Proof.
  unfold total_files, files_of_log. induction log as [| e log IH]; [reflexivity |].
  cbn [fold_right flat_map]. rewrite IH, length_app, length_map. lia.
Qed.

Lemma newest_ge_start (os : OS) (paths : list string) (latest : Q) :
  (latest <= newest os paths latest)%Q.
Proof.
  revert latest. induction paths as [| p paths IH]; intros latest.
  - apply Qle_refl.
  - unfold newest. cbn [fold_left]. fold (newest os paths).
    destruct (getmtime os p) as [m | e]; [| apply IH].
    destruct (Qle_bool m latest) eqn:E; [apply IH |].
    eapply Qle_trans; [| apply IH].
    apply Qlt_le_weak, Qnot_le_lt. intros H. apply Qle_bool_iff in H. congruence.
Qed.

Lemma newest_ge (os : OS) (paths : list string) (latest : Q) (p : string) (m : Q) :
  In p paths -> getmtime os p = Returns m -> (m <= newest os paths latest)%Q.
Proof.
  revert latest. induction paths as [| q paths IH]; intros latest Hin Hm; [contradiction |].
  unfold newest. cbn [fold_left]. fold (newest os paths).
  destruct Hin as [-> | Hin].
  - rewrite Hm. destruct (Qle_bool m latest) eqn:E.
    + eapply Qle_trans; [| apply newest_ge_start]. now apply Qle_bool_iff.
    + apply newest_ge_start.
  - now apply IH.
Qed.

Lemma newest_is_one (os : OS) (paths : list string) (latest : Q) :
  newest os paths latest = latest \/
  exists p, In p paths /\ getmtime os p = Returns (newest os paths latest).
Proof.
  revert latest. induction paths as [| q paths IH]; intros latest; [now left |].
  unfold newest. cbn [fold_left]. fold (newest os paths).
  destruct (getmtime os q) as [m | e] eqn:Em.
  - destruct (Qle_bool m latest).
    + destruct (IH latest) as [E | (p & Hp & E)]; [now left |].
      right. exists p. split; [now right | exact E].
    + destruct (IH m) as [E | (p & Hp & E)].
      * right. exists q. split; [now left |]. rewrite Em. f_equal. symmetry. exact E.
      * right. exists p. split; [now right | exact E].
  - destruct (IH latest) as [E | (p & Hp & E)]; [now left |].
    right. exists p. split; [now right | exact E].
Qed.

(** X15.  [get_last_modified] looks at exactly the files [count_files]
    counts: the files of the directories of the tree found through names
    that are not pruned.  Where reading the modification time of each of
    them raises nothing but [PermissionError] or [FileNotFoundError], the
    result is the newest of the times that can be read: [Unknown] when that
    time is not above 0 (no file, no readable time, or times at the epoch)
    or when it cannot be rendered, and its rendering to the minute
    otherwise; the time is at least the time of every counted file and,
    unless it is the initial 0, it is the time of one of them.  Where
    reading the time of some counted file raises anything else, the result
    is [Unknown], whatever the other files are. *)
Theorem last_modified_is_newest_counted_file (os : OS) (directory : string) :
  exists log,
    run os (os_walk log_body directory (walk_view os directory) []) = Returns log /\
    run os (count_files directory) = Z.of_nat (List.length (files_of_log log)) /\
    (forall e, In e log <-> record_reached directory (walk_view os directory) e) /\
    (Forall (fun p => mtime_benign os p = true) (files_of_log log) ->
     let latest := newest os (files_of_log log) 0%Q in
     run os (get_last_modified directory)
     = (if Qle_bool latest 0 then "Unknown"
        else match strftime os latest "%Y-%m-%d %H:%M" with
             | Returns text => text
             | Raises _ => "Unknown"
             end) /\
     (forall p m, In p (files_of_log log) -> getmtime os p = Returns m -> (m <= latest)%Q) /\
     (latest = 0%Q \/
      exists p, In p (files_of_log log) /\ getmtime os p = Returns latest)) /\
    (List.Exists (fun p => mtime_benign os p = false) (files_of_log log) ->
     run os (get_last_modified directory) = "Unknown").
Proof.
  exists (map record_of (visited directory (walk_view os directory))).
  split; [apply walk_log |]. split; [| split; [intros e; apply log_reached |]].
  - rewrite run_count_files, walk_count. apply total_files_length.
  - split.
    + intros B. cbv zeta. split; [| split].
      * unfold get_last_modified. cbn [bind call run answer].
        rewrite run_bind, walk_mtime, (newest_outcome_benign os _ B).
        destruct (Qle_bool (newest os _ 0) 0); [reflexivity |].
        cbn [bind call run answer].
        now destruct (strftime os _ "%Y-%m-%d %H:%M").
      * intros p m. apply newest_ge.
      * apply newest_is_one.
    + intros B. unfold get_last_modified. cbn [bind call run answer].
      rewrite run_bind, walk_mtime.
      destruct (newest_outcome_raises os _ B 0%Q) as (e & ->). reflexivity.
Qed.

Lemma last_modified_is_newest_counted_file_witness :
  (exists log,
     run NoiseScenario.noisy_host
       (os_walk log_body "/home/dragon/app"
          (walk_view NoiseScenario.noisy_host "/home/dragon/app") []) = Returns log /\
     Forall (fun p => mtime_benign NoiseScenario.noisy_host p = true) (files_of_log log) /\
     getmtime NoiseScenario.noisy_host "/home/dragon/app/.git/objects/pack"
     = Returns (inject_Z 1700050000) /\
     newest NoiseScenario.noisy_host (files_of_log log) 0%Q = inject_Z 1700000200 /\
     run NoiseScenario.noisy_host (get_last_modified "/home/dragon/app")
     = "2023-11-14 22:16") /\
  (exists log,
     run LoopScenario.loop_host
       (os_walk log_body "/home/dragon/work"
          (walk_view LoopScenario.loop_host "/home/dragon/work") []) = Returns log /\
     List.Exists (fun p => mtime_benign LoopScenario.loop_host p = false)
       (files_of_log log) /\
     getmtime LoopScenario.loop_host "/home/dragon/work/a.txt"
     = Returns (inject_Z 1700000100) /\
     run LoopScenario.loop_host (get_last_modified "/home/dragon/work") = "Unknown").
Proof.
  split.
  - destruct (last_modified_is_newest_counted_file NoiseScenario.noisy_host
                "/home/dragon/app") as (log & E & _ & _ & Hb & _).
    assert (El : log = [ ("/home/dragon/app", ["main.py"; ".env"]);
                         ("/home/dragon/app/src", ["lib.py"]);
                         ("/home/dragon/app/venv2", ["x.txt"]);
                         ("/home/dragon/app/node_modules.bak", ["y.txt"]) ])
      by (vm_compute in E; congruence).
    assert (HF : Forall (fun p => mtime_benign NoiseScenario.noisy_host p = true)
                   (files_of_log log))
      by (rewrite El; repeat constructor).
    exists log. split; [exact E |]. split; [exact HF |]. split; [reflexivity |].
    destruct (Hb HF) as (Hr & _ & _). split; [rewrite El; reflexivity |].
    rewrite Hr, El. reflexivity.
  - destruct (last_modified_is_newest_counted_file LoopScenario.loop_host
                "/home/dragon/work") as (log & E & _ & _ & _ & Hx).
    assert (El : log = [("/home/dragon/work", ["a.txt"; "self"])])
      by (vm_compute in E; congruence).
    assert (HE : List.Exists (fun p => mtime_benign LoopScenario.loop_host p = false)
                   (files_of_log log))
      by (rewrite El; right; left; reflexivity).
    exists log. split; [exact E |]. split; [exact HE |]. split; [reflexivity |].
    exact (Hx HE).
Defined.

(** ** ProjectRegistry: the entries *)

Lemma run_get_project_status (os : OS) (directory : string) :
  run os (get_project_status directory) = "active".
Proof.
  unfold get_project_status. cbn [bind call run answer].
  now destruct (path_exists os (join directory ".git")).
Qed.

Lemma run_get_projects (os : OS) :
  run os get_projects
  = (map (project_entry os "project" get_project_status)
         (filter (fun item => exists_under_root os (fst item)) main_projects)
     ++ map (project_entry os "tooling" (fun _ => Ret "active"))
            (filter (fun item => exists_under_root os (fst item)) tooling_areas))%list.
Proof. unfold get_projects. now rewrite run_bind, !project_loop_run. Qed.

Lemma configured_names_distinct :
  NoDup (map fst main_projects ++ map fst tooling_areas).
Proof.
  cbn. repeat (constructor; [cbn; intuition discriminate |]). constructor.
Qed.

(** X16.  Every entry [get_projects] returns is the entry of one configured
    name whose path exists under the root: it has the seven fields [name],
    [description], [type], [path], [files_count], [last_modified] and
    [status]; [path] repeats the name, the description is the configured
    one, the file count is what [count_files] returns for the directory and
    is not negative, and the status is [active] whether or not the
    directory holds [.git].  No name is listed twice, and at most seven
    entries are returned. *)
Theorem project_entries_are_well_formed (os : OS) :
  (forall entry, In entry (run os get_projects) ->
     exists name description type,
       (In (name, description) main_projects /\ type = "project" \/
        In (name, description) tooling_areas /\ type = "tooling") /\
       exists_under_root os name = true /\
       0 <= run os (count_files (join PROJECT_ROOT name)) /\
       entry = JObj [ ("name", JStr name);
                      ("description", JStr description);
                      ("type", JStr type);
                      ("path", JStr name);
                      ("files_count", JInt (run os (count_files (join PROJECT_ROOT name))));
                      ("last_modified",
                       JStr (run os (get_last_modified (join PROJECT_ROOT name))));
                      ("status", JStr "active") ]) /\
  NoDup (map item_name (run os get_projects)) /\
  (List.length (run os get_projects) <= 7)%nat.
Proof.
  rewrite run_get_projects. split; [| split].
  - intros entry H. apply in_app_or in H as [H | H];
      apply in_map_iff in H as ([name description] & <- & Hin);
      apply filter_In in Hin as [Hin He]; cbn [fst] in He;
      exists name, description; eexists; (split; [| split; [exact He | split]]).
    + left. split; [exact Hin | reflexivity].
    + apply count_files_nonneg.
    + unfold project_entry. cbn [fst snd]. now rewrite run_get_project_status.
    + right. split; [exact Hin | reflexivity].
    + apply count_files_nonneg.
    + reflexivity.
  - rewrite map_app, !project_entries_names, <- filter_app.
    apply NoDup_filter, configured_names_distinct.
  - rewrite length_app, !length_map.
    pose proof (filter_length_le (fun item => exists_under_root os (fst item)) main_projects).
    pose proof (filter_length_le (fun item => exists_under_root os (fst item)) tooling_areas).
    cbn [main_projects tooling_areas List.length] in *. lia.
Qed.

Lemma project_entries_are_well_formed_witness :
  In (JObj [ ("name", JStr "sectop");
             ("description", JStr "Security Operations Tools");
             ("type", JStr "project"); ("path", JStr "sectop");
             ("files_count", JInt 0); ("last_modified", JStr "Unknown");
             ("status", JStr "active") ])
     (run RegistryScenario.some_host get_projects) /\
  exists name description type,
    (In (name, description) main_projects /\ type = "project" \/
     In (name, description) tooling_areas /\ type = "tooling") /\
    exists_under_root RegistryScenario.some_host name = true /\
    0 <= run RegistryScenario.some_host (count_files (join PROJECT_ROOT name)) /\
    JObj [ ("name", JStr "sectop");
           ("description", JStr "Security Operations Tools");
           ("type", JStr "project"); ("path", JStr "sectop");
           ("files_count", JInt 0); ("last_modified", JStr "Unknown");
           ("status", JStr "active") ]
    = JObj [ ("name", JStr name);
             ("description", JStr description);
             ("type", JStr type);
             ("path", JStr name);
             ("files_count",
              JInt (run RegistryScenario.some_host (count_files (join PROJECT_ROOT name))));
             ("last_modified",
              JStr (run RegistryScenario.some_host
                      (get_last_modified (join PROJECT_ROOT name))));
             ("status", JStr "active") ].
Proof.
  assert (H : In (JObj [ ("name", JStr "sectop");
                         ("description", JStr "Security Operations Tools");
                         ("type", JStr "project"); ("path", JStr "sectop");
                         ("files_count", JInt 0); ("last_modified", JStr "Unknown");
                         ("status", JStr "active") ])
                 (run RegistryScenario.some_host get_projects)).
  { right. left. reflexivity. }
  split; [exact H |].
  exact (proj1 (project_entries_are_well_formed RegistryScenario.some_host) _ H).
Defined.

(** ** What the listing leaves alone *)

Lemma trace_browse_loop (os : OS) (target_path subpath : string) entries :
  forall items,
    existsb opens_or_walks (trace os (browse_loop target_path subpath entries items)) = false.
Proof.
  induction entries as [| entry rest IH]; intros items; [reflexivity |].
  cbn [browse_loop]. destruct (hidden_entry entry); [apply IH |].
  cbn [bind call run trace answer existsb opens_or_walks orb].
  destruct (stat os (join target_path entry)) as [st | e].
  - cbn [bind call run trace answer existsb opens_or_walks orb].
    destruct (strftime os (st_mtime st) "%Y-%m-%d %H:%M:%S") as [m | e]; [apply IH |].
    destruct e; try reflexivity; apply IH.
  - destruct e; try reflexivity; apply IH.
Qed.

(** X17.  [api_browse] never opens a file: on no host and for no path does
    its run read the bytes of a file, ask for a size or a modification time
    by path, or walk a tree.  What it learns of an entry comes from [stat]
    and [isdir] alone. *)
Theorem listing_never_opens_files (os : OS) (subpath : string) :
  existsb opens_or_walks (trace os (api_browse subpath)) = false.
Proof.
  unfold api_browse. destruct (invalid_path subpath); [reflexivity |].
  cbn [bind call run trace answer existsb opens_or_walks orb].
  destruct (negb (startswith _ _)); [reflexivity |].
  cbn [bind call run trace answer existsb opens_or_walks orb].
  destruct (negb (path_exists os _)); [reflexivity |].
  cbn [bind call run trace answer existsb opens_or_walks orb].
  destruct (negb (isdir os _)); [reflexivity |].
  cbn [bind call run trace answer existsb opens_or_walks orb].
  destruct (listdir os _) as [names | e]; [| reflexivity].
  rewrite trace_bind, existsb_app, trace_browse_loop. cbn [orb].
  now destruct (run os (browse_loop _ subpath (sorted names) [])).
Qed.

(** ** Text and binary *)

Lemma ascii_is_well_formed (bs : list byte) :
  all_ascii bs = true -> utf8_wf (map Byte.to_N bs) = true.
Proof.
  unfold all_ascii. induction bs as [| b bs IH]; [reflexivity |].
  cbn [forallb map utf8_wf]. intros H. apply andb_true_iff in H as [Hb Hr].
  rewrite Hb. now apply IH.
Qed.

(** X18.  The only test for binary content is UTF-8 decoding: a file within
    the size ceiling all of whose bytes are below 0x80, NUL and control
    bytes included, is served as text with status 200, never as a binary
    file. *)
Theorem ascii_files_are_served_as_text
    (os : OS) (filepath : string) (n : Z) (bs : list byte) :
  read_checks os filepath = true ->
  getsize os (join PROJECT_ROOT filepath) = Returns n ->
  n <= 1048576 ->
  read_bytes os (join PROJECT_ROOT filepath) = Returns bs ->
  all_ascii bs = true ->
  run os (api_read_file filepath)
  = text_response filepath (universal_newlines (string_of_list_byte bs)) n.
Proof.
  intros C Hn L Hb Ha.
  rewrite (api_read_file_checked _ _ C). unfold read_after_checks. cbv zeta.
  rewrite Hn, Hb. destruct (Z.ltb_spec (1024 * 1024) n) as [G | _]; [lia |].
  unfold decode_utf8. now rewrite (ascii_is_well_formed bs Ha).
Qed.

Lemma ascii_files_are_served_as_text_witness :
  read_checks PlainScenario.plain_host "raw.dat" = true /\
  read_bytes PlainScenario.plain_host (join PROJECT_ROOT "raw.dat")
  = Returns [x00; x01; x7f; x41] /\
  all_ascii [x00; x01; x7f; x41] = true /\
  run PlainScenario.plain_host (api_read_file "raw.dat")
  = text_response "raw.dat"
      (universal_newlines (string_of_list_byte [x00; x01; x7f; x41])) 4.
Proof.
  split; [reflexivity |]. split; [reflexivity |]. split; [reflexivity |].
  apply (ascii_files_are_served_as_text PlainScenario.plain_host "raw.dat" 4
           [x00; x01; x7f; x41]); try reflexivity.
  lia.
Defined.

(** ** Symbolic links to directories *)

Lemma descend_at_link {S : Type} body top name (s : S) sc es1 es2 :
  ~ In name (map fst es1) ->
  descend body top name s (es1 ++ (name, Dir true sc) :: es2)%list = Ret (Returns s).
Proof.
  induction es1 as [| [n1 c1] es1 IH]; intros Hn; cbn [app descend].
  - now rewrite String.eqb_refl.
  - destruct (String.eqb_spec n1 name) as [-> | _].
    + elim Hn. now left.
    + apply IH. intros Hin. apply Hn. now right.
Qed.

Lemma walk_children_link {S : Type} (os : OS) body top name sc es1 es2 ds :
  ~ In name (map fst es1) ->
  forall acc1 acc2 : prog (outcome S),
    run os acc1 = run os acc2 ->
    run os (fold_left
              (fun acc d => a <- acc ;;
                 match a with
                 | Raises e => Ret (Raises e)
                 | Returns s' =>
                     descend body top d s' (es1 ++ (name, Dir true sc) :: es2)%list
                 end) ds acc1)
    = run os (fold_left
                (fun acc d => a <- acc ;;
                   match a with
                   | Raises e => Ret (Raises e)
                   | Returns s' => descend body top d s' (es1 ++ es2)%list
                   end) (filter (fun d => negb (String.eqb d name)) ds) acc2).
Proof.
  intros Hn. induction ds as [| d ds IH]; intros acc1 acc2 E; cbn [fold_left filter];
    [exact E |].
  destruct (String.eqb_spec d name) as [-> | Hd]; cbn [negb fold_left].
  - apply IH. rewrite run_bind, E.
    destruct (run os acc2) as [s' | e]; [| reflexivity].
    now rewrite descend_at_link.
  - apply IH. rewrite !run_bind, E.
    destruct (run os acc2) as [s' | e]; [| reflexivity].
    rewrite descend_skip; [reflexivity |]. intros ->. now apply Hd.
Qed.

Lemma filter_other_names (name : string) (l : list string) :
  ~ In name l -> filter (fun d => negb (String.eqb d name)) l = l.
Proof.
  induction l as [| d l IH]; intros Hn; [reflexivity |]. cbn [filter].
  destruct (String.eqb_spec d name) as [-> | _]; cbn [negb].
  - elim Hn. now left.
  - rewrite IH; [reflexivity |]. intros Hin. apply Hn. now right.
Qed.

Lemma filter_filter_comm {A : Type} (p q : A -> bool) (l : list A) :
  filter p (filter q l) = filter q (filter p l).
Proof.
  induction l as [| a l IH]; [reflexivity |]. cbn [filter].
  destruct (p a) eqn:Ep, (q a) eqn:Eq; cbn [filter]; rewrite ?Ep, ?Eq, IH; reflexivity.
Qed.

(** X19.  The walk does not follow symbolic links to directories.  Adding
    to the scanned directory a link to a directory, under a name the
    directory does not hold yet, leaves the count as it was, whatever lies
    behind the link: the link is not a file and its target is not
    descended into. *)
Theorem links_to_directories_are_not_followed (os1 os2 : OS) (directory name : string)
    (l : bool) (es1 es2 : list (string * tree)) (behind : option (list (string * tree))) :
  walk_view os1 directory = Dir l (Some (es1 ++ es2)%list) ->
  walk_view os2 directory = Dir l (Some (es1 ++ (name, Dir true behind) :: es2)%list) ->
  ~ In name (map fst (es1 ++ es2)%list) ->
  run os2 (count_files directory) = run os1 (count_files directory).
Proof.
  intros V1 V2 Hfresh.
  assert (H1 : ~ In name (map fst es1)).
  { intros Hin. apply Hfresh. rewrite map_app. apply in_or_app. now left. }
  rewrite !run_count_files, V1, V2.
  rewrite <- (count_agree os2 os1 directory _ _ (agree_refl (Dir l (Some (es1 ++ es2)%list)))).
  rewrite !os_walk_dir, !run_bind. cbn [count_body run].
  assert (En : map fst (filter (fun e => negb (is_dir_entry e))
                          (es1 ++ (name, Dir true behind) :: es2)%list)
               = map fst (filter (fun e => negb (is_dir_entry e)) (es1 ++ es2)%list)).
  { rewrite !filter_app. reflexivity. }
  rewrite En. unfold walk_children.
  rewrite (walk_children_link os2 count_body directory name behind es1 es2 _ H1
             _ _ eq_refl).
  assert (Ed : filter (fun d => negb (String.eqb d name))
                 (filter keep_dir
                    (map fst (filter is_dir_entry
                                (es1 ++ (name, Dir true behind) :: es2)%list)))
               = filter keep_dir (map fst (filter is_dir_entry (es1 ++ es2)%list))).
  { rewrite filter_filter_comm. f_equal.
    rewrite !filter_app, !map_app. cbn [filter is_dir_entry snd map fst].
    rewrite filter_app. cbn [filter]. rewrite String.eqb_refl. cbn [negb].
    rewrite <- filter_app, <- map_app, <- filter_app.
    apply filter_other_names. intros Hin.
    apply in_map_iff in Hin as (e & <- & He). apply filter_In in He as [He _].
    apply Hfresh. now apply in_map. }
  now rewrite Ed.
Qed.

Lemma links_to_directories_are_not_followed_witness :
  walk_view PlainScenario.plain_host "/home/dragon/proj"
  = Dir false (Some ([("a.txt", File)] ++ [])%list) /\
  walk_view LinkScenario.linked_host "/home/dragon/proj"
  = Dir false (Some ([("a.txt", File)] ++ ("vendor", Dir true None) :: [])%list) /\
  run PlainScenario.plain_host (count_files "/srv/vendor") = 3 /\
  run LinkScenario.linked_host (count_files "/home/dragon/proj") = 1 /\
  run LinkScenario.linked_host (count_files "/home/dragon/proj")
  = run PlainScenario.plain_host (count_files "/home/dragon/proj").
Proof.
  split; [reflexivity |]. split; [reflexivity |]. split; [reflexivity |].
  split; [reflexivity |].
  apply (links_to_directories_are_not_followed PlainScenario.plain_host
           LinkScenario.linked_host "/home/dragon/proj" "vendor" false
           [("a.txt", File)] [] None); [reflexivity | reflexivity |].
  cbn. intros [E | []]. discriminate E.
Defined.

(** ** Errors the listing does not step over *)

Lemma browse_loop_aborts (os : OS) (target_path subpath : string) entries :
  (exists e, In e entries /\ entry_benign os target_path e = false) ->
  forall items, exists e,
    run os (browse_loop target_path subpath entries items) = Raises e /\
    skippable e = false.
Proof.
  induction entries as [| entry rest IH]; intros (e & Hin & Hb) items; [contradiction |].
  cbn [browse_loop].
  assert (R : entry_benign os target_path entry = true ->
              exists e', In e' rest /\ entry_benign os target_path e' = false).
  { intros Ht. destruct Hin as [<- | Hin]; [congruence | eauto]. }
  unfold entry_benign in R.
  destruct (hidden_entry entry); [now apply IH, R |].
  cbn [orb] in R. cbn [bind call run answer].
  destruct (stat os (join target_path entry)) as [st | x].
  - cbn [bind call run answer].
    destruct (strftime os (st_mtime st) "%Y-%m-%d %H:%M:%S") as [m | x];
      [now apply IH, R |].
    destruct x; try (now apply IH, R); eexists; split; reflexivity.
  - destruct x; try (now apply IH, R); eexists; split; reflexivity.
Qed.

(** X20.  One entry can fail the whole listing.  When the request passes
    the checks and [listdir] returns, but looking at some entry that is not
    hidden raises an exception other than [PermissionError] or
    [FileNotFoundError] (from [stat], or from rendering a modification time
    outside the years the calendar knows), [api_browse] answers with status
    500 and no listing at all. *)
Theorem listing_fails_on_other_errors
    (os : OS) (subpath : string) (names : list string) :
  browse_checks os subpath = true ->
  listdir os (browse_target subpath) = Returns names ->
  (exists e, In e names /\ entry_benign os (browse_target subpath) e = false) ->
  snd (run os (api_browse subpath)) = 500 /\
  listing_items (run os (api_browse subpath)) = [].
Proof.
  intros C L (e & Hin & Hb). rewrite (api_browse_checked _ _ C), L.
  destruct (browse_loop_aborts os (browse_target subpath) subpath (sorted names))
    with (items := @nil json) as (x & -> & Hx).
  { exists e. split; [| exact Hb].
    apply Permutation_in with (l := names); [apply StrSort.Permuted_sort | exact Hin]. }
  destruct x; try discriminate Hx; split; reflexivity.
Qed.

Lemma listing_fails_on_other_errors_witness :
  browse_checks FarFutureScenario.late_host "work" = true /\
  listdir FarFutureScenario.late_host (browse_target "work")
  = Returns ["a.txt"; "late.txt"] /\
  entry_benign FarFutureScenario.late_host (browse_target "work") "late.txt" = false /\
  run FarFutureScenario.late_host (api_browse "work")
  = (error_body "year 10000 is out of range", 500) /\
  snd (run FarFutureScenario.late_host (api_browse "work")) = 500.
Proof.
  split; [reflexivity |]. split; [reflexivity |]. split; [reflexivity |].
  split; [reflexivity |].
  apply (listing_fails_on_other_errors FarFutureScenario.late_host "work"
           ["a.txt"; "late.txt"] eq_refl eq_refl).
  exists "late.txt". split; [right; left; reflexivity | reflexivity].
Defined.
